(** * benchmark.py: reading many small arrays under four on-disk layouts

    A shallow embedding of [src/benchmark.py] and the properties of its
    identifier generation, its four create/test pairs and its command
    dispatch.

    Conventions of the embedding.
    - Python floats are IEEE binary64 values, modelled by the Standard
      Library's [spec_float] with its round-to-nearest-even operations
      ([SFmul 53 1024], [SFadd 53 1024]); [float32] is [prec = 24],
      [emax = 128].
    - Paths are lists of components, the way [pathlib] splits them:
      ["cache/flat/x.npy"] is [["cache"; "flat"; "x.npy"]].
    - The process state (file system, numpy's global generator, the
      entropy behind [uuid.uuid4], and the log of effects) is threaded
      through a state-and-exception monad [M].
    - Library code the script calls but does not contain (the Mersenne
      twister behind [np.random], [uuid.uuid4], [np.mean]/[np.max]/[np.min],
      [eval]) is taken through type classes; [tqdm] only draws a progress
      bar and the wall-clock readings only feed the "Took ..." line, so both
      are left out. *)

From Stdlib Require Import ZArith Floats Lia List Permutation Ascii String.
From stdpp Require Import gmap strings list.

Open Scope Z_scope.

(** ** Python exceptions the script can raise *)

Inductive exn :=
  | AssertionError
  | FileNotFoundError
  | FileExistsError
  | NotADirectoryError
  | IsADirectoryError
  | IndexError
  | ValueError
  | TypeError
  | OverflowError
  | EvalError (msg : string).

Inductive result (A : Type) :=
  | Ok (a : A)
  | Raise (e : exn).
Arguments Ok {A} a.
Arguments Raise {A} e.

(** ** Binary64 and binary32 arithmetic *)

Module Float.

Definition mul64 : spec_float -> spec_float -> spec_float := SFmul 53 1024.
Definition add64 : spec_float -> spec_float -> spec_float := SFadd 53 1024.

(** [float(z)] for a Python int: correctly rounded, [OverflowError] when
    the int is too large for a double. *)
Definition of_int (z : Z) : result spec_float :=
  match binary_normalize 53 1024 z 0 false with
  | S754_infinity _ => Raise OverflowError
  | f => Ok f
  end.

(** Small literals ([5], [10]) convert exactly. *)
Definition lit (z : Z) : spec_float := binary_normalize 53 1024 z 0 false.

(** [int(x)] for a Python float: truncation toward zero. *)
Definition to_int (x : spec_float) : result Z :=
  match x with
  | S754_nan => Raise ValueError
  | S754_infinity _ => Raise OverflowError
  | S754_zero _ => Ok 0
  | S754_finite s m e =>
      Ok (cond_Zopp s (if 0 <=? e then Z.pos m * 2 ^ e
                       else Z.pos m / 2 ^ (- e)))
  end.

(** [x.astype(np.float32)] on one element. *)
Definition to_float32 (x : spec_float) : spec_float :=
  match x with
  | S754_finite s m e => binary_round 24 128 s m e
  | _ => x
  end.

(** A double in the half-open unit interval, as [np.random.random]
    returns them: [+0.0], or a canonical positive finite value below 1. *)
Definition in_unit (x : spec_float) : bool :=
  match x with
  | S754_zero false => true
  | S754_finite false m e =>
      bounded 53 1024 m e && (e <? 0) && (Z.pos m <? 2 ^ (- e))
  | _ => false
  end.

End Float.

(** ** Library interfaces *)

(** The legacy generator behind [np.random.seed], [np.random.random] and
    [np.random.shuffle]: [rk_double] is one draw of [random_sample],
    [rk_interval max] one draw of an integer in [[0, max]]. *)
Class RandomState := {
  rk_state : Type;
  rk_seed : Z -> rk_state;
  rk_double : rk_state -> spec_float * rk_state;
  rk_interval : Z -> rk_state -> Z * rk_state;
  rk_double_unit : forall s, Float.in_unit (fst (rk_double s)) = true;
  rk_interval_bound :
    forall max s, 0 <= max -> 0 <= fst (rk_interval max s) <= max
}.

(** The operating-system entropy behind [uuid.uuid4]: one draw is a 128-bit
    integer. *)
Class UuidSource := {
  os_state : Type;
  uuid4 : os_state -> Z * os_state;
  uuid4_range : forall s, 0 <= fst (uuid4 s) < 2 ^ 128
}.

(** numpy's reductions on float32 data. [np.max] and [np.min] raise
    [ValueError] on an empty sequence; that guard is written out in
    [np_max] and [np_min] below. *)
Class NumpyStats := {
  mean32 : list spec_float -> spec_float;
  amax32 : list spec_float -> spec_float;
  amin32 : list spec_float -> spec_float
}.

(** Values [eval] can hand to [int]. *)
Inductive pyval :=
  | PyInt (z : Z)
  | PyFloat (x : spec_float)
  | PyStr (s : string)
  | PyOther.


(** ** Strings: identifiers and Python indexing *)

Definition hex_digit (d : Z) : ascii :=
  match d with
  | 0 => "0" | 1 => "1" | 2 => "2" | 3 => "3"
  | 4 => "4" | 5 => "5" | 6 => "6" | 7 => "7"
  | 8 => "8" | 9 => "9" | 10 => "a" | 11 => "b"
  | 12 => "c" | 13 => "d" | 14 => "e" | _ => "f"
  end%char.

(** [format(v, "0<w>x")] for [0 <= v < 16^w]: [w] lowercase hex digits. *)
Fixpoint hex_fixed (w : nat) (v : Z) : list ascii :=
  match w with
  | O => []
  | S w' => hex_fixed w' (v / 16) ++ [hex_digit (v mod 16)]
  end.

(** [uuid.UUID.hex]: ['%032x' % self.int]. *)
Definition uuid_hex (v : Z) : string := string_of_list_ascii (hex_fixed 32 v).

(** ["%03x" % i] for [0 <= i < 4096] and [f"{i:x}"] for [0 <= i < 16]. *)
Definition fmt_03x (i : Z) : string := string_of_list_ascii (hex_fixed 3 i).
Definition fmt_x (i : Z) : string := string_of_list_ascii (hex_fixed 1 i).

(** [name[-3:]]: the last three characters, or the whole string when it is
    shorter. *)
Definition last3 (name : string) : string :=
  let cs := list_ascii_of_string name in
  string_of_list_ascii (skipn (List.length cs - 3)%nat cs).

(** [name[-k]] for [k >= 1]: the k-th character from the end;
    [IndexError] when the string is shorter than [k]. *)
Definition index_from_end (name : string) (k : nat) : result string :=
  let cs := list_ascii_of_string name in
  if (List.length cs <? k)%nat then Raise IndexError
  else match nth_error cs (List.length cs - k)%nat with
       | Some c => Ok (String c EmptyString)
       | None => Raise IndexError
       end.

(** An identifier as [init] writes it: 32 lowercase hex characters. *)
Definition is_hex_char (c : ascii) : bool :=
  existsb (Ascii.eqb c) (List.map hex_digit (List.map Z.of_nat (seq 0 16))).

Definition is_identifier (name : string) : bool :=
  let cs := list_ascii_of_string name in
  (List.length cs =? 32)%nat && forallb is_hex_char cs.

(** ** Files, effects and the process state *)

Abbreviation path := (list string).

(** What a file holds: a [.npy] array of strings (the identifier list), a
    [.npy] array of float32, or the raw float32 block behind [np.memmap]. *)
Inductive file :=
  | NpyStr (names : list string)
  | NpyF32 (xs : list spec_float)
  | RawF32 (xs : list spec_float).

Inductive mmap_mode := ModeWritePlus | ModeRead.

(** The dictionary [docopt] returns. *)
Record arguments := {
  arg_init : bool;
  arg_create : bool;
  arg_test : bool;
  arg_flat : bool;
  arg_two_level : bool;
  arg_four_level : bool;
  arg_memmap : bool;
  arg_COUNT : option string;
  arg_size : option string
}.

Inductive message :=
  | MsgArguments (a : arguments)
  | MsgText (s : string)
  | MsgStats (mx avg mn : spec_float)
  | MsgTook.

(** The effects of the script, in program order. *)
Inductive event :=
  | EvMkdir (p : path)
  | EvSave (p : path) (data : file)
  | EvLoad (p : path)
  | EvMemmapOpen (p : path) (mode : mmap_mode) (rows cols : Z)
  | EvMemmapStore (p : path) (i : Z) (row : list spec_float)
  | EvMemmapFetch (p : path) (i : Z)
  | EvMemmapFlush (p : path)
  | EvPrint (m : message).

Definition has_npy_suffix (c : string) : bool :=
  match rev (list_ascii_of_string c) with
  | "y"%char :: "p"%char :: "n"%char :: "."%char :: _ => true
  | _ => false
  end.

Definition parent (p : path) : path := removelast p.

(** The state of the process and of the disk under its working directory:
    the directories, the files, numpy's global generator, the entropy
    behind [uuid4], and the effects so far. *)
Record world `{RS : RandomState} `{US : UuidSource} := {
  dirs : gset (list string);
  files : gmap (list string) file;
  np_random : rk_state;
  os_entropy : os_state;
  log : list event
}.

(** The builtins [eval] and [int] on a string. Line 176 gives the COUNT
    text to [eval] in the module's namespace: it is evaluated as an
    expression, which may call the module's functions, read and write
    files and draw random numbers before it returns a value or raises.
    So [eval] runs on the process state, like every other step.
    [PyOther] is any value [int] rejects with a [TypeError] ([None], a
    list, a module, ...). *)
Class PyEval := {
  eval : forall `{RS : RandomState} `{US : UuidSource},
           string -> world -> result pyval * world;
  int_of_str : string -> result Z
}.
Arguments eval {_ _ _} _ _.

Section Program.
Context `{RS : RandomState} `{US : UuidSource} `{NS : NumpyStats}
        `{PE : PyEval}.

(** *** The monad: state plus exceptions; the state survives a raise *)

Definition M (A : Type) : Type := world -> result A * world.

Definition ret {A} (a : A) : M A := fun w => (Ok a, w).
Definition raise {A} (e : exn) : M A := fun w => (Raise e, w).
Definition bind {A B} (m : M A) (k : A -> M B) : M B :=
  fun w => match m w with
           | (Ok a, w') => k a w'
           | (Raise e, w') => (Raise e, w')
           end.

Notation "x <- m ;; k" := (bind m (fun x => k))
  (at level 100, m at next level, right associativity).
Notation "m >> k" := (bind m (fun _ => k))
  (at level 100, right associativity).

Definition lift {A} (r : result A) : M A := fun w => (r, w).

(** [for x in xs: body(x)] *)
Fixpoint for_each {A} (xs : list A) (body : A -> M unit) : M unit :=
  match xs with
  | [] => ret tt
  | x :: xs' => body x >> for_each xs' body
  end.

Definition log_event (e : event) (w : world) : world :=
  {| dirs := dirs w; files := files w; np_random := np_random w;
     os_entropy := os_entropy w; log := log w ++ [e] |}.

Definition emit (e : event) : M unit := fun w => (Ok tt, log_event e w).

(** *** File system *)

Definition is_dir (w : world) (p : path) : bool :=
  bool_decide (p = [] \/ p ∈ dirs w).
Definition is_file (w : world) (p : path) : bool :=
  bool_decide (is_Some (files w !! p)).

(** Resolving the directory part of a path: the first component on the
    way that is not a directory decides between [ENOTDIR] and [ENOENT]. *)
Fixpoint walk (w : world) (seen : path) (rest : list string) : option exn :=
  match rest with
  | [] => None
  | c :: rest' =>
      let here := seen ++ [c] in
      if is_dir w here then walk w here rest'
      else if is_file w here then Some NotADirectoryError
      else Some FileNotFoundError
  end.

Definition resolve_parent (w : world) (p : path) : option exn :=
  walk w [] (parent p).

Definition add_dir (p : path) (w : world) : world :=
  {| dirs := {[p]} ∪ dirs w; files := files w;
     np_random := np_random w; os_entropy := os_entropy w;
     log := log w |}.

Definition write_file (p : path) (f : file) (w : world) : world :=
  {| dirs := dirs w; files := <[p := f]> (files w);
     np_random := np_random w; os_entropy := os_entropy w;
     log := log w |}.

(** [os.mkdir(p)] *)
Definition os_mkdir (p : path) : M unit :=
  fun w => match resolve_parent w p with
           | Some e => (Raise e, w)
           | None =>
               if is_dir w p || is_file w p then (Raise FileExistsError, w)
               else (Ok tt, add_dir p w)
           end.

(** [Path(p).mkdir(exist_ok=True, parents=parents)], following pathlib:
    try [os.mkdir]; on [FileNotFoundError] with [parents], make the parent
    the same way and retry once; any other [OSError] is swallowed exactly
    when the path is a directory. The fuel is the number of components. *)
Definition mkdir_no_parents (p : path) : M unit :=
  fun w => match os_mkdir p w with
           | (Ok tt, w') => (Ok tt, w')
           | (Raise FileNotFoundError, w') => (Raise FileNotFoundError, w')
           | (Raise e, w') => if is_dir w' p then (Ok tt, w') else (Raise e, w')
           end.

Fixpoint mkdir_rec (fuel : nat) (p : path) : M unit :=
  emit (EvMkdir p) >>
  fun w => match os_mkdir p w with
           | (Ok tt, w') => (Ok tt, w')
           | (Raise FileNotFoundError, w') =>
               match fuel, p with
               | S fuel', _ :: _ =>
                   (mkdir_rec fuel' (parent p) >>
                    emit (EvMkdir p) >> mkdir_no_parents p) w'
               | _, _ => (Raise FileNotFoundError, w')
               end
           | (Raise e, w') => if is_dir w' p then (Ok tt, w') else (Raise e, w')
           end.

Definition path_mkdir (p : path) (parents : bool) : M unit :=
  if parents then mkdir_rec (List.length p) p
  else emit (EvMkdir p) >> mkdir_no_parents p.

(** Opening a file for writing ([np.save], [np.memmap(mode="w+")]). *)
Definition open_for_write (p : path) : M unit :=
  fun w => match resolve_parent w p with
           | Some e => (Raise e, w)
           | None => if is_dir w p then (Raise IsADirectoryError, w)
                     else (Ok tt, w)
           end.

(** Opening a file for reading ([np.load], [np.memmap(mode="r")]). *)
Definition open_for_read (p : path) : M file :=
  fun w => match resolve_parent w p with
           | Some e => (Raise e, w)
           | None =>
               if is_dir w p then (Raise IsADirectoryError, w)
               else match files w !! p with
                    | Some f => (Ok f, w)
                    | None => (Raise FileNotFoundError, w)
                    end
           end.

Definition np_save (p : path) (data : file) : M unit :=
  emit (EvSave p data) >>
  open_for_write p >>
  fun w => (Ok tt, write_file p data w).

Definition np_load (p : path) : M file :=
  emit (EvLoad p) >> open_for_read p.

Definition filelist_path : path := ["cache"; "filelist.npy"]%string.

(** [files = np.load("cache/filelist.npy")]. A file of another kind at
    that path is outside what the script ever writes there; the model
    raises [TypeError] for it. *)
Definition load_filelist : M (list string) :=
  f <- np_load filelist_path ;;
  match f with
  | NpyStr names => ret names
  | _ => raise TypeError
  end.

(** *** numpy's global generator *)

Definition set_rng (s : rk_state) (w : world) : world :=
  {| dirs := dirs w; files := files w; np_random := s;
     os_entropy := os_entropy w; log := log w |}.

(** [np.random.seed(z)] *)
Definition np_random_seed (z : Z) : M unit :=
  fun w => (Ok tt, set_rng (rk_seed z) w).

(** [np.random.random()] *)
Definition np_random_random : M spec_float :=
  fun w => let (x, s) := rk_double (np_random w) in (Ok x, set_rng s w).

Fixpoint draws (n : nat) (s : rk_state) : list spec_float * rk_state :=
  match n with
  | O => ([], s)
  | S n' => let (x, s1) := rk_double s in
            let (xs, s2) := draws n' s1 in
            (x :: xs, s2)
  end.

(** [np.random.random(n)]: [n] consecutive draws; a negative dimension is
    a [ValueError]. *)
Definition np_random_random_n (n : Z) : M (list spec_float) :=
  if n <? 0 then raise ValueError
  else fun w => let (xs, s) := draws (Z.to_nat n) (np_random w) in
                (Ok xs, set_rng s w).

(** [x[i], x[j] = x[j], x[i]] *)
Definition swap {A} (l : list A) (i j : nat) : list A :=
  match l !! i, l !! j with
  | Some a, Some b => <[i := b]> (<[j := a]> l)
  | _, _ => l
  end.

(** The loop of the legacy [shuffle]:
    [for i in reversed(range(1, n)): j = rk_interval(i); swap x[i], x[j]]. *)
Fixpoint shuffle_from {A} (i : nat) (l : list A) (s : rk_state)
  : list A * rk_state :=
  match i with
  | O => (l, s)
  | S i' => let (j, s') := rk_interval (Z.of_nat i) s in
            shuffle_from i' (swap l i (Z.to_nat j)) s'
  end.

Definition shuffle {A} (l : list A) (s : rk_state) : list A * rk_state :=
  shuffle_from (List.length l - 1)%nat l s.

(** [np.random.shuffle(x)]; the shuffled array is returned instead of
    being updated in place. *)
Definition np_random_shuffle {A} (l : list A) : M (list A) :=
  fun w => let (l', s) := shuffle l (np_random w) in (Ok l', set_rng s w).

(** *** One random record *)

(** [int(10 + u * 5 * size)] in double precision, [u] already drawn. *)
Definition record_length (u : spec_float) (size : Z) : result Z :=
  match Float.of_int size with
  | Raise e => Raise e
  | Ok fsize =>
      Float.to_int
        (Float.add64 (Float.lit 10)
           (Float.mul64 (Float.mul64 u (Float.lit 5)) fsize))
  end.

(** [np.random.random(int(10 + np.random.random() * 5 * size))
       .astype(np.float32)]:
    the length draw comes first, then the content draws. *)
Definition random_record (size : Z) : M (list spec_float) :=
  u <- np_random_random ;;
  n <- lift (record_length u size) ;;
  xs <- np_random_random_n n ;;
  ret (List.map Float.to_float32 xs).

(** *** [create_filelist] *)

Fixpoint uuid_hexes (k : nat) (s : os_state) : list string * os_state :=
  match k with
  | O => ([], s)
  | S k' => let (v, s1) := uuid4 s in
            let (names, s2) := uuid_hexes k' s1 in
            (uuid_hex v :: names, s2)
  end.

(** [[uuid.uuid4().hex for _ in range(n)]]; [range(n)] is empty for
    [n <= 0]. *)
Definition set_entropy (s : os_state) (w : world) : world :=
  {| dirs := dirs w; files := files w; np_random := np_random w;
     os_entropy := s; log := log w |}.

Definition fresh_identifiers (n : Z) : M (list string) :=
  fun w => let (names, s) := uuid_hexes (Z.to_nat n) (os_entropy w) in
           (Ok names, set_entropy s w).

(** [a.shape[0]] *)
Definition shape0 (f : file) : Z :=
  match f with
  | NpyStr names => Z.of_nat (List.length names)
  | NpyF32 xs => Z.of_nat (List.length xs)
  | RawF32 xs => Z.of_nat (List.length xs)
  end.

Definition py_assert (b : bool) : M unit :=
  if b then ret tt else raise AssertionError.

Definition create_filelist (n : Z) : M unit :=
  names <- fresh_identifiers n ;;
  np_save filelist_path (NpyStr names) >>
  files <- np_load filelist_path ;;
  py_assert (shape0 files =? n).

(** *** The three per-file layouts: where an identifier lives *)

Definition npy (name : string) : string := (name ++ ".npy")%string.

(** The f-strings of the create functions (lines 42, 57 and 75). In the
    four-level one the three index expressions are evaluated left to
    right, each of which can raise. *)
Definition create_flat_path (name : string) : path :=
  ["cache"; "flat"; npy name]%string.

Definition create_two_level_path (name : string) : path :=
  ["cache"; "2level"; last3 name; npy name]%string.

Definition create_four_level_path (name : string) : result path :=
  match index_from_end name 1 with
  | Raise e => Raise e
  | Ok c1 =>
      match index_from_end name 2 with
      | Raise e => Raise e
      | Ok c2 =>
          match index_from_end name 3 with
          | Raise e => Raise e
          | Ok c3 => Ok ["cache"; "4level"; c1; c2; c3; npy name]%string
          end
      end
  end.

(** The f-strings of the test functions (lines 108, 127 and 149-150). *)
Definition test_flat_path (name : string) : path :=
  ["cache"; "flat"; npy name]%string.

Definition test_two_level_path (name : string) : path :=
  ["cache"; "2level"; last3 name; npy name]%string.

Definition test_four_level_path (name : string) : result path :=
  match index_from_end name 1 with
  | Raise e => Raise e
  | Ok c1 =>
      match index_from_end name 2 with
      | Raise e => Raise e
      | Ok c2 =>
          match index_from_end name 3 with
          | Raise e => Raise e
          | Ok c3 => Ok ["cache"; "4level"; c1; c2; c3; npy name]%string
          end
      end
  end.

(** [range(n)] *)
Definition range (n : nat) : list Z := List.map Z.of_nat (seq 0 n).

Definition create_files_flat (size : Z) : M unit :=
  path_mkdir ["cache"; "flat"]%string false >>
  files <- load_filelist ;;
  np_random_seed 515 >>
  for_each files (fun name =>
    arr <- random_record size ;;
    np_save (create_flat_path name) (NpyF32 arr)).

Definition create_files_two_level (size : Z) : M unit :=
  path_mkdir ["cache"; "2level"]%string false >>
  files <- load_filelist ;;
  for_each (range (16 ^ 3)) (fun i =>
    path_mkdir ["cache"; "2level"; fmt_03x i]%string false) >>
  np_random_seed 515 >>
  for_each files (fun name =>
    arr <- random_record size ;;
    np_save (create_two_level_path name) (NpyF32 arr)).

Definition create_files_four_level (size : Z) : M unit :=
  path_mkdir ["cache"; "4level"]%string false >>
  files <- load_filelist ;;
  for_each (range 16) (fun i =>
    for_each (range 16) (fun j =>
      for_each (range 16) (fun k =>
        path_mkdir ["cache"; "4level"; fmt_x i; fmt_x j; fmt_x k]%string
                   true))) >>
  np_random_seed 515 >>
  for_each files (fun name =>
    p <- lift (create_four_level_path name) ;;
    arr <- random_record size ;;
    np_save p (NpyF32 arr)).

(** *** The memmap layout *)

(** The array object [np.memmap] returns: the file it maps and its
    declared shape. The file holds raw float32 values, row-major, with no
    header; the shape is not stored in it. *)
Record memmap := { mm_path : path; mm_rows : Z; mm_cols : Z }.

Definition memmap_path : path := ["cache"; "memmap"; "arr.npy"]%string.

Definition f32_zero : spec_float := S754_zero false.

(** [np.memmap] on a shape that has a negative dimension or no element,
    as the numpy 1.x releases the script was written for behave.  The
    length handed to [mmap] is [rows * cols * 4] bytes.  A negative length
    is refused with [OverflowError]; length 0 asks for the whole file,
    which [mmap] refuses with [ValueError] when the file is empty; and the
    array constructor refuses a negative dimension with [ValueError].
    Under ["r"] an empty shape over a block that holds something is
    mapped.  Under ["w+"] the file has just been truncated, so it is empty
    unless the length is positive (both dimensions negative), in which
    case it has been extended before the constructor raises. *)
Definition map_unusual_read (mm : memmap) (f : file) (rows cols : Z)
  : M memmap :=
  if rows * cols <? 0 then raise OverflowError
  else if (rows <? 0) || (cols <? 0) then raise ValueError
  else match f with
       | RawF32 [] => raise ValueError
       | RawF32 (_ :: _) => ret mm
       | _ => raise ValueError
       end.

Definition map_unusual_write (p : path) (rows cols : Z) : M memmap :=
  if rows * cols <? 0 then raise OverflowError
  else if rows * cols =? 0 then raise ValueError
  else
    (fun w =>
       (Ok tt,
        write_file p (RawF32 (repeat f32_zero (Z.to_nat (rows * cols)))) w)) >>
    raise ValueError.

(** [np.memmap(p, mode=..., order="C", dtype="float32", shape=(rows, cols))].
    The file is opened first (and truncated under ["w+"]).  For a shape
    with positive dimensions: under ["w+"] the file is then sized to
    [rows * cols] zeros; under ["r"] mapping [rows * cols] values fails
    with [ValueError] when the file holds fewer.  The other shapes are
    those of [map_unusual_read] and [map_unusual_write].  A file that holds
    an [.npy] array is never at this path in a run of the script; the
    model rejects it. *)
Definition np_memmap (p : path) (mode : mmap_mode) (rows cols : Z)
  : M memmap :=
  let mm := {| mm_path := p; mm_rows := rows; mm_cols := cols |} in
  emit (EvMemmapOpen p mode rows cols) >>
  match mode with
  | ModeWritePlus =>
      open_for_write p >>
      (fun w => (Ok tt, write_file p (RawF32 []) w)) >>
      if (rows <? 0) || (cols <? 0) || (rows * cols =? 0)
      then map_unusual_write p rows cols
      else fun w =>
        (Ok mm,
         write_file p (RawF32 (repeat f32_zero (Z.to_nat (rows * cols)))) w)
  | ModeRead =>
      f <- open_for_read p ;;
      if (rows <? 0) || (cols <? 0) || (rows * cols =? 0)
      then map_unusual_read mm f rows cols
      else match f with
           | RawF32 xs =>
               if Z.of_nat (List.length xs) <? rows * cols
               then raise ValueError
               else ret mm
           | _ => raise ValueError
           end
  end.

(** Row [i] of a block seen with [cols] columns. *)
Definition block_row (xs : list spec_float) (cols i : Z)
  : list spec_float :=
  firstn (Z.to_nat cols) (skipn (Z.to_nat (i * cols)) xs).

Definition block_set_row (xs : list spec_float) (cols i : Z)
    (row : list spec_float) : list spec_float :=
  firstn (Z.to_nat (i * cols)) xs ++ row
    ++ skipn (Z.to_nat ((i + 1) * cols)) xs.

(** Index normalisation of [arr[i]]: negative indices count from the
    end; out of range is an [IndexError]. *)
Definition row_index (mm : memmap) (i : Z) : result Z :=
  let i' := if i <? 0 then i + mm_rows mm else i in
  if (i' <? 0) || (mm_rows mm <=? i') then Raise IndexError else Ok i'.

(** [arr[i] = row]: the row must have [cols] elements (or one, which is
    broadcast). *)
Definition memmap_store (mm : memmap) (i : Z) (row : list spec_float)
  : M unit :=
  emit (EvMemmapStore (mm_path mm) i row) >>
  i' <- lift (row_index mm i) ;;
  row' <- (if Z.of_nat (List.length row) =? mm_cols mm then ret row
           else match row with
                | [x] => ret (repeat x (Z.to_nat (mm_cols mm)))
                | _ => raise ValueError
                end) ;;
  fun w => match files w !! mm_path mm with
           | Some (RawF32 xs) =>
               (Ok tt, write_file (mm_path mm)
                         (RawF32 (block_set_row xs (mm_cols mm) i' row')) w)
           | _ => (Ok tt, w)
           end.

(** [arr[i]] *)
Definition memmap_fetch (mm : memmap) (i : Z) : M (list spec_float) :=
  emit (EvMemmapFetch (mm_path mm) i) >>
  i' <- lift (row_index mm i) ;;
  fun w => match files w !! mm_path mm with
           | Some (RawF32 xs) => (Ok (block_row xs (mm_cols mm) i'), w)
           | _ => (Ok [], w)
           end.

(** [arr.flush()] *)
Definition memmap_flush (mm : memmap) : M unit :=
  emit (EvMemmapFlush (mm_path mm)).

Definition create_files_memmap (size : Z) : M unit :=
  path_mkdir ["cache"; "memmap"]%string false >>
  files <- load_filelist ;;
  arr <- np_memmap memmap_path ModeWritePlus
           (Z.of_nat (List.length files)) size ;;
  np_random_seed 515 >>
  for_each (range (List.length files)) (fun i =>
    xs <- np_random_random_n size ;;
    memmap_store arr i (List.map Float.to_float32 xs)) >>
  memmap_flush arr.

(** *** The read passes *)

(** [for x in xs: out.append(f(x))], returning [out]. *)
Fixpoint for_collect {A B} (xs : list A) (f : A -> M B) : M (list B) :=
  match xs with
  | [] => ret []
  | x :: xs' => y <- f x ;; ys <- for_collect xs' f ;; ret (y :: ys)
  end.

(** [np.mean(np.load(p))] *)
Definition mean_of_file (p : path) : M spec_float :=
  f <- np_load p ;;
  match f with
  | NpyF32 xs => ret (mean32 xs)
  | NpyStr _ => raise TypeError
  | RawF32 _ => raise ValueError
  end.

Definition np_max (xs : list spec_float) : M spec_float :=
  match xs with [] => raise ValueError | _ => ret (amax32 xs) end.
Definition np_min (xs : list spec_float) : M spec_float :=
  match xs with [] => raise ValueError | _ => ret (amin32 xs) end.

(** [print(np.max(means), np.mean(means), np.min(means))] followed by the
    "Took ..." line. *)
Definition report (means : list spec_float) : M unit :=
  mx <- np_max means ;;
  mn <- np_min means ;;
  emit (EvPrint (MsgStats mx (mean32 means) mn)) >>
  emit (EvPrint MsgTook).

Definition test_flat (size : Z) : M unit :=
  emit (EvPrint (MsgText "Testing flat structure...")) >>
  files <- load_filelist ;;
  np_random_seed 515 >>
  files <- np_random_shuffle files ;;
  means <- for_collect files
             (fun name => mean_of_file (test_flat_path name)) ;;
  report means.

Definition test_two_level (size : Z) : M unit :=
  emit (EvPrint (MsgText "Testing two-level structure...")) >>
  files <- load_filelist ;;
  np_random_seed 515 >>
  files <- np_random_shuffle files ;;
  means <- for_collect files
             (fun name => mean_of_file (test_two_level_path name)) ;;
  report means.

Definition test_four_level (size : Z) : M unit :=
  emit (EvPrint (MsgText "Testing four-level structure...")) >>
  files <- load_filelist ;;
  np_random_seed 515 >>
  files <- np_random_shuffle files ;;
  means <- for_collect files (fun name =>
             p <- lift (test_four_level_path name) ;;
             mean_of_file p) ;;
  report means.

Definition test_memmap (size : Z) : M unit :=
  files <- load_filelist ;;
  arr <- np_memmap memmap_path ModeRead
           (Z.of_nat (List.length files)) size ;;
  np_random_seed 515 >>
  idx <- np_random_shuffle (range (List.length files)) ;;
  means <- for_collect idx (fun i =>
             row <- memmap_fetch arr i ;;
             ret (mean32 row)) ;;
  report means.

(** *** The command dispatch *)

(** [int(v)] on what [eval] returned. *)
Definition py_int (v : pyval) : result Z :=
  match v with
  | PyInt z => Ok z
  | PyFloat x => Float.to_int x
  | PyStr s => int_of_str s
  | PyOther => Raise TypeError
  end.

(** [int(arguments["--size"])]; the entry is [None] when the option is
    absent. *)
Definition size_argument (a : arguments) : M Z :=
  match arg_size a with
  | None => raise TypeError
  | Some s => lift (int_of_str s)
  end.

Definition main (a : arguments) : M unit :=
  emit (EvPrint (MsgArguments a)) >>
  if arg_init a then
    match arg_COUNT a with
    | None => raise TypeError
    | Some c =>
        v <- eval c ;;
        n <- lift (py_int v) ;;
        create_filelist n
    end
  else if arg_create a then
    if arg_flat a then size <- size_argument a ;; create_files_flat size
    else if arg_two_level a then
      size <- size_argument a ;; create_files_two_level size
    else if arg_four_level a then
      size <- size_argument a ;; create_files_four_level size
    else size <- size_argument a ;; create_files_memmap size
  else if arg_test a then
    if arg_flat a then size <- size_argument a ;; test_flat size
    else if arg_two_level a then
      size <- size_argument a ;; test_two_level size
    else if arg_four_level a then
      size <- size_argument a ;; test_four_level size
    else size <- size_argument a ;; test_memmap size
  else ret tt.

(** Running the script with already parsed arguments: the module-level
    [Path("cache").mkdir(exist_ok=True)] of line 24 comes before the
    [__main__] block. *)
Definition script (a : arguments) : M unit :=
  path_mkdir ["cache"]%string false >> main a.

End Program.

(** ** Replaying a create pass on the generator alone *)

Section Replay.
Context `{RS : RandomState}.

(** One evaluation of the record expression from generator state [s]:
    the length draw [u] and the float32 content, or the exception. *)
Definition next_record (size : Z) (s : rk_state)
  : result (spec_float * list spec_float) * rk_state :=
  let (u, s1) := rk_double s in
  match record_length u size with
  | Raise e => (Raise e, s1)
  | Ok n =>
      if n <? 0 then (Raise ValueError, s1)
      else let (xs, s2) := draws (Z.to_nat n) s1 in
           (Ok (u, List.map Float.to_float32 xs), s2)
  end.

(** The first [n] records from state [s], each with its length draw. *)
Fixpoint records (size : Z) (n : nat) (s : rk_state)
  : list (spec_float * list spec_float) * rk_state :=
  match n with
  | O => ([], s)
  | S n' =>
      match next_record size s with
      | (Ok r, s1) => let (rs, s2) := records size n' s1 in (r :: rs, s2)
      | (Raise _, s1) => ([], s1)
      end
  end.

(** The first [n] rows of the memmap create pass from state [s]. *)
Fixpoint memmap_rows (size : Z) (n : nat) (s : rk_state)
  : list (list spec_float) * rk_state :=
  match n with
  | O => ([], s)
  | S n' =>
      let (xs, s1) := draws (Z.to_nat size) s in
      let (rows, s2) := memmap_rows size n' s1 in
      (List.map Float.to_float32 xs :: rows, s2)
  end.

End Replay.

(** ** Reading the log *)

Definition saved (evs : list event) : list (path * file) :=
  flat_map (fun e => match e with EvSave p d => [(p, d)] | _ => [] end) evs.

Definition loaded (evs : list event) : list path :=
  flat_map (fun e => match e with EvLoad p => [p] | _ => [] end) evs.

Definition stored_rows (evs : list event) : list (Z * list spec_float) :=
  flat_map (fun e => match e with
                     | EvMemmapStore _ i row => [(i, row)]
                     | _ => []
                     end) evs.

Definition fetched_rows (evs : list event) : list Z :=
  flat_map (fun e => match e with EvMemmapFetch _ i => [i] | _ => [] end) evs.

Definition printed (evs : list event) : list message :=
  flat_map (fun e => match e with EvPrint m => [m] | _ => [] end) evs.

Definition is_store (e : event) : bool :=
  match e with EvMemmapStore _ _ _ => true | _ => false end.

Definition is_flush (e : event) : bool :=
  match e with EvMemmapFlush _ => true | _ => false end.

(** An effect that reaches outside the process: everything except
    printing. *)
Definition touches_disk (e : event) : bool :=
  match e with EvPrint _ => false | _ => true end.

(** ** Well-formed states *)

Definition npy_path (p : path) : bool :=
  has_npy_suffix (List.last p EmptyString).

(** Successive writes into a directory listing. *)
Definition write_all (m : gmap (list string) file)
    (ws : list (path * file)) : gmap (list string) file :=
  foldl (fun m pf => <[fst pf := snd pf]> m) m ws.

Section States.
Context `{RS : RandomState} `{US : UuidSource}.

(** Directories and [.npy] files are told apart by their names, as in
    every state the script produces from an empty working directory. *)
Definition fs_typed (w : world) : Prop :=
  (forall p, p ∈ dirs w -> npy_path p = false) /\
  (forall p f, files w !! p = Some f -> npy_path p = true).

(** The state [create] and [test] expect: the cache directory exists and
    the identifier list [init] persisted is [names]. *)
Record ready (w : world) (names : list string) : Prop := {
  ready_cache : ["cache"%string] ∈ dirs w;
  ready_typed : fs_typed w;
  ready_filelist : files w !! filelist_path = Some (NpyStr names);
  ready_ids : Forall (fun name => is_identifier name = true) names
}.

(** [np.load(p)] finds the float32 array [xs]. *)
Definition readable (w : world) (p : path) (xs : list spec_float) : Prop :=
  resolve_parent w p = None /\ is_dir w p = false /\
  files w !! p = Some (NpyF32 xs).

(** The float32 array stored at [p] (empty when there is none). *)
Definition stored (w : world) (p : path) : list spec_float :=
  match files w !! p with
  | Some (NpyF32 xs) => xs
  | _ => []
  end.

(** The raw block stored at [p]. *)
Definition block (w : world) (p : path) : list spec_float :=
  match files w !! p with
  | Some (RawF32 xs) => xs
  | _ => []
  end.

End States.

(** ** Comparing a dyadic number with an integer *)

Module Dyadic.

(** [m * 2^e <= N] and [N <= m * 2^e], in integers. *)
Definition le (m e N : Z) : Prop :=
  m * 2 ^ Z.max e 0 <= N * 2 ^ Z.max (- e) 0.
Definition ge (m e N : Z) : Prop :=
  N * 2 ^ Z.max (- e) 0 <= m * 2 ^ Z.max e 0.

(** A non-negative float whose value lies in [[lo, hi]]. *)
Definition between (x : spec_float) (lo hi : Z) : Prop :=
  match x with
  | S754_zero false => lo <= 0 <= hi
  | S754_finite false m e => ge (Z.pos m) e lo /\ le (Z.pos m) e hi
  | _ => False
  end.

End Dyadic.

(** ** The four-level location in the specification's words *)

(** Three single-character directory levels taken from the last three
    characters in reversed order: level 1 is the last character, level 2
    the second-to-last, level 3 the third-to-last. *)
Definition four_level_spec (name : string) : option path :=
  match rev (list_ascii_of_string name) with
  | c1 :: c2 :: c3 :: _ =>
      Some ["cache"; "4level"; String c1 EmptyString; String c2 EmptyString;
            String c3 EmptyString; (name ++ ".npy")]%string
  | _ => None
  end.

(** The location of an identifier in the four-level layout; the empty path
    stands for "no location" (fewer than three characters). *)
Definition four_level_place (name : string) : path :=
  match four_level_spec name with
  | Some p => p
  | None => []
  end.

(** A leaf directory of the four-level tree, as the bootstrap names it. *)
Definition leaf (i j k : Z) : path :=
  ["cache"; "4level"; fmt_x i; fmt_x j; fmt_x k]%string.

(** The number of binary digits of a positive number. *)
Lemma digits2_pos_bounds m :
  2 ^ (Z.pos (digits2_pos m) - 1) <= Z.pos m < 2 ^ Z.pos (digits2_pos m).
Proof.
  induction m as [m IH|m IH|]; cbn [digits2_pos].
  - rewrite Pos2Z.inj_succ, (Pos2Z.inj_xI m).
    replace (Z.succ (Z.pos (digits2_pos m)) - 1)
      with (Z.succ (Z.pos (digits2_pos m) - 1)) by lia.
    rewrite !Z.pow_succ_r by lia. lia.
  - rewrite Pos2Z.inj_succ, (Pos2Z.inj_xO m).
    replace (Z.succ (Z.pos (digits2_pos m)) - 1)
      with (Z.succ (Z.pos (digits2_pos m) - 1)) by lia.
    rewrite !Z.pow_succ_r by lia. lia.
  - vm_compute. split; [discriminate | reflexivity].
Qed.

(** ** Small instances of the library interfaces, for running examples *)

Module Examples.

(** A generator that replays a table of doubles cyclically; the seed is
    the starting position. Integer draws come from the position. *)
Lemma forallb_nth {A} (f : A -> bool) (l : list A) (d : A) (i : nat) :
  forallb f l = true -> f d = true -> f (nth i l d) = true.
Proof.
  intros Hl Hd. destruct (nth_in_or_default i l d) as [Hin | ->]; [|exact Hd].
  rewrite forallb_forall in Hl. exact (Hl _ Hin).
Qed.

Lemma mod_interval (a max : Z) : 0 <= max -> 0 <= a mod (max + 1) <= max.
Proof. intros H. pose proof (Z.mod_pos_bound a (max + 1)). lia. Qed.

Definition replay_random_state (table : list spec_float)
    (Htable : forallb Float.in_unit table = true) : RandomState :=
  {| rk_state := nat;
     rk_seed := fun z => Z.abs_nat z;
     rk_double := fun s =>
       (nth (s mod List.length table)%nat table (S754_zero false), S s);
     rk_interval := fun max s => ((Z.of_nat s * 7 + 3) mod (max + 1), S s);
     rk_double_unit := fun s =>
       forallb_nth Float.in_unit table (S754_zero false) _ Htable eq_refl;
     rk_interval_bound := fun max s H => mod_interval _ max H |}.

(** A few doubles of the unit interval: 0.5, 0.25, 0.75 and 0.125. *)
Definition unit_table : list spec_float :=
  [ S754_finite false 4503599627370496 (-53);
    S754_finite false 4503599627370496 (-54);
    S754_finite false 6755399441055744 (-53);
    S754_finite false 4503599627370496 (-55) ].

Definition table_random_state : RandomState :=
  replay_random_state unit_table eq_refl.

(** The largest double below 1, [1 - 2^-53]. *)
Definition largest_unit : spec_float :=
  S754_finite false 9007199254740991 (-53).

(** A generator of the interface whose every draw is [largest_unit]: the
    extreme case for bounds on the written values.  It is not the sequence
    numpy produces (that is [MT19937.random_state] below). *)
Definition largest_random_state : RandomState :=
  replay_random_state [largest_unit] eq_refl.

(** An entropy source that walks through the 128-bit integers. *)
Lemma mod_range (a : Z) : 0 <= a mod 2 ^ 128 < 2 ^ 128.
Proof. apply Z.mod_pos_bound. reflexivity. Qed.

Definition counter_uuid_source : UuidSource :=
  {| os_state := Z;
     uuid4 := fun s =>
       ((s * 210306068529402873165736369884012333109 + 12345) mod 2 ^ 128,
        s + 1);
     uuid4_range := fun s => mod_range _ |}.

(** Reductions in float32 by a plain left-to-right pass. *)
Definition sum32 (xs : list spec_float) : spec_float :=
  fold_left (SFadd 24 128) xs (S754_zero false).

Definition pick32 (better : spec_float -> spec_float -> bool)
    (xs : list spec_float) : spec_float :=
  match xs with
  | [] => S754_nan
  | x :: xs' => fold_left (fun a b => if better b a then b else a) xs' x
  end.

Definition simple_stats : NumpyStats :=
  {| mean32 := fun xs =>
       SFdiv 24 128 (sum32 xs)
         (binary_normalize 24 128 (Z.of_nat (List.length xs)) 0 false);
     amax32 := pick32 (fun b a => SFltb a b);
     amin32 := pick32 (fun b a => SFltb b a) |}.

(** An evaluator for the two literal forms used below: unsigned decimal
    integers and [<digits>e<digits>] floats. Any other text is reported as
    an evaluation error, which is what Python does for undefined names
    and malformed text but not for expressions in general. *)
Definition digit_value (c : ascii) : option Z :=
  let n := Z.of_nat (nat_of_ascii c) in
  if (48 <=? n) && (n <=? 57) then Some (n - 48) else None.

Fixpoint digits_value (acc : Z) (cs : list ascii) : option Z :=
  match cs with
  | [] => Some acc
  | c :: cs' =>
      match digit_value c with
      | Some d => digits_value (10 * acc + d) cs'
      | None => None
      end
  end.

Definition number_of (cs : list ascii) : option Z :=
  match cs with [] => None | _ => digits_value 0 cs end.

Fixpoint split_at_e (cs : list ascii) : option (list ascii * list ascii) :=
  match cs with
  | [] => None
  | c :: cs' =>
      if Ascii.eqb c "e" then Some ([], cs')
      else match split_at_e cs' with
           | Some (a, b) => Some (c :: a, b)
           | None => None
           end
  end.

Definition literal_eval (s : string) : result pyval :=
  let cs := list_ascii_of_string s in
  match split_at_e cs with
  | None =>
      match cs, number_of cs with
      | "0"%char :: _ :: _, Some 0 => Ok (PyInt 0)
      | "0"%char :: _ :: _, _ => Raise (EvalError s)
      | _, Some v => Ok (PyInt v)
      | _, None => Raise (EvalError s)
      end
  | Some (mant, ex) =>
      match number_of mant, number_of ex with
      | Some m, Some e =>
          Ok (PyFloat (binary_normalize 53 1024 (m * 10 ^ e) 0 false))
      | _, _ => Raise (EvalError s)
      end
  end.

Definition literal_int (s : string) : result Z :=
  match number_of (list_ascii_of_string s) with
  | Some v => Ok v
  | None => Raise ValueError
  end.

Definition literal_builtins : PyEval :=
  {| eval := fun _ _ s w => (literal_eval s, w); int_of_str := literal_int |}.

(** The same evaluator with one expression that has an effect:
    [create_filelist(3) or 1/0] calls the module's function, which writes
    the identifier list and returns [None], and then divides by zero. *)
Definition namespace_builtins : PyEval :=
  {| eval := fun (RS : RandomState) (US : UuidSource) s w =>
       if String.eqb s "create_filelist(3) or 1/0"
       then bind (create_filelist 3)
                 (fun _ => raise (EvalError "division by zero")) w
       else (literal_eval s, w);
     int_of_str := literal_int |}.

(** Two identifiers and states around them. *)
Definition id_a : string := uuid_hex 2748.
Definition id_b : string := uuid_hex 51966.

Definition fresh_world (RS : RandomState) : @world RS counter_uuid_source :=
  @Build_world RS counter_uuid_source ∅ ∅ (rk_seed 0) 0 [].

Definition listed_world (RS : RandomState) (names : list string)
  : @world RS counter_uuid_source :=
  @Build_world RS counter_uuid_source
    {[ ["cache"%string] ]} {[ filelist_path := NpyStr names ]}
    (rk_seed 0) 0 [].

Definition init_arguments (count : string) : arguments :=
  {| arg_init := true; arg_create := false; arg_test := false;
     arg_flat := false; arg_two_level := false; arg_four_level := false;
     arg_memmap := false; arg_COUNT := Some count; arg_size := None |}.

End Examples.

(** ** numpy's generator

    The legacy [RandomState] of numpy is the Mersenne Twister MT19937:
    624 words of 32 bits and a position.  [np.random.seed(s)] fills the
    words by the linear recurrence of [init_genrand]; a 32-bit output
    tempers the next word, regenerating all words when they are used up;
    [random_sample] makes a double from two outputs, keeping 27 and 26
    bits; [rk_interval] masks outputs and rejects those above the
    bound. *)

Module MT19937.

Record state := { key : list Z; pos : nat }.

Fixpoint init_genrand (n : nat) (i seed : Z) : list Z :=
  match n with
  | O => []
  | S n' =>
      seed ::
      init_genrand n' (i + 1)
        (Z.land (1812433253 * Z.lxor seed (Z.shiftr seed 30) + i + 1)
                4294967295)
  end.

Definition seed (s : Z) : state :=
  {| key := init_genrand 624 0 (Z.land s 4294967295); pos := 624 |}.














End MT19937.


(** ** What a create pass leaves behind *)

(** What one record is: its length draw is a double of the unit interval,
    its length is [int(10 + u * 5 * size)] in double precision, and that
    lies in [[10, 10 + 5 * size]]. *)
Definition well_sized (size : Z) (r : spec_float * list spec_float) : Prop :=
  Float.in_unit (fst r) = true /\
  record_length (fst r) size = Ok (Z.of_nat (List.length (snd r))) /\
  10 <= Z.of_nat (List.length (snd r)) <= 10 + 5 * size.

(** The preparation steps of a pass: making directories and loading the
    identifier list. *)
Definition is_setup (e : event) : bool :=
  match e with
  | EvMkdir _ | EvLoad _ => true
  | _ => false
  end.

Definition save_event (pf : path * file) : event := EvSave (fst pf) (snd pf).

Section Outcomes.
Context `{RS : RandomState} `{US : UuidSource}.

(** [w'] is [w] after preparation steps only: no file written, both
    generators untouched, directories added but none with a [.npy] name. *)
Definition grows (w w' : world) : Prop :=
  files w' = files w /\ np_random w' = np_random w /\
  os_entropy w' = os_entropy w /\ dirs w ⊆ dirs w' /\
  (forall q, q ∈ dirs w' -> q ∈ dirs w \/ npy_path q = false) /\
  exists evs, log w' = log w ++ evs /\ Forall (fun e => is_setup e = true) evs.

(** The arrays a per-file create pass writes for [n] identifiers. *)
Definition generated (size : Z) (n : nat) : list (spec_float * list spec_float) :=
  fst (records size n (rk_seed 515)).

(** The writes of a per-file create pass with location function [P]. *)
Definition writes (P : string -> path) (size : Z) (names : list string)
  : list (path * file) :=
  combine (List.map P names)
          (List.map (fun r => NpyF32 (snd r))
                    (generated size (List.length names))).

(** The outcome of a per-file create pass from [w]: after the preparation
    steps, exactly the [writes], in the persisted order. *)
Definition created (P : string -> path) (size : Z) (names : list string)
    (w w' : world) : Prop :=
  List.length (generated size (List.length names)) = List.length names /\
  files w' = write_all (files w) (writes P size names) /\
  dirs w ⊆ dirs w' /\ ready w' names /\
  (forall name, name ∈ names -> resolve_parent w' (P name) = None) /\
  os_entropy w' = os_entropy w /\
  exists setup,
    log w' = log w ++ setup ++ List.map save_event (writes P size names) /\
    Forall (fun e => is_setup e = true) setup.

End Outcomes.

Section MoreOutcomes.
Context `{RS : RandomState} `{US : UuidSource}.

Definition log_events (evs : list event) (w : world) : world :=
  {| dirs := dirs w; files := files w; np_random := np_random w;
     os_entropy := os_entropy w; log := log w ++ evs |}.

(** The rows a memmap create pass writes for [n] identifiers. *)
Definition generated_rows (size : Z) (n : nat) : list (list spec_float) :=
  fst (memmap_rows size n (rk_seed 515)).

End MoreOutcomes.

Definition store_event (ir : Z * list spec_float) : event :=
  EvMemmapStore memmap_path (fst ir) (snd ir).

Definition memmap_dir : path := ["cache"; "memmap"]%string.

(** ** What a read pass does *)

Section ReadOutcomes.
Context `{RS : RandomState} `{US : UuidSource} `{NS : NumpyStats}.

(** The order in which a read pass visits a sequence: the shuffle of the
    freshly reseeded generator. *)
Definition access_order {A} (l : list A) : list A :=
  fst (shuffle l (rk_seed 515)).

Definition stats_event (means : list spec_float) : event :=
  EvPrint (MsgStats (amax32 means) (mean32 means) (amin32 means)).

(** The outcome of a per-file read pass with location function [P] from
    [w]: the list is loaded, every record is loaded once in the access
    order, and the statistics of the per-record means are printed. *)
Definition tested (P : string -> path) (banner : list event)
    (names : list string) (w w' : world) : Prop :=
  let order := access_order names in
  let means := List.map (fun name => mean32 (stored w (P name))) order in
  files w' = files w /\ dirs w' = dirs w /\
  log w' = log w ++ banner ++ [EvLoad filelist_path] ++
           List.map EvLoad (List.map P order) ++
           [stats_event means; EvPrint MsgTook].

(** The outcome of the memmap read pass from [w] with [size] columns. *)
Definition tested_memmap (size : Z) (names : list string)
    (w w' : world) : Prop :=
  let n := List.length names in
  let order := access_order (range n) in
  let means :=
    List.map (fun i => mean32 (block_row (block w memmap_path) size i))
             order in
  files w' = files w /\ dirs w' = dirs w /\
  log w' = log w ++
           [EvLoad filelist_path;
            EvMemmapOpen memmap_path ModeRead (Z.of_nat n) size] ++
           List.map (EvMemmapFetch memmap_path) order ++
           [stats_event means; EvPrint MsgTook].

End ReadOutcomes.

(** ** The three per-file layouts, by name *)

Inductive layout := Flat | TwoLevel | FourLevel.

Section Layouts.
Context `{RS : RandomState} `{US : UuidSource} `{NS : NumpyStats}.

Definition create_files (l : layout) : Z -> M unit :=
  match l with
  | Flat => create_files_flat
  | TwoLevel => create_files_two_level
  | FourLevel => create_files_four_level
  end.

Definition test_files (l : layout) : Z -> M unit :=
  match l with
  | Flat => test_flat
  | TwoLevel => test_two_level
  | FourLevel => test_four_level
  end.

(** Where the create function of a layout puts an identifier. *)
Definition create_location (l : layout) (name : string) : path :=
  match l with
  | Flat => create_flat_path name
  | TwoLevel => create_two_level_path name
  | FourLevel => four_level_place name
  end.

(** Where the test function of a layout looks for an identifier. *)
Definition test_location (l : layout) (name : string) : path :=
  match l with
  | Flat => test_flat_path name
  | TwoLevel => test_two_level_path name
  | FourLevel => four_level_place name
  end.

Definition banner_message (l : layout) : message :=
  MsgText match l with
          | Flat => "Testing flat structure..."
          | TwoLevel => "Testing two-level structure..."
          | FourLevel => "Testing four-level structure..."
          end.

Definition banner (l : layout) : event := EvPrint (banner_message l).

(** The effects a computation adds to the log all satisfy [Q], whatever
    the starting state and whether it returns or raises. *)
Definition adds {A} (Q : event -> bool) (m : M A) : Prop :=
  forall w, exists evs,
    log (snd (m w)) = log w ++ evs /\ forallb Q evs = true.

End Layouts.

(** ** The start of an [init] run *)

Section InitStart.
Context `{RS : RandomState} `{US : UuidSource}.

(** The state in which [init] reaches [eval]: the module-level [mkdir] of
    the cache directory and the [print] of the parsed arguments are
    done. *)
Definition before_eval (a : arguments) (w : world) : world :=
  log_event (EvPrint (MsgArguments a))
    (add_dir ["cache"%string] (log_event (EvMkdir ["cache"%string]) w)).

End InitStart.

(** ** What every step of a computation keeps *)

Section Keeping.
Context `{RS : RandomState} `{US : UuidSource}.

(** [m] relates every starting state to the state it ends in, whether it
    returns or raises. *)
Definition keeps {A} (R : world -> world -> Prop) (m : M A) : Prop :=
  forall w, R w (snd (m w)).

(** Nothing on disk changed, and no operating-system entropy was used. *)
Definition same_store (w w' : world) : Prop :=
  files w' = files w /\ dirs w' = dirs w /\ os_entropy w' = os_entropy w.

(** Files changed only where [F] holds, directories were only added, and
    only where [D] holds. *)
Definition touched (F D : path -> Prop) (w w' : world) : Prop :=
  (forall p, ~ F p -> files w' !! p = files w !! p) /\
  dirs w ⊆ dirs w' /\
  (forall p, p ∈ dirs w' -> p ∈ dirs w \/ D p).

End Keeping.

(** The directory a layout keeps its records in. *)
Definition layout_dir (l : layout) : path :=
  match l with
  | Flat => ["cache"; "flat"]
  | TwoLevel => ["cache"; "2level"]
  | FourLevel => ["cache"; "4level"]
  end%string.

(** The directories the create pass of a layout makes: its own directory
    and its buckets; with [parents=True] (four-level) every directory on
    the way to a leaf. *)
Definition layout_dirs (l : layout) (q : path) : Prop :=
  match l with
  | Flat => q = layout_dir Flat
  | TwoLevel =>
      q = layout_dir TwoLevel \/
      exists i, 0 <= i < 16 ^ 3 /\ q = ["cache"; "2level"; fmt_03x i]%string
  | FourLevel =>
      q <> [] /\
      exists i j k, 0 <= i < 16 /\ 0 <= j < 16 /\ 0 <= k < 16 /\
                    q `prefix_of` leaf i j k
  end.

(** ** Commands *)

(** The dictionary of a [create] or [test] command line: [create] tells
    the two apart, [t] is the per-file layout or [None] for [memmap], and
    [size] is the [--size] entry. *)
Definition command_arguments (create : bool) (t : option layout)
    (size : option string) : arguments :=
  {| arg_init := false; arg_create := create; arg_test := negb create;
     arg_flat := match t with Some Flat => true | _ => false end;
     arg_two_level := match t with Some TwoLevel => true | _ => false end;
     arg_four_level := match t with Some FourLevel => true | _ => false end;
     arg_memmap := match t with None => true | _ => false end;
     arg_COUNT := None; arg_size := size |}.

Section Passes.
Context `{RS : RandomState} `{US : UuidSource} `{NS : NumpyStats}.

(** The function a command names. *)
Definition pass (create : bool) (t : option layout) (size : Z) : M unit :=
  match create, t with
  | true, Some l => create_files l size
  | true, None => create_files_memmap size
  | false, Some l => test_files l size
  | false, None => test_memmap size
  end.

End Passes.

(** ** The means of a read pass *)

Section PassMeans.
Context `{RS : RandomState} `{US : UuidSource} `{NS : NumpyStats}.

(** The per-record means a read pass takes on the store [w], in the order
    of the pass: one per identifier ([t] a per-file layout) or one per row
    of the block ([t = None], the memmap layout). *)
Definition record_means (t : option layout) (size : Z)
    (names : list string) (w : world) : list spec_float :=
  match t with
  | Some l =>
      List.map (fun name => mean32 (stored w (test_location l name)))
               (access_order names)
  | None =>
      List.map (fun i => mean32 (block_row (block w memmap_path) size i))
               (access_order (range (List.length names)))
  end.

End PassMeans.

(** * Properties *)

(** ** Rounding to binary64, bounded by integers

    [binary_round_aux] shifts the mantissa right until it has at most 53
    bits, rounds to nearest-even on the bits shifted out and renormalises.
    The lemmas below follow that computation and show that rounding never
    crosses an integer below [2^53]: a value in [[lo, hi]] rounds into
    [[lo, hi]]. *)

Lemma iter_pos_nat {A} (f : A -> A) p x :
  SpecFloat.iter_pos f p x = Nat.iter (Pos.to_nat p) f x.
Proof.
  revert x. induction p as [p IH|p IH|]; intros x; cbn [SpecFloat.iter_pos].
  - rewrite !IH. rewrite Pos2Nat.inj_xI.
    replace (S (2 * Pos.to_nat p))%nat with (Pos.to_nat p + (Pos.to_nat p + 1))%nat by lia.
    rewrite !Nat.iter_add. reflexivity.
  - rewrite !IH. rewrite Pos2Nat.inj_xO.
    replace (2 * Pos.to_nat p)%nat with (Pos.to_nat p + Pos.to_nat p)%nat by lia.
    rewrite Nat.iter_add. reflexivity.
  - reflexivity.
Qed.

Lemma shr_1_spec m r s :
  0 <= m ->
  shr_1 {| shr_m := m; shr_r := r; shr_s := s |} =
  {| shr_m := m / 2; shr_r := Z.odd m; shr_s := r || s |}.
Proof.
  intros Hm. destruct m as [|p|p]; [reflexivity| |lia].
  destruct p as [p|p|]; cbn [shr_1 Z.odd].
  - replace (Z.pos p~1 / 2) with (Z.pos p); [reflexivity|].
    rewrite Pos2Z.inj_xI. apply Z.div_unique with 1; lia.
  - replace (Z.pos p~0 / 2) with (Z.pos p); [reflexivity|].
    rewrite Pos2Z.inj_xO. apply Z.div_unique with 0; lia.
  - reflexivity.
Qed.

Lemma shr_iter_spec k m r s :
  0 <= m ->
  exists s',
    Nat.iter (S k) shr_1 {| shr_m := m; shr_r := r; shr_s := s |} =
    {| shr_m := m / 2 ^ Z.of_nat (S k);
       shr_r := Z.testbit m (Z.of_nat k);
       shr_s := s' |}.
Proof.
  intros Hm. induction k as [|k [s' IH]].
  - exists (r || s)%bool. cbn [Nat.iter nat_rect]. rewrite shr_1_spec by lia.
    rewrite Z.bit0_odd. reflexivity.
  - rewrite Nat.iter_succ, IH.
    assert (0 <= m / 2 ^ Z.of_nat (S k))
      by (apply Z.div_pos; [lia | apply Z.pow_pos_nonneg; lia]).
    rewrite shr_1_spec by assumption.
    eexists. f_equal.
    + rewrite Z.div_div by (try apply Z.pow_pos_nonneg; lia).
      f_equal. rewrite (Nat2Z.inj_succ (S k)). rewrite Z.pow_succ_r by lia. lia.
    + rewrite <- Z.bit0_odd, Z.div_pow2_bits by lia. f_equal; lia.
Qed.

Lemma shr_spec m e p :
  0 <= m ->
  exists s',
    shr {| shr_m := m; shr_r := false; shr_s := false |} e (Z.pos p) =
    ({| shr_m := m / 2 ^ Z.pos p;
        shr_r := Z.testbit m (Z.pos p - 1);
        shr_s := s' |}, e + Z.pos p).
Proof.
  intros Hm. unfold shr. rewrite iter_pos_nat.
  destruct (Pos2Nat.is_succ p) as [k Hk]. rewrite Hk.
  assert (HS : Z.of_nat (S k) = Z.pos p)
    by (rewrite <- Hk; apply positive_nat_Z).
  destruct (shr_iter_spec k m false false Hm) as [s' ->].
  exists s'. rewrite HS. replace (Z.of_nat k) with (Z.pos p - 1) by lia.
  reflexivity.
Qed.

Lemma pow2_pos k : 0 <= k -> 0 < 2 ^ k.
Proof. intros. apply Z.pow_pos_nonneg; lia. Qed.

Lemma pow2_split a b : 0 <= a -> 0 <= b -> 2 ^ (a + b) = 2 ^ a * 2 ^ b.
Proof. intros. apply Z.pow_add_r; lia. Qed.

Lemma dyadic_le_iff m e N k :
  0 <= k -> 0 <= e + k ->
  Dyadic.le m e N <-> m * 2 ^ (e + k) <= N * 2 ^ k.
Proof.
  intros Hk Hek. unfold Dyadic.le.
  remember (Z.max (- e) 0) as k0 eqn:Hk0.
  replace (Z.max e 0) with (e + k0) by lia.
  replace (e + k) with ((e + k0) + (k - k0)) by lia.
  replace k with (k0 + (k - k0)) at 2 by lia.
  rewrite (pow2_split (e + k0) (k - k0)), (pow2_split k0 (k - k0)) by lia.
  pose proof (pow2_pos (k - k0) ltac:(lia)).
  rewrite !Z.mul_assoc. split; intros Hle.
  - apply Z.mul_le_mono_nonneg_r; lia.
  - apply Z.mul_le_mono_pos_r in Hle; lia.
Qed.

Lemma dyadic_ge_iff m e N k :
  0 <= k -> 0 <= e + k ->
  Dyadic.ge m e N <-> N * 2 ^ k <= m * 2 ^ (e + k).
Proof.
  intros Hk Hek. unfold Dyadic.ge.
  remember (Z.max (- e) 0) as k0 eqn:Hk0.
  replace (Z.max e 0) with (e + k0) by lia.
  replace (e + k) with ((e + k0) + (k - k0)) by lia.
  replace k with (k0 + (k - k0)) at 1 by lia.
  rewrite (pow2_split (e + k0) (k - k0)), (pow2_split k0 (k - k0)) by lia.
  pose proof (pow2_pos (k - k0) ltac:(lia)).
  rewrite !Z.mul_assoc. split; intros Hle.
  - apply Z.mul_le_mono_nonneg_r; lia.
  - apply Z.mul_le_mono_pos_r in Hle; lia.
Qed.


Lemma round_choice q r s :
  let m1 := round_nearest_even q
              (loc_of_shr_record {| shr_m := q; shr_r := r; shr_s := s |}) in
  q <= m1 <= q + 1 /\ (r = false -> m1 = q).
Proof.
  destruct r, s; cbn; try destruct (Z.even q); split; intros; try lia; try discriminate.
Qed.

Lemma renorm m1 e1 :
  0 < m1 <= 2 ^ 53 -> -1074 <= e1 ->
  exists m2 e2,
    shr_fexp 53 1024 m1 e1 loc_Exact =
      ({| shr_m := m2; shr_r := false; shr_s := false |}, e2) /\
    0 < m2 /\ (e2 = e1 /\ m2 = m1 \/ e2 = e1 + 1 /\ m1 = 2 * m2).
Proof.
  intros [Hpos Hle] He. destruct m1 as [|p|p]; try lia.
  unfold shr_fexp, shr_record_of_loc, Zdigits2, fexp, emin.
  pose proof (digits2_pos_bounds p) as [Hd _].
  destruct (Z.eq_dec (Z.pos p) (2 ^ 53)) as [E|NE].
  - assert (Hp : p = 9007199254740992%positive)
      by (apply Pos2Z.inj; rewrite E; reflexivity).
    subst p. clear E Hd Hle Hpos. exists (2 ^ 52), (e1 + 1).
    replace (Z.max (Z.pos (digits2_pos 9007199254740992) + e1 - 53) (3 - 1024 - 53) - e1)
      with 1 by (cbn [digits2_pos Pos.succ]; lia).
    cbn. split; [reflexivity|]. split; [lia|]. right; lia.
  - assert (Z.pos (digits2_pos p) - 1 < 53).
    { apply (Z.pow_lt_mono_r_iff 2); lia. }
    exists (Z.pos p), e1.
    destruct (Z.max (Z.pos (digits2_pos p) + e1 - 53) (3 - 1024 - 53) - e1) eqn:En;
      try lia; cbn [shr]; (split; [reflexivity|]); (split; [lia|]); left; lia.
Qed.

Lemma digits_exponent_le m e hi :
  hi < 2 ^ 53 -> Dyadic.le (Z.pos m) e hi ->
  Z.pos (digits2_pos m) + e <= 53.
Proof.
  intros Hhi Hle.
  pose proof (digits2_pos_bounds m) as [Hd _].
  set (d := Z.pos (digits2_pos m)) in *.
  destruct (Z.le_gt_cases (d + e) 53) as [|Hgt]; [assumption|exfalso].
  apply (dyadic_le_iff _ _ _ (Z.max (- e) 0)) in Hle; try lia.
  remember (Z.max (- e) 0) as k eqn:Hk.
  pose proof (pow2_pos k ltac:(lia)).
  assert (2 ^ (d - 1) * 2 ^ (e + k) <= Z.pos m * 2 ^ (e + k))
    by (apply Z.mul_le_mono_nonneg_r; [apply Z.lt_le_incl, pow2_pos|]; lia).
  rewrite <- pow2_split in * by lia.
  assert (hi * 2 ^ k < 2 ^ 53 * 2 ^ k) by (apply Z.mul_lt_mono_pos_r; lia).
  rewrite <- pow2_split in * by lia.
  assert (2 ^ (53 + k) <= 2 ^ (d - 1 + (e + k)))
    by (apply Z.pow_le_mono_r; lia).
  lia.
Qed.

Lemma stage1 m e mrs e1 :
  shr_fexp 53 1024 (Z.pos m) e loc_Exact = (mrs, e1) ->
  let m1 := round_nearest_even (shr_m mrs) (loc_of_shr_record mrs) in
  let t := Z.max (Z.pos (digits2_pos m) + e - 53) (-1074) in
  (t <= e /\ e1 = e /\ m1 = Z.pos m) \/
  (e < t /\ e1 = t /\
   let q := Z.pos m / 2 ^ (t - e) in
   q <= m1 <= q + 1 /\
   (Z.testbit (Z.pos m) (t - e - 1) = false -> m1 = q)).
Proof.
  unfold shr_fexp, shr_record_of_loc, Zdigits2, fexp, emin.
  change (3 - 1024 - 53) with (-1074).
  intros Hs. cbv zeta.
  remember (Z.max (Z.pos (digits2_pos m) + e - 53) (-1074)) as t eqn:Ht.
  destruct (t - e) as [|p|p] eqn:En.
  - left. cbn [shr] in Hs. injection Hs as <- <-. cbn. lia.
  - right. destruct (shr_spec (Z.pos m) e p ltac:(lia)) as [s' Hsp].
    rewrite Hsp in Hs. injection Hs as <- <-. cbn [shr_m].
    split; [lia|]. split; [lia|].
    apply round_choice.
  - left. cbn [shr] in Hs. injection Hs as <- <-. cbn. lia.
Qed.

Lemma round_aux_between m e lo hi :
  0 <= lo -> hi < 2 ^ 53 ->
  Dyadic.ge (Z.pos m) e lo -> Dyadic.le (Z.pos m) e hi ->
  Dyadic.between (binary_round_aux 53 1024 false (Z.pos m) e loc_Exact) lo hi.
Proof.
  intros Hlo Hhi Hge Hle.
  pose proof (digits_exponent_le m e hi Hhi Hle) as Hde.
  pose proof (digits2_pos_bounds m) as [Hd1 Hd2].
  unfold binary_round_aux.
  destruct (shr_fexp 53 1024 (Z.pos m) e loc_Exact) as [mrs e1] eqn:E1.
  apply stage1 in E1. cbv zeta in E1.
  set (m1 := round_nearest_even (shr_m mrs) (loc_of_shr_record mrs)) in *.
  set (d := Z.pos (digits2_pos m)) in *.
  remember (Z.max (d + e - 53) (-1074)) as t eqn:Ht.
  change (1024 - 53) with 971.
  destruct E1 as [(Hte & -> & Hm1)|(Hte & -> & Hq & Hr)].
  - (* the mantissa fits: no rounding *)
    assert (Hm53 : 0 < m1 <= 2 ^ 53).
    { rewrite Hm1. split; [lia|]. apply Z.lt_le_incl.
      apply Z.lt_le_trans with (2 ^ d); [lia|]. apply Z.pow_le_mono_r; lia. }
    destruct (renorm m1 e Hm53 ltac:(lia)) as (m2 & e2 & -> & Hm2 & Hcase).
    cbn [shr_m]. destruct m2 as [|m2|m2]; try lia.
    destruct Hcase as [[-> E]|[-> E]].
    + replace (e <=? 971) with true by lia.
      cbn [Dyadic.between]. rewrite E, Hm1. split; assumption.
    + replace (e + 1 <=? 971) with true by lia.
      rewrite Hm1 in E. rewrite E in Hge, Hle. cbn [Dyadic.between]. split.
      * apply (dyadic_ge_iff _ _ _ (Z.max (- e) 0 + 1)); try lia.
        apply (dyadic_ge_iff _ _ _ (Z.max (- e) 0 + 1)) in Hge; try lia.
        replace (e + 1 + (Z.max (- e) 0 + 1))
          with (Z.succ (e + (Z.max (- e) 0 + 1))) by lia.
        rewrite Z.pow_succ_r by lia. lia.
      * apply (dyadic_le_iff _ _ _ (Z.max (- e) 0 + 1)); try lia.
        apply (dyadic_le_iff _ _ _ (Z.max (- e) 0 + 1)) in Hle; try lia.
        replace (e + 1 + (Z.max (- e) 0 + 1))
          with (Z.succ (e + (Z.max (- e) 0 + 1))) by lia.
        rewrite Z.pow_succ_r by lia. lia.
  - (* the mantissa is shifted right by [t - e] bits and rounded *)
    set (q := Z.pos m / 2 ^ (t - e)) in *.
    pose proof (pow2_pos (t - e) ltac:(lia)) as Hpp.
    assert (Hqdef : 2 ^ (t - e) * q <= Z.pos m < 2 ^ (t - e) * (q + 1)).
    { unfold q. pose proof (Z.mul_div_le (Z.pos m) (2 ^ (t - e)) Hpp).
      pose proof (Z.mul_succ_div_gt (Z.pos m) (2 ^ (t - e)) Hpp). lia. }
    assert (Htle : t <= 0) by lia.
    assert (Htge : -1074 <= t) by lia.
    apply (dyadic_ge_iff _ _ _ (- e)) in Hge; try lia.
    apply (dyadic_le_iff _ _ _ (- e)) in Hle; try lia.
    replace (e + - e) with 0 in Hge, Hle by lia.
    replace (- e) with (- t + (t - e)) in Hge, Hle by lia.
    rewrite pow2_split in Hge, Hle by lia.
    rewrite Z.pow_0_r, Z.mul_1_r in Hge, Hle.
    pose proof (pow2_pos (- t) ltac:(lia)) as Hpe.
    assert (Hlo1 : lo * 2 ^ (- t) <= m1).
    { assert (lo * 2 ^ (- t) < q + 1); [|lia].
      apply (Z.mul_lt_mono_pos_l (2 ^ (t - e))); lia. }
    assert (Hhi1 : m1 <= hi * 2 ^ (- t)).
    { assert (Hqk : q <= hi * 2 ^ (- t)).
      { apply (Z.mul_le_mono_pos_l _ _ (2 ^ (t - e))); lia. }
      destruct (Z.eq_dec q (hi * 2 ^ (- t))) as [Eq|]; [|lia].
      assert (Hexact : Z.pos m = 2 ^ (t - e) * q) by (rewrite Eq in *; lia).
      rewrite Hr; [lia|].
      rewrite Hexact, Z.mul_comm, Z.mul_pow2_bits_low by lia.
      reflexivity. }
    assert (Hm1le : m1 <= 2 ^ 53).
    { assert (q < 2 ^ 53); [|lia].
      apply (Z.mul_lt_mono_pos_l (2 ^ (t - e))); [lia|].
      apply Z.le_lt_trans with (Z.pos m); [lia|].
      apply Z.lt_le_trans with (2 ^ d); [lia|].
      rewrite <- pow2_split by lia. apply Z.pow_le_mono_r; lia. }
    assert (Hq0 : 0 <= q) by (apply Z.div_pos; lia).
    destruct (Z.eq_dec m1 0) as [Hz|Hnz].
    + rewrite Hz. unfold shr_fexp, shr_record_of_loc, Zdigits2, fexp, emin.
      destruct (Z.max (0 + t - 53) (3 - 1024 - 53) - t) eqn:En2; try lia;
        cbn [shr shr_m]; cbn [Dyadic.between]; nia.
    + destruct (renorm m1 t ltac:(lia) ltac:(lia))
        as (m2 & e2 & -> & Hm2 & Hcase).
      cbn [shr_m]. destruct m2 as [|m2|m2]; try lia.
      destruct Hcase as [[-> E]|[-> E]].
      * replace (t <=? 971) with true by lia. cbn [Dyadic.between]. split.
        -- apply (dyadic_ge_iff _ _ _ (- t)); try lia.
           replace (t + - t) with 0 by lia. lia.
        -- apply (dyadic_le_iff _ _ _ (- t)); try lia.
           replace (t + - t) with 0 by lia. lia.
      * replace (t + 1 <=? 971) with true by lia. cbn [Dyadic.between]. split.
        -- apply (dyadic_ge_iff _ _ _ (- t + 1)); try lia.
           replace (t + 1 + (- t + 1)) with 2 by lia.
           rewrite pow2_split by lia. lia.
        -- apply (dyadic_le_iff _ _ _ (- t + 1)); try lia.
           replace (t + 1 + (- t + 1)) with 2 by lia.
           rewrite pow2_split by lia. lia.
Qed.

Lemma between_weaken x lo hi lo' hi' :
  Dyadic.between x lo hi -> lo' <= lo -> hi <= hi' -> Dyadic.between x lo' hi'.
Proof.
  destruct x as [[|]|[|]| |[|] m e]; cbn [Dyadic.between]; try tauto; try lia.
  intros [Hge Hle] Hlo Hhi. unfold Dyadic.ge, Dyadic.le in *.
  pose proof (pow2_pos (Z.max (- e) 0) ltac:(lia)). split; nia.
Qed.

Lemma between_order x lo hi : Dyadic.between x lo hi -> lo <= hi.
Proof.
  destruct x as [[|]|[|]| |[|] m e]; cbn [Dyadic.between]; try tauto; try lia.
  intros [Hge Hle]. unfold Dyadic.ge, Dyadic.le in *.
  pose proof (pow2_pos (Z.max (- e) 0) ltac:(lia)). nia.
Qed.

Lemma iter_xO_spec mx d : Z.pos (Pos.iter xO mx d) = Z.pos mx * 2 ^ Z.pos d.
Proof.
  rewrite Pos2Nat.inj_iter, <- (positive_nat_Z d).
  induction (Pos.to_nat d) as [|n IH].
  - change (Z.of_nat 0) with 0. rewrite Z.pow_0_r. cbn [Nat.iter nat_rect]. lia.
  - cbn [Nat.iter nat_rect].
    rewrite Pos2Z.inj_xO, IH, Nat2Z.inj_succ, Z.pow_succ_r by lia. lia.
Qed.

Lemma shl_align_spec mx ex ex' :
  exists sh, 0 <= sh /\
    Z.pos (fst (shl_align mx ex ex')) = Z.pos mx * 2 ^ sh /\
    snd (shl_align mx ex ex') = ex - sh.
Proof.
  unfold shl_align. destruct (ex' - ex) as [|p|p] eqn:E.
  - exists 0. cbn [fst snd]. rewrite Z.pow_0_r. lia.
  - exists 0. cbn [fst snd]. rewrite Z.pow_0_r. lia.
  - exists (Z.pos p). cbn [fst snd]. rewrite iter_xO_spec. lia.
Qed.

Lemma dyadic_le_shl m e sh N :
  0 <= sh -> Dyadic.le m e N -> Dyadic.le (m * 2 ^ sh) (e - sh) N.
Proof.
  intros Hsh H.
  apply (dyadic_le_iff _ _ _ (Z.max (- e) 0 + sh)); try lia.
  apply (dyadic_le_iff _ _ _ (Z.max (- e) 0 + sh)) in H; try lia.
  replace (e + (Z.max (- e) 0 + sh)) with (sh + (e - sh + (Z.max (- e) 0 + sh))) in H by lia.
  rewrite (pow2_split sh) in H by lia. lia.
Qed.

Lemma dyadic_ge_shl m e sh N :
  0 <= sh -> Dyadic.ge m e N -> Dyadic.ge (m * 2 ^ sh) (e - sh) N.
Proof.
  intros Hsh H.
  apply (dyadic_ge_iff _ _ _ (Z.max (- e) 0 + sh)); try lia.
  apply (dyadic_ge_iff _ _ _ (Z.max (- e) 0 + sh)) in H; try lia.
  replace (e + (Z.max (- e) 0 + sh)) with (sh + (e - sh + (Z.max (- e) 0 + sh))) in H by lia.
  rewrite (pow2_split sh) in H by lia. lia.
Qed.

(** Rounding a positive dyadic [m * 2^e] given with any exponent. *)
Lemma binary_round_between m e lo hi :
  0 <= lo -> hi < 2 ^ 53 ->
  Dyadic.ge (Z.pos m) e lo -> Dyadic.le (Z.pos m) e hi ->
  Dyadic.between (binary_round 53 1024 false m e) lo hi.
Proof.
  intros Hlo Hhi Hge Hle. unfold binary_round.
  destruct (shl_align_spec m e (fexp 53 1024 (Z.pos (digits2_pos m) + e)))
    as (sh & Hsh & Hm & He).
  destruct (shl_align m e _) as [mz ez]. cbn [fst snd] in Hm, He.
  apply round_aux_between; try assumption; rewrite Hm, He.
  - apply dyadic_ge_shl; assumption.
  - apply dyadic_le_shl; assumption.
Qed.

Lemma mul64_between x y a b c d :
  Dyadic.between x a b -> Dyadic.between y c d -> 0 <= a -> 0 <= c -> b * d < 2 ^ 53 ->
  Dyadic.between (SFmul 53 1024 x y) (a * c) (b * d).
Proof.
  intros Hx Hy Ha Hc Hbd.
  pose proof (between_order _ _ _ Hx). pose proof (between_order _ _ _ Hy).
  destruct x as [[|]|[|]| |[|] mx ex]; cbn [Dyadic.between] in Hx; try tauto;
  destruct y as [[|]|[|]| |[|] my ey]; cbn [Dyadic.between] in Hy; try tauto;
    cbn [SFmul xorb Dyadic.between]; try nia.
  destruct Hx as [Hxg Hxl], Hy as [Hyg Hyl].
  apply round_aux_between; try nia.
  - apply (dyadic_ge_iff _ _ _ (Z.max (- ex) 0 + Z.max (- ey) 0)); try lia.
    unfold Dyadic.ge in *.
    replace (ex + ey + (Z.max (- ex) 0 + Z.max (- ey) 0))
      with (Z.max ex 0 + Z.max ey 0) by lia.
    rewrite !pow2_split by lia. rewrite Pos2Z.inj_mul.
    pose proof (pow2_pos (Z.max (- ex) 0) ltac:(lia)).
    pose proof (pow2_pos (Z.max (- ey) 0) ltac:(lia)).
    pose proof (pow2_pos (Z.max ex 0) ltac:(lia)).
    pose proof (pow2_pos (Z.max ey 0) ltac:(lia)).
    assert (0 <= a * 2 ^ Z.max (- ex) 0) as Ha' by nia.
    assert (0 <= c * 2 ^ Z.max (- ey) 0) as Hc' by nia.
    pose proof (Z.mul_le_mono_nonneg _ _ _ _ Ha' Hxg Hc' Hyg).
    lia.
  - apply (dyadic_le_iff _ _ _ (Z.max (- ex) 0 + Z.max (- ey) 0)); try lia.
    unfold Dyadic.le in *.
    replace (ex + ey + (Z.max (- ex) 0 + Z.max (- ey) 0))
      with (Z.max ex 0 + Z.max ey 0) by lia.
    rewrite !pow2_split by lia. rewrite Pos2Z.inj_mul.
    pose proof (pow2_pos (Z.max (- ex) 0) ltac:(lia)).
    pose proof (pow2_pos (Z.max (- ey) 0) ltac:(lia)).
    pose proof (pow2_pos (Z.max ex 0) ltac:(lia)).
    pose proof (pow2_pos (Z.max ey 0) ltac:(lia)).
    assert (0 <= Z.pos mx * 2 ^ Z.max ex 0) as Ha' by nia.
    assert (0 <= Z.pos my * 2 ^ Z.max ey 0) as Hc' by nia.
    pose proof (Z.mul_le_mono_nonneg _ _ _ _ Ha' Hxl Hc' Hyl).
    lia.
Qed.

Lemma shl_align_le mx ex ex' :
  ex' <= ex ->
  Z.pos (fst (shl_align mx ex ex')) = Z.pos mx * 2 ^ (ex - ex').
Proof.
  intros Hle. unfold shl_align. destruct (ex' - ex) as [|p|p] eqn:E; try lia.
  - cbn [fst]. replace (ex - ex') with 0 by lia. rewrite Z.pow_0_r. lia.
  - cbn [fst]. rewrite iter_xO_spec. f_equal. f_equal. lia.
Qed.

Lemma dyadic_ge_align m e e' N :
  e' <= e -> Dyadic.ge m e N -> Dyadic.ge (m * 2 ^ (e - e')) e' N.
Proof.
  intros He H. replace e' with (e - (e - e')) at 2 by lia.
  apply dyadic_ge_shl; [lia | assumption].
Qed.

Lemma dyadic_le_align m e e' N :
  e' <= e -> Dyadic.le m e N -> Dyadic.le (m * 2 ^ (e - e')) e' N.
Proof.
  intros He H. replace e' with (e - (e - e')) at 2 by lia.
  apply dyadic_le_shl; [lia | assumption].
Qed.

Lemma add64_between x y a b c d :
  Dyadic.between x a b -> Dyadic.between y c d -> 0 <= a -> 0 <= c -> b + d < 2 ^ 53 ->
  Dyadic.between (SFadd 53 1024 x y) (a + c) (b + d).
Proof.
  intros Hx Hy Ha Hc Hbd.
  pose proof (between_order _ _ _ Hx). pose proof (between_order _ _ _ Hy).
  destruct x as [[|]|[|]| |[|] mx ex]; cbn [Dyadic.between] in Hx; try tauto;
  destruct y as [[|]|[|]| |[|] my ey]; cbn [Dyadic.between] in Hy; try tauto;
    cbn [SFadd].
  - cbn [Dyadic.between]. lia.
  - apply between_weaken with c d; [exact Hy | lia | lia].
  - apply between_weaken with a b; [exact Hx | lia | lia].
  - destruct Hx as [Hxg Hxl], Hy as [Hyg Hyl].
    cbn [cond_Zopp].
    set (ez := Z.min ex ey).
    pose proof (shl_align_le mx ex ez ltac:(lia)) as Hmx.
    pose proof (shl_align_le my ey ez ltac:(lia)) as Hmy.
    destruct (shl_align mx ex ez) as [mx' ex'].
    destruct (shl_align my ey ez) as [my' ey'].
    cbn [fst] in *. rewrite <- Pos2Z.inj_add. cbn [binary_normalize].
    apply (dyadic_ge_align _ _ ez) in Hxg, Hyg; try lia.
    apply (dyadic_le_align _ _ ez) in Hxl, Hyl; try lia.
    rewrite <- Hmx in Hxg, Hxl. rewrite <- Hmy in Hyg, Hyl.
    apply binary_round_between; try lia; rewrite Pos2Z.inj_add.
    + unfold Dyadic.ge in *. lia.
    + unfold Dyadic.le in *. lia.
Qed.

Lemma normalize_exact z :
  0 <= z < 2 ^ 53 -> Dyadic.between (binary_normalize 53 1024 z 0 false) z z.
Proof.
  intros Hz. destruct z as [|p|p]; try lia.
  - cbn. lia.
  - cbn [binary_normalize]. apply binary_round_between; try lia.
    + unfold Dyadic.ge. change (Z.max (- 0) 0) with 0.
      change (Z.max 0 0) with 0. lia.
    + unfold Dyadic.le. change (Z.max (- 0) 0) with 0.
      change (Z.max 0 0) with 0. lia.
Qed.

Lemma to_int_between x lo hi :
  Dyadic.between x lo hi ->
  exists n,
    match x with
    | S754_zero _ => n = 0
    | S754_finite s m e =>
        n = cond_Zopp s (if 0 <=? e then Z.pos m * 2 ^ e
                         else Z.pos m / 2 ^ (- e))
    | _ => False
    end /\ lo <= n <= hi.
Proof.
  destruct x as [[|]|[|]| |[|] m e]; cbn [Dyadic.between]; try tauto.
  - intros H. exists 0. split; [reflexivity | lia].
  - intros [Hge Hle]. eexists. split; [reflexivity|]. cbn [cond_Zopp].
    unfold Dyadic.ge, Dyadic.le in *.
    destruct (0 <=? e) eqn:Ee.
    + replace (Z.max e 0) with e in * by lia.
      replace (Z.max (- e) 0) with 0 in * by lia.
      rewrite Z.pow_0_r in *. lia.
    + replace (Z.max e 0) with 0 in * by lia.
      replace (Z.max (- e) 0) with (- e) in * by lia.
      rewrite Z.pow_0_r in *.
      pose proof (pow2_pos (- e) ltac:(lia)). split.
      * apply Z.div_le_lower_bound; lia.
      * apply Z.div_le_upper_bound; lia.
Qed.

Lemma float_to_int_between x lo hi :
  Dyadic.between x lo hi ->
  exists n, Float.to_int x = Ok n /\ lo <= n <= hi.
Proof.
  intros H. destruct (to_int_between x lo hi H) as (n & Hn & Hb).
  exists n. split; [|exact Hb].
  destruct x as [s|s| |s m e]; try contradiction; cbn [Float.to_int];
    congruence.
Qed.

Lemma in_unit_between u : Float.in_unit u = true -> Dyadic.between u 0 1.
Proof.
  destruct u as [[|]|[|]| |[|] m e]; cbn [Float.in_unit Dyadic.between];
    try discriminate; [lia|].
  intros H. apply andb_prop in H as [H Hm]. apply andb_prop in H as [_ He].
  apply Z.ltb_lt in Hm, He.
  unfold Dyadic.ge, Dyadic.le.
  replace (Z.max e 0) with 0 by lia. replace (Z.max (- e) 0) with (- e) by lia.
  rewrite Z.pow_0_r. pose proof (pow2_pos (- e) ltac:(lia)). lia.
Qed.

(** The length of a record, computed in double precision, stays within the
    closed interval [[10, 10 + 5 * size]]. *)
Lemma record_length_bounds u size :
  Float.in_unit u = true -> 0 <= size < 2 ^ 50 ->
  exists n, record_length u size = Ok n /\ 10 <= n <= 10 + 5 * size.
Proof.
  intros Hu Hsize. unfold record_length, Float.of_int, Float.lit.
  assert (Hs : Dyadic.between (binary_normalize 53 1024 size 0 false) size size)
    by (apply normalize_exact; lia).
  assert (H5 : Dyadic.between (binary_normalize 53 1024 5 0 false) 5 5)
    by (apply normalize_exact; lia).
  assert (H10 : Dyadic.between (binary_normalize 53 1024 10 0 false) 10 10)
    by (apply normalize_exact; lia).
  apply in_unit_between in Hu.
  set (fsize := binary_normalize 53 1024 size 0 false) in *.
  assert (Ha : Dyadic.between
                 (Float.mul64 u (binary_normalize 53 1024 5 0 false))
                 (0 * 5) (1 * 5))
    by (apply mul64_between; try assumption; lia).
  assert (Hb : Dyadic.between
                 (Float.mul64
                    (Float.mul64 u (binary_normalize 53 1024 5 0 false)) fsize)
                 (0 * 5 * size) (1 * 5 * size))
    by (apply mul64_between; try assumption; lia).
  assert (Hc : Dyadic.between
                 (Float.add64 (binary_normalize 53 1024 10 0 false)
                    (Float.mul64
                       (Float.mul64 u (binary_normalize 53 1024 5 0 false))
                       fsize))
                 (10 + 0 * 5 * size) (10 + 1 * 5 * size))
    by (apply add64_between; try assumption; lia).
  destruct (float_to_int_between _ _ _ Hc) as (n & Hn & Hbn).
  exists n. split; [|lia].
  destruct fsize as [s|s| |s m e] eqn:Ef; try exact Hn.
  destruct s; contradiction.
Qed.

(** ** Running the primitives *)

Section Facts.
Context `{RS : RandomState} `{US : UuidSource} `{NS : NumpyStats}
        `{PE : PyEval}.

Implicit Types (w : world) (p q : list string) (names : list string).

Lemma bind_ok {A B} (m : M A) (k : A -> M B) w a w' :
  m w = (Ok a, w') -> bind m k w = k a w'.
Proof. unfold bind. intros ->. reflexivity. Qed.

Lemma bind_raise {A B} (m : M A) (k : A -> M B) w e w' :
  m w = (Raise e, w') -> bind m k w = (Raise e, w').
Proof. unfold bind. intros ->. reflexivity. Qed.

Lemma is_dir_true w p : is_dir w p = true <-> p = [] \/ p ∈ dirs w.
Proof. unfold is_dir. apply bool_decide_eq_true. Qed.

Lemma is_dir_elem w p : p ∈ dirs w -> is_dir w p = true.
Proof. intros H. apply is_dir_true. right. exact H. Qed.

Lemma is_file_false w p : files w !! p = None -> is_file w p = false.
Proof.
  intros H. unfold is_file. apply bool_decide_eq_false. rewrite H.
  intros [x Hx]. discriminate.
Qed.

Lemma npy_path_nil : npy_path [] = false.
Proof. reflexivity. Qed.

Lemma typed_not_dir w p : fs_typed w -> npy_path p = true -> is_dir w p = false.
Proof.
  intros [Hd _] Hp. unfold is_dir. apply bool_decide_eq_false.
  intros [-> | Hin]; [discriminate|]. apply Hd in Hin. congruence.
Qed.

Lemma typed_not_file w p :
  fs_typed w -> npy_path p = false -> is_file w p = false.
Proof.
  intros [_ Hf] Hp. unfold is_file. apply bool_decide_eq_false.
  intros [f Hlook]. apply Hf in Hlook. congruence.
Qed.

(** A successful resolution only looks at directories. *)
Lemma walk_mono w w' seen rest :
  (forall q, is_dir w q = true -> is_dir w' q = true) ->
  walk w seen rest = None -> walk w' seen rest = None.
Proof.
  intros Hmono. revert seen. induction rest as [|c rest IH]; intros seen.
  - reflexivity.
  - cbn [walk]. destruct (is_dir w (seen ++ [c])) eqn:Hd.
    + rewrite (Hmono _ Hd). apply IH.
    + destruct (is_file w (seen ++ [c])); discriminate.
Qed.

Lemma resolve_parent_mono w w' p :
  dirs w ⊆ dirs w' ->
  resolve_parent w p = None -> resolve_parent w' p = None.
Proof.
  intros Hsub. apply walk_mono. intros q Hq.
  apply is_dir_true in Hq. apply is_dir_true.
  destruct Hq as [-> | Hq]; [left; reflexivity | right; apply Hsub, Hq].
Qed.

Lemma walk_ext w w' seen rest :
  dirs w = dirs w' -> files w = files w' ->
  walk w seen rest = walk w' seen rest.
Proof.
  intros Hd Hf. revert seen. induction rest as [|c rest IH]; intros seen.
  - reflexivity.
  - cbn [walk]. unfold is_dir, is_file. rewrite Hd, Hf, IH. reflexivity.
Qed.

Lemma resolve_parent_ext w w' p :
  dirs w = dirs w' -> files w = files w' ->
  resolve_parent w p = resolve_parent w' p.
Proof. apply walk_ext. Qed.

Lemma add_dir_known p w : p ∈ dirs w -> add_dir p w = w.
Proof.
  intros Hin. destruct w as [d f r o l]. unfold add_dir. cbn in *.
  f_equal. apply leibniz_equiv. apply subseteq_union_1.
  apply singleton_subseteq_l. exact Hin.
Qed.

(** [Path(p).mkdir(exist_ok=True)] on a path that is not a regular file and
    whose parent resolves. *)
Lemma path_mkdir_ok p w :
  p <> [] -> resolve_parent w p = None -> is_file w p = false ->
  path_mkdir p false w = (Ok tt, add_dir p (log_event (EvMkdir p) w)).
Proof.
  intros Hne Hres Hfile. unfold path_mkdir.
  rewrite (bind_ok _ _ w tt (log_event (EvMkdir p) w)) by reflexivity.
  unfold mkdir_no_parents, os_mkdir.
  rewrite (resolve_parent_ext (log_event (EvMkdir p) w) w p) by reflexivity.
  change (is_dir (log_event (EvMkdir p) w) p) with (is_dir w p).
  change (is_file (log_event (EvMkdir p) w) p) with (is_file w p).
  rewrite Hres, Hfile. destruct (is_dir w p) eqn:Hd; cbn [orb].
  - change (is_dir (log_event (EvMkdir p) w) p) with (is_dir w p).
    rewrite Hd. apply is_dir_true in Hd as [-> | Hin]; [contradiction|].
    rewrite add_dir_known; [reflexivity | exact Hin].
  - reflexivity.
Qed.

Lemma np_save_ok p d w :
  resolve_parent w p = None -> is_dir w p = false ->
  np_save p d w = (Ok tt, write_file p d (log_event (EvSave p d) w)).
Proof.
  intros Hres Hd. unfold np_save.
  rewrite (bind_ok _ _ w tt (log_event (EvSave p d) w)) by reflexivity.
  unfold bind, open_for_write.
  rewrite (resolve_parent_ext (log_event (EvSave p d) w) w p) by reflexivity.
  change (is_dir (log_event (EvSave p d) w) p) with (is_dir w p).
  rewrite Hres, Hd. reflexivity.
Qed.

Lemma np_load_ok p f w :
  resolve_parent w p = None -> is_dir w p = false -> files w !! p = Some f ->
  np_load p w = (Ok f, log_event (EvLoad p) w).
Proof.
  intros Hres Hd Hf. unfold np_load.
  rewrite (bind_ok _ _ w tt (log_event (EvLoad p) w)) by reflexivity.
  unfold open_for_read.
  rewrite (resolve_parent_ext (log_event (EvLoad p) w) w p) by reflexivity.
  change (is_dir (log_event (EvLoad p) w) p) with (is_dir w p).
  change (files (log_event (EvLoad p) w)) with (files w).
  rewrite Hres, Hd, Hf. reflexivity.
Qed.

Lemma filelist_is_npy : npy_path filelist_path = true.
Proof. reflexivity. Qed.

Lemma resolve_in_cache w (c : string) :
  ["cache"%string] ∈ dirs w ->
  resolve_parent w ["cache"%string; c] = None.
Proof.
  intros Hc. unfold resolve_parent, parent. cbn [removelast walk app].
  rewrite (is_dir_elem _ _ Hc). reflexivity.
Qed.

Lemma load_filelist_ok w names :
  ready w names ->
  load_filelist w = (Ok names, log_event (EvLoad filelist_path) w).
Proof.
  intros [Hc Ht Hf _]. unfold load_filelist.
  rewrite (bind_ok _ _ w (NpyStr names) (log_event (EvLoad filelist_path) w)).
  - reflexivity.
  - apply np_load_ok; [apply resolve_in_cache, Hc | | exact Hf].
    apply typed_not_dir; [exact Ht | reflexivity].
Qed.

End Facts.

(** ** Identifiers *)

Lemma hex_digit_is_hex d : is_hex_char (hex_digit d) = true.
Proof.
  destruct d as [|p|p]; try reflexivity;
    repeat (destruct p as [p|p|]; try reflexivity).
Qed.

Lemma hex_fixed_length n v : List.length (hex_fixed n v) = n.
Proof.
  revert v. induction n as [|n IH]; intros v; cbn [hex_fixed].
  - reflexivity.
  - rewrite length_app, IH. cbn. lia.
Qed.

Lemma hex_fixed_chars n v : forallb is_hex_char (hex_fixed n v) = true.
Proof.
  revert v. induction n as [|n IH]; intros v; cbn [hex_fixed].
  - reflexivity.
  - rewrite forallb_app, IH. cbn [forallb]. rewrite hex_digit_is_hex.
    reflexivity.
Qed.

Lemma uuid_hex_is_identifier v : is_identifier (uuid_hex v) = true.
Proof.
  unfold is_identifier, uuid_hex. rewrite list_ascii_of_string_of_list_ascii.
  rewrite hex_fixed_length, hex_fixed_chars. reflexivity.
Qed.

Section Init.
Context `{RS : RandomState} `{US : UuidSource}.

Lemma uuid_hexes_spec k s :
  List.length (fst (uuid_hexes k s)) = k /\
  Forall (fun name => is_identifier name = true) (fst (uuid_hexes k s)).
Proof.
  revert s. induction k as [|k IH]; intros s; cbn [uuid_hexes].
  - split; [reflexivity | constructor].
  - destruct (uuid4 s) as [v s1]. specialize (IH s1).
    destruct (uuid_hexes k s1) as [names s2]. cbn [fst] in *.
    destruct IH as [IHl IHf]. split; [cbn; lia|].
    constructor; [apply uuid_hex_is_identifier | exact IHf].
Qed.

(** C1. [create_filelist n] persists the freshly generated identifiers
    (as many as [range(n)] has elements, all of them 32-character hex
    strings), then loads the persisted list back and compares its length
    with [n]: the run raises [AssertionError] (the specification's
    CountMismatch) exactly when the reloaded count differs from [n], and
    completes otherwise. For every count [n >= 0] the persisted list has
    [n] entries and the run completes; a negative [n] persists the empty
    list and trips the check. *)
Theorem create_filelist_self_check (w : world) (n : Z) :
  ["cache"%string] ∈ dirs w -> filelist_path ∉ dirs w ->
  exists names w',
    create_filelist n w =
      (if Z.of_nat (List.length names) =? n then Ok tt
       else Raise AssertionError, w') /\
    files w' !! filelist_path = Some (NpyStr names) /\
    List.length names = Z.to_nat n /\
    Forall (fun name => is_identifier name = true) names /\
    log w' = log w ++ [EvSave filelist_path (NpyStr names);
                       EvLoad filelist_path] /\
    (0 <= n -> Z.of_nat (List.length names) = n /\
               fst (create_filelist n w) = Ok tt) /\
    (n < 0 -> fst (create_filelist n w) = Raise AssertionError).
Proof.
  intros Hcache Hnodir.
  pose proof (uuid_hexes_spec (Z.to_nat n) (os_entropy w)) as [Hlen Hids].
  destruct (uuid_hexes (Z.to_nat n) (os_entropy w)) as [names s] eqn:Hgen.
  cbn [fst] in Hlen, Hids.
  set (w1 := set_entropy s w).
  set (w2 := write_file filelist_path (NpyStr names)
               (log_event (EvSave filelist_path (NpyStr names)) w1)).
  set (w3 := log_event (EvLoad filelist_path) w2).
  assert (Hnd : is_dir w filelist_path = false).
  { unfold is_dir. apply bool_decide_eq_false.
    intros [Hnil | Hin]; [discriminate | contradiction]. }
  assert (Hrun : create_filelist n w =
                 (if Z.of_nat (List.length names) =? n then Ok tt
                  else Raise AssertionError, w3)).
  { unfold create_filelist.
    rewrite (bind_ok _ _ w names w1)
      by (unfold fresh_identifiers; rewrite Hgen; reflexivity).
    rewrite (bind_ok _ _ w1 tt w2).
    2:{ apply np_save_ok; [apply resolve_in_cache, Hcache | exact Hnd]. }
    rewrite (bind_ok _ _ w2 (NpyStr names) w3).
    2:{ apply np_load_ok.
        - apply resolve_in_cache, Hcache.
        - exact Hnd.
        - apply lookup_insert_eq. }
    unfold py_assert. cbn [shape0].
    destruct (Z.of_nat (List.length names) =? n); reflexivity. }
  exists names, w3. split; [exact Hrun|].
  split; [apply lookup_insert_eq|].
  split; [exact Hlen|]. split; [exact Hids|].
  split; [cbn; rewrite <- app_assoc; reflexivity|].
  rewrite Hrun. cbn [fst]. split.
  - intros Hn. assert (Heq : Z.of_nat (List.length names) = n) by lia.
    split; [exact Heq|]. rewrite (proj2 (Z.eqb_eq _ _) Heq). reflexivity.
  - intros Hn.
    assert (Hneq : (Z.of_nat (List.length names) =? n) = false)
      by (apply Z.eqb_neq; lia).
    rewrite Hneq. reflexivity.
Qed.

End Init.

(** The self-check on a concrete run: three identifiers requested in a
    working directory that already has its cache directory. *)
Lemma create_filelist_self_check_witness :
  let w := Examples.listed_world Examples.table_random_state [] in
  (["cache"%string] ∈ dirs w) /\ (filelist_path ∉ dirs w) /\
  exists names w',
    create_filelist 3 w =
      (if Z.of_nat (List.length names) =? 3 then Ok tt
       else Raise AssertionError, w') /\
    files w' !! filelist_path = Some (NpyStr names) /\
    List.length names = Z.to_nat 3 /\
    Forall (fun name => is_identifier name = true) names /\
    log w' = log w ++ [EvSave filelist_path (NpyStr names);
                       EvLoad filelist_path] /\
    (0 <= 3 -> Z.of_nat (List.length names) = 3 /\
               fst (create_filelist 3 w) = Ok tt) /\
    (3 < 0 -> fst (create_filelist 3 w) = Raise AssertionError).
Proof.
  cbv zeta.
  assert (H1 : ["cache"%string] ∈
               dirs (Examples.listed_world Examples.table_random_state []))
    by (apply elem_of_singleton; reflexivity).
  assert (H2 : filelist_path ∉
               dirs (Examples.listed_world Examples.table_random_state []))
    by (intros H;
        pose proof (proj1 (elem_of_singleton (C := gset (list string))
                             filelist_path ["cache"%string]) H) as E;
        discriminate E).
  split; [exact H1|]. split; [exact H2|].
  exact (create_filelist_self_check _ 3 H1 H2).
Defined.

(** ** Generating records *)

Section Records.
Context `{RS : RandomState} `{US : UuidSource}.

Implicit Types (w : world).

Lemma draws_length n s : List.length (fst (draws n s)) = n.
Proof.
  revert s. induction n as [|n IH]; intros s; cbn [draws].
  - reflexivity.
  - destruct (rk_double s) as [x s1]. specialize (IH s1).
    destruct (draws n s1) as [xs s2]. cbn [fst] in *. cbn. lia.
Qed.

Lemma next_record_ok size s :
  0 <= size < 2 ^ 50 ->
  exists r s',
    next_record size s = (Ok r, s') /\ fst r = fst (rk_double s) /\
    well_sized size r.
Proof.
  intros Hsize. unfold next_record.
  pose proof (rk_double_unit s) as Hu.
  destruct (rk_double s) as [u s1]. cbn [fst] in Hu.
  destruct (record_length_bounds u size Hu Hsize) as (n & Hn & Hb).
  rewrite Hn. replace (n <? 0) with false by lia.
  pose proof (draws_length (Z.to_nat n) s1) as Hl.
  destruct (draws (Z.to_nat n) s1) as [xs s2]. cbn [fst] in Hl.
  eexists _, _. split; [reflexivity|]. split; [reflexivity|].
  unfold well_sized. cbn [fst snd]. rewrite length_map, Hl.
  rewrite Z2Nat.id by lia. auto.
Qed.

Lemma random_record_ok size w u arr s' :
  next_record size (np_random w) = (Ok (u, arr), s') ->
  random_record size w = (Ok arr, set_rng s' w).
Proof.
  unfold next_record, random_record, bind, np_random_random, lift.
  destruct (rk_double (np_random w)) as [u0 s1].
  destruct (record_length u0 size) as [n|e]; [|discriminate].
  unfold np_random_random_n. destruct (n <? 0); [discriminate|].
  change (np_random (set_rng s1 w)) with s1.
  destruct (draws (Z.to_nat n) s1) as [xs s2].
  intros H. injection H as <- <- <-. reflexivity.
Qed.

Lemma records_spec size n s :
  0 <= size < 2 ^ 50 ->
  List.length (fst (records size n s)) = n /\
  Forall (well_sized size) (fst (records size n s)).
Proof.
  intros Hsize. revert s. induction n as [|n IH]; intros s; cbn [records].
  - split; [reflexivity | constructor].
  - destruct (next_record_ok size s Hsize) as (r & s1 & -> & _ & Hr).
    specialize (IH s1). destruct (records size n s1) as [rs s2].
    cbn [fst] in *. destruct IH as [IHl IHf].
    split; [cbn; lia | constructor; assumption].
Qed.

(** The loop [for name in files: np.save(<location>, <record>)] from a
    state where every location can be written. *)
Lemma save_loop size (Pr : string -> result (list string))
    (P : string -> list string) names :
  0 <= size < 2 ^ 50 ->
  forall w,
  (forall name, name ∈ names ->
     Pr name = Ok (P name) /\ resolve_parent w (P name) = None /\
     is_dir w (P name) = false) ->
  let ws := combine (List.map P names)
              (List.map (fun r => NpyF32 (snd r))
                 (fst (records size (List.length names) (np_random w)))) in
  for_each names (fun name =>
      bind (lift (Pr name)) (fun p =>
      bind (random_record size) (fun arr =>
      np_save p (NpyF32 arr)))) w
  = (Ok tt,
     {| dirs := dirs w; files := write_all (files w) ws;
        np_random := snd (records size (List.length names) (np_random w));
        os_entropy := os_entropy w;
        log := log w ++ List.map save_event ws |}).
Proof.
  intros Hsize. induction names as [|name names IH]; intros w Hok; cbv zeta.
  - cbn. rewrite app_nil_r. destruct w; reflexivity.
  - destruct (Hok name ltac:(left)) as (HPr & Hres & Hnd).
    cbn [for_each List.length records].
    destruct (next_record_ok size (np_random w) Hsize)
      as ([u arr] & s1 & Hnext & _ & _).
    rewrite Hnext.
    set (w1 := set_rng s1 w).
    set (w2 := write_file (P name) (NpyF32 arr)
                 (log_event (EvSave (P name) (NpyF32 arr)) w1)).
    rewrite (bind_ok _ _ w tt w2).
    2:{ rewrite HPr. unfold lift at 1.
        rewrite (bind_ok _ _ w (P name) w) by reflexivity.
        rewrite (bind_ok _ _ w arr w1)
          by (apply random_record_ok with u; exact Hnext).
        apply np_save_ok.
        - rewrite (resolve_parent_ext w1 w) by reflexivity. exact Hres.
        - exact Hnd. }
    rewrite IH.
    2:{ intros name' Hin. destruct (Hok name' ltac:(right; exact Hin))
          as (HPr' & Hres' & Hnd').
        split; [exact HPr'|]. split; [|exact Hnd'].
        apply resolve_parent_mono with w; [reflexivity | exact Hres']. }
    change (np_random w2) with s1.
    destruct (records size (List.length names) s1) as [rs s2].
    cbn [fst snd List.map combine write_all foldl].
    f_equal. f_equal. cbn [log w2 log_event write_file].
    rewrite <- app_assoc. reflexivity.
Qed.

End Records.

(** ** Names of directories and files *)

Lemma list_ascii_of_string_app (a b : string) :
  list_ascii_of_string (a ++ b) =
  list_ascii_of_string a ++ list_ascii_of_string b.
Proof.
  induction a as [|c a IH]; [reflexivity|].
  change (c :: list_ascii_of_string (a ++ b) =
          c :: (list_ascii_of_string a ++ list_ascii_of_string b)).
  f_equal. exact IH.
Qed.

Lemma npy_has_suffix (name : string) : has_npy_suffix (npy name) = true.
Proof.
  unfold has_npy_suffix, npy. rewrite list_ascii_of_string_app, rev_app_distr.
  reflexivity.
Qed.

Lemma short_has_no_suffix (c : string) :
  (List.length (list_ascii_of_string c) < 4)%nat -> has_npy_suffix c = false.
Proof.
  unfold has_npy_suffix. intros H. rewrite <- length_rev in H.
  destruct (rev (list_ascii_of_string c)) as [|c1 [|c2 [|c3 [|c4 l]]]];
    cbn [List.length] in H; try reflexivity.
  - destruct c1 as [[] [] [] [] [] [] [] []]; reflexivity.
  - destruct c1 as [[] [] [] [] [] [] [] []]; try reflexivity;
      destruct c2 as [[] [] [] [] [] [] [] []]; reflexivity.
  - destruct c1 as [[] [] [] [] [] [] [] []]; try reflexivity;
      destruct c2 as [[] [] [] [] [] [] [] []]; try reflexivity;
      destruct c3 as [[] [] [] [] [] [] [] []]; reflexivity.
  - lia.
Qed.

Lemma npy_path_last (pre : list string) (c : string) :
  npy_path (pre ++ [c]) = has_npy_suffix c.
Proof. unfold npy_path. rewrite last_last. reflexivity. Qed.

Lemma hex_char_digit c :
  is_hex_char c = true -> exists d, 0 <= d < 16 /\ c = hex_digit d.
Proof.
  unfold is_hex_char. cbn [seq List.map existsb]. intros H.
  repeat (match type of H with
          | (Ascii.eqb c ?x || _)%bool = true =>
              destruct (Ascii.eqb_spec c x) as [E | _];
              [eexists; split; [|exact E]; lia | cbn [orb] in H]
          end).
  discriminate H.
Qed.

Lemma hex_fixed_3 d1 d2 d3 :
  0 <= d1 < 16 -> 0 <= d2 < 16 -> 0 <= d3 < 16 ->
  hex_fixed 3 (d1 * 256 + d2 * 16 + d3) =
  [hex_digit d1; hex_digit d2; hex_digit d3].
Proof.
  intros H1 H2 H3. cbn [hex_fixed app].
  assert (E3 : (d1 * 256 + d2 * 16 + d3) mod 16 = d3)
    by (symmetry; apply Z.mod_unique_pos with (d1 * 16 + d2); lia).
  assert (Q3 : (d1 * 256 + d2 * 16 + d3) / 16 = d1 * 16 + d2)
    by (symmetry; apply Z.div_unique_pos with d3; lia).
  assert (E2 : (d1 * 16 + d2) mod 16 = d2)
    by (symmetry; apply Z.mod_unique_pos with d1; lia).
  assert (Q2 : (d1 * 16 + d2) / 16 = d1)
    by (symmetry; apply Z.div_unique_pos with d2; lia).
  assert (E1 : d1 mod 16 = d1) by (apply Z.mod_small; lia).
  rewrite E3, Q3, E2, Q2, E1. reflexivity.
Qed.

Lemma hex_fixed_1 d : 0 <= d < 16 -> hex_fixed 1 d = [hex_digit d].
Proof.
  intros H. cbn [hex_fixed app]. rewrite Z.mod_small by lia. reflexivity.
Qed.

(** The last three characters of an identifier, as characters. *)
Lemma identifier_tail name :
  is_identifier name = true ->
  exists front d3 d2 d1,
    list_ascii_of_string name =
      front ++ [hex_digit d3; hex_digit d2; hex_digit d1] /\
    0 <= d1 < 16 /\ 0 <= d2 < 16 /\ 0 <= d3 < 16.
Proof.
  unfold is_identifier. intros H. apply andb_prop in H as [Hlen Hhex].
  apply Nat.eqb_eq in Hlen.
  set (cs := list_ascii_of_string name) in *.
  rewrite <- (firstn_skipn 29 cs) in Hhex |- *.
  assert (Hl3 : List.length (skipn 29 cs) = 3%nat)
    by (rewrite length_skipn; lia).
  destruct (skipn 29 cs) as [|c3 [|c2 [|c1 [|c0 l]]]]; try discriminate.
  rewrite forallb_app in Hhex. apply andb_prop in Hhex as [_ Hhex].
  cbn [forallb] in Hhex.
  apply andb_prop in Hhex as [H3 Hhex]. apply andb_prop in Hhex as [H2 Hhex].
  apply andb_prop in Hhex as [H1 _].
  destruct (hex_char_digit _ H3) as (d3 & ? & ->).
  destruct (hex_char_digit _ H2) as (d2 & ? & ->).
  destruct (hex_char_digit _ H1) as (d1 & ? & ->).
  exists (firstn 29 cs), d3, d2, d1. auto.
Qed.

(** The bucket of an identifier is one of the 4096 directories the
    two-level bootstrap makes. *)
Lemma last3_is_bucket name :
  is_identifier name = true ->
  exists i, 0 <= i < 4096 /\ last3 name = fmt_03x i.
Proof.
  intros Hid. destruct (identifier_tail name Hid)
    as (front & d3 & d2 & d1 & Hcs & H1 & H2 & H3).
  exists (d3 * 256 + d2 * 16 + d1). split; [lia|].
  unfold last3, fmt_03x. rewrite hex_fixed_3 by assumption. f_equal.
  rewrite Hcs, length_app. cbn [List.length].
  replace (List.length front + 3 - 3)%nat with (List.length front + 0)%nat
    by lia.
  rewrite skipn_app, Nat.add_0_r, skipn_all.
  replace (List.length front - List.length front)%nat with 0%nat by lia.
  reflexivity.
Qed.

(** ** Preparation steps *)

Section Setup.
Context `{RS : RandomState} `{US : UuidSource}.

Implicit Types (w : world) (p q : list string) (names : list string).

Lemma grows_refl w : grows w w.
Proof.
  unfold grows. repeat split; try reflexivity.
  - intros q Hq. left. exact Hq.
  - exists []. split; [symmetry; apply app_nil_r | constructor].
Qed.

Lemma grows_trans w1 w2 w3 : grows w1 w2 -> grows w2 w3 -> grows w1 w3.
Proof.
  intros (Hf1 & Hr1 & Ho1 & Hd1 & Hn1 & evs1 & Hl1 & He1)
         (Hf2 & Hr2 & Ho2 & Hd2 & Hn2 & evs2 & Hl2 & He2).
  unfold grows. repeat split; try congruence.
  - etransitivity; eassumption.
  - intros q Hq. destruct (Hn2 q Hq) as [Hq2 | ?]; [|right; assumption].
    apply Hn1, Hq2.
  - exists (evs1 ++ evs2). split.
    + rewrite Hl2, Hl1, app_assoc. reflexivity.
    + apply Forall_app. split; assumption.
Qed.

Lemma grows_typed w w' : fs_typed w -> grows w w' -> fs_typed w'.
Proof.
  intros [Hd Hf] (Hf' & _ & _ & _ & Hn & _). split.
  - intros q Hq. destruct (Hn q Hq) as [Hq' | ?]; [apply Hd, Hq' | assumption].
  - intros q f. rewrite Hf'. apply Hf.
Qed.

Lemma grows_ready w w' names : ready w names -> grows w w' -> ready w' names.
Proof.
  intros [Hc Ht Hf Hi] Hg. pose proof Hg as (Hf' & _ & _ & Hd & _).
  split.
  - apply Hd, Hc.
  - eapply grows_typed; eassumption.
  - rewrite Hf'. exact Hf.
  - exact Hi.
Qed.

Lemma grows_resolve w w' p :
  grows w w' -> resolve_parent w p = None -> resolve_parent w' p = None.
Proof. intros (_ & _ & _ & Hd & _). apply resolve_parent_mono, Hd. Qed.

Lemma grows_log_event e w : is_setup e = true -> grows w (log_event e w).
Proof.
  intros He. unfold grows. cbn [log_event files np_random os_entropy dirs log].
  repeat split; try reflexivity.
  - intros q Hq. left. exact Hq.
  - exists [e]. split; [reflexivity | repeat constructor; exact He].
Qed.

Lemma grows_add_dir p w : npy_path p = false -> grows w (add_dir p w).
Proof.
  intros Hp. unfold grows. cbn [add_dir files np_random os_entropy dirs log].
  repeat split; try reflexivity.
  - apply union_subseteq_r.
  - intros q Hq. apply elem_of_union in Hq as [Hq | Hq]; [|left; exact Hq].
    apply elem_of_singleton in Hq. subst q. right. exact Hp.
  - exists []. split; [symmetry; apply app_nil_r | constructor].
Qed.

Lemma path_mkdir_grows p w :
  fs_typed w -> p <> [] -> npy_path p = false -> resolve_parent w p = None ->
  exists w', path_mkdir p false w = (Ok tt, w') /\ grows w w' /\ p ∈ dirs w'.
Proof.
  intros Ht Hne Hnpy Hres.
  exists (add_dir p (log_event (EvMkdir p) w)). split; [|split].
  - apply path_mkdir_ok; [exact Hne | exact Hres |].
    apply typed_not_file; assumption.
  - apply (grows_trans _ (log_event (EvMkdir p) w)).
    + apply grows_log_event. reflexivity.
    + apply grows_add_dir, Hnpy.
  - apply elem_of_union_l, elem_of_singleton. reflexivity.
Qed.

(** A loop of preparation steps: every step succeeds from any state grown
    out of the initial one and establishes a fact that later steps keep. *)
Lemma for_each_grows {A} (xs : list A) (body : A -> M unit)
    (Q : A -> world -> Prop) w :
  (forall x w1, x ∈ xs -> grows w w1 ->
     exists w2, body x w1 = (Ok tt, w2) /\ grows w1 w2 /\ Q x w2) ->
  (forall x w1 w2, Q x w1 -> grows w1 w2 -> Q x w2) ->
  exists w', for_each xs body w = (Ok tt, w') /\ grows w w' /\
             forall x, x ∈ xs -> Q x w'.
Proof.
  intros Hstep Hkeep. revert w Hstep.
  induction xs as [|x xs IH]; intros w Hstep.
  - exists w. split; [reflexivity|]. split; [apply grows_refl|].
    intros x Hx. inversion Hx.
  - destruct (Hstep x w ltac:(left) (grows_refl w)) as (w1 & Hrun & Hg1 & HQ).
    destruct (IH w1) as (w' & Hrun' & Hg' & HQ').
    { intros y w2 Hy Hg2. apply Hstep; [right; exact Hy|].
      eapply grows_trans; eassumption. }
    exists w'. split; [|split].
    + cbn [for_each]. rewrite (bind_ok _ _ w tt w1) by exact Hrun.
      exact Hrun'.
    + eapply grows_trans; eassumption.
    + intros y Hy. apply elem_of_cons in Hy as [-> | Hy].
      * eapply Hkeep; eassumption.
      * apply HQ', Hy.
Qed.

End Setup.

(** ** [mkdir] with [parents=True] *)

Section Parents.
Context `{RS : RandomState} `{US : UuidSource}.

Implicit Types (w : world) (p q seen rest : list string).

Lemma walk_cases w seen rest e :
  walk w seen rest = Some e -> e = NotADirectoryError \/ e = FileNotFoundError.
Proof.
  revert seen. induction rest as [|c rest IH]; intros seen; cbn [walk].
  - discriminate.
  - destruct (is_dir w (seen ++ [c])); [apply IH|].
    destruct (is_file w (seen ++ [c])); intros [= <-]; auto.
Qed.

Lemma walk_typed w seen rest :
  fs_typed w ->
  (forall k, npy_path (seen ++ firstn (S k) rest) = false) ->
  walk w seen rest <> Some NotADirectoryError.
Proof.
  intros Ht. revert seen. induction rest as [|c rest IH]; intros seen Hn;
    cbn [walk].
  - discriminate.
  - destruct (is_dir w (seen ++ [c])) eqn:Hd.
    + apply IH. intros k. rewrite <- app_assoc. exact (Hn (S k)).
    + rewrite (typed_not_file w (seen ++ [c]) Ht); [discriminate|].
      specialize (Hn 0%nat). cbn [firstn] in Hn. exact Hn.
Qed.

Lemma walk_snoc w seen rest c :
  walk w seen rest = None -> is_dir w (seen ++ rest ++ [c]) = true ->
  walk w seen (rest ++ [c]) = None.
Proof.
  revert seen. induction rest as [|d rest IH]; intros seen; cbn [walk app].
  - intros _ ->. reflexivity.
  - destruct (is_dir w (seen ++ [d])).
    + intros Hw Hd. apply IH; [exact Hw|]. rewrite <- app_assoc. exact Hd.
    + destruct (is_file w (seen ++ [d])); discriminate.
Qed.

Lemma walk_whole w p :
  p <> [] -> resolve_parent w p = None -> is_dir w p = true ->
  walk w [] p = None.
Proof.
  intros Hne Hres Hd. unfold resolve_parent, parent in Hres.
  rewrite (app_removelast_last EmptyString Hne) in Hd |- *.
  apply walk_snoc; [exact Hres | exact Hd].
Qed.

Lemma os_mkdir_cases w p :
  fs_typed w -> npy_path p = false -> resolve_parent w p = None ->
  (is_dir w p = false /\ os_mkdir p w = (Ok tt, add_dir p w)) \/
  (is_dir w p = true /\ os_mkdir p w = (Raise FileExistsError, w)).
Proof.
  intros Ht Hn Hres. unfold os_mkdir. rewrite Hres.
  rewrite (typed_not_file w p Ht Hn).
  destruct (is_dir w p); [right | left]; split; reflexivity.
Qed.

Lemma is_dir_add_dir p w : is_dir (add_dir p w) p = true.
Proof.
  apply is_dir_true. right. apply elem_of_union_l, elem_of_singleton.
  reflexivity.
Qed.

(** Making the last component once the parent resolves. *)
Lemma mkdir_leaf w p :
  fs_typed w -> p <> [] -> npy_path p = false -> resolve_parent w p = None ->
  exists w', mkdir_no_parents p w = (Ok tt, w') /\ grows w w' /\
             walk w' [] p = None.
Proof.
  intros Ht Hne Hn Hres. unfold mkdir_no_parents.
  destruct (os_mkdir_cases w p Ht Hn Hres) as [[Hd ->] | [Hd ->]].
  - exists (add_dir p w). split; [reflexivity|].
    split; [apply grows_add_dir, Hn|].
    apply walk_whole; [exact Hne | | apply is_dir_add_dir].
    apply resolve_parent_mono with w; [apply union_subseteq_r | exact Hres].
  - rewrite Hd. exists w. split; [reflexivity|]. split; [apply grows_refl|].
    apply walk_whole; assumption.
Qed.

Lemma firstn_removelast {A} (l : list A) k :
  l <> [] -> removelast l <> [] ->
  exists j, firstn (S k) (removelast l) = firstn (S j) l.
Proof.
  intros Hl Hr. rewrite removelast_firstn_len.
  rewrite firstn_firstn.
  assert (pred (List.length l) <> 0)%nat.
  { intros E. apply Hr. rewrite removelast_firstn_len, E. reflexivity. }
  exists (pred (Nat.min (S k) (pred (List.length l)))).
  f_equal. lia.
Qed.

Lemma mkdir_rec_grows fuel : forall p w,
  fs_typed w -> p <> [] -> (List.length p <= fuel)%nat ->
  (forall k, npy_path (firstn (S k) p) = false) ->
  exists w', mkdir_rec fuel p w = (Ok tt, w') /\ grows w w' /\
             walk w' [] p = None.
Proof.
  induction fuel as [|fuel IH]; intros p w Ht Hne Hlen Hn.
  { destruct p; [contradiction | cbn in Hlen; lia]. }
  assert (Hnp : npy_path p = false).
  { rewrite <- (firstn_all p). destruct p as [|c p]; [contradiction|].
    cbn [List.length]. apply Hn. }
  set (w1 := log_event (EvMkdir p) w).
  assert (Hg1 : grows w w1) by (apply grows_log_event; reflexivity).
  assert (Ht1 : fs_typed w1) by (eapply grows_typed; eassumption).
  cbn [mkdir_rec]. rewrite (bind_ok _ _ w tt w1) by reflexivity.
  destruct (resolve_parent w1 p) as [e|] eqn:Hres.
  - (* a component of the parent is missing *)
    assert (He : e = FileNotFoundError).
    { destruct (walk_cases _ _ _ _ Hres) as [-> | ->]; [|reflexivity].
      exfalso. revert Hres. apply walk_typed; [exact Ht1|].
      intros k. cbn [app]. unfold parent.
      destruct (removelast p) as [|c l] eqn:Hrl; [reflexivity|].
      rewrite <- Hrl.
      destruct (firstn_removelast p k Hne) as [j ->]; [congruence | apply Hn]. }
    subst e. unfold os_mkdir at 1. rewrite Hres.
    destruct p as [|c p']; [contradiction|].
    assert (Hpar : parent (c :: p') <> []).
    { intros E. unfold resolve_parent in Hres. rewrite E in Hres.
      discriminate. }
    destruct (IH (parent (c :: p')) w1 Ht1 Hpar) as (w2 & Hrun2 & Hg2 & Hw2).
    { unfold parent. rewrite removelast_firstn_len, length_firstn.
      cbn [List.length] in *. lia. }
    { intros k. unfold parent.
      destruct (firstn_removelast (c :: p') k Hne Hpar) as [j ->]. apply Hn. }
    rewrite (bind_ok _ _ w1 tt w2) by exact Hrun2.
    set (w3 := log_event (EvMkdir (c :: p')) w2).
    rewrite (bind_ok _ _ w2 tt w3) by reflexivity.
    assert (Hg3 : grows w2 w3) by (apply grows_log_event; reflexivity).
    assert (Ht3 : fs_typed w3)
      by (eapply grows_typed; [eapply grows_typed|]; eassumption).
    destruct (mkdir_leaf w3 (c :: p') Ht3 Hne Hnp) as (w4 & Hrun4 & Hg4 & Hw4).
    { unfold resolve_parent. rewrite (walk_ext w3 w2) by reflexivity.
      exact Hw2. }
    exists w4. split; [exact Hrun4|]. split; [|exact Hw4].
    eapply grows_trans; [exact Hg1|]. eapply grows_trans; [exact Hg2|].
    eapply grows_trans; eassumption.
  - (* the parent resolves *)
    destruct (os_mkdir_cases w1 p Ht1 Hnp Hres) as [[Hd ->] | [Hd ->]].
    + exists (add_dir p w1). split; [reflexivity|]. split.
      * eapply grows_trans; [exact Hg1 | apply grows_add_dir, Hnp].
      * apply walk_whole; [exact Hne | | apply is_dir_add_dir].
        apply resolve_parent_mono with w1;
          [apply union_subseteq_r | exact Hres].
    + rewrite Hd. exists w1. split; [reflexivity|]. split; [exact Hg1|].
      apply walk_whole; assumption.
Qed.

End Parents.

(** ** The create passes of the three per-file layouts *)

Lemma elem_of_range (n : nat) (i : Z) :
  i ∈ range n <-> 0 <= i < Z.of_nat n.
Proof.
  unfold range. rewrite list_elem_of_In, in_map_iff. split.
  - intros (k & <- & Hk). apply in_seq in Hk. lia.
  - intros Hi. exists (Z.to_nat i). split; [lia|]. apply in_seq. lia.
Qed.

Lemma index_from_end_tail (name : string) front c3 c2 c1 :
  list_ascii_of_string name = front ++ [c3; c2; c1] ->
  index_from_end name 1 = Ok (String c1 EmptyString) /\
  index_from_end name 2 = Ok (String c2 EmptyString) /\
  index_from_end name 3 = Ok (String c3 EmptyString).
Proof.
  intros Hcs. unfold index_from_end. rewrite Hcs, length_app.
  cbn [List.length].
  repeat split.
  - replace (List.length front + 3 <? 1)%nat with false
      by (symmetry; apply Nat.ltb_ge; lia).
    replace (List.length front + 3 - 1)%nat with (List.length front + 2)%nat
      by lia.
    rewrite nth_error_app2 by lia.
    replace (List.length front + 2 - List.length front)%nat with 2%nat by lia.
    reflexivity.
  - replace (List.length front + 3 <? 2)%nat with false
      by (symmetry; apply Nat.ltb_ge; lia).
    replace (List.length front + 3 - 2)%nat with (List.length front + 1)%nat
      by lia.
    rewrite nth_error_app2 by lia.
    replace (List.length front + 1 - List.length front)%nat with 1%nat by lia.
    reflexivity.
  - replace (List.length front + 3 <? 3)%nat with false
      by (symmetry; apply Nat.ltb_ge; lia).
    replace (List.length front + 3 - 3)%nat with (List.length front + 0)%nat
      by lia.
    rewrite nth_error_app2 by lia.
    replace (List.length front + 0 - List.length front)%nat with 0%nat by lia.
    reflexivity.
Qed.

Lemma fmt_x_digit d : 0 <= d < 16 -> fmt_x d = String (hex_digit d) EmptyString.
Proof. intros H. unfold fmt_x. rewrite hex_fixed_1 by exact H. reflexivity. Qed.

Section Create.
Context `{RS : RandomState} `{US : UuidSource}.

Implicit Types (w : world) (p q : list string) (names : list string).

Lemma write_all_lookup (ws : list (list string * file)) :
  forall (m : gmap (list string) file) p f,
  write_all m ws !! p = Some f ->
  m !! p = Some f \/ p ∈ List.map fst ws.
Proof.
  induction ws as [|[q d] ws IH]; intros m p f; cbn [write_all foldl].
  - auto.
  - intros H. apply IH in H as [H | H].
    + cbn [fst snd] in H. destruct (decide (q = p)) as [-> | Hne].
      * right. left.
      * rewrite lookup_insert_ne in H by exact Hne. left. exact H.
    + right. right. exact H.
Qed.

Lemma write_all_lookup_notin (ws : list (list string * file)) :
  forall (m : gmap (list string) file) p,
  p ∉ List.map fst ws -> write_all m ws !! p = m !! p.
Proof.
  induction ws as [|[q d] ws IH]; intros m p Hnot; cbn [write_all foldl].
  - reflexivity.
  - cbn [List.map fst] in Hnot. apply not_elem_of_cons in Hnot as [Hne Hnot].
    change (write_all (<[q:=d]> m) ws !! p = m !! p).
    rewrite IH by exact Hnot. apply lookup_insert_ne. congruence.
Qed.

Lemma write_all_lookup_in (ws : list (list string * file)) :
  forall (m : gmap (list string) file) p,
  p ∈ List.map fst ws ->
  exists d, (p, d) ∈ ws /\ write_all m ws !! p = Some d.
Proof.
  induction ws as [|[q d] ws IH]; intros m p Hin; cbn [write_all foldl].
  - inversion Hin.
  - change (exists d0, (p, d0) ∈ (q, d) :: ws /\
                       write_all (<[q:=d]> m) ws !! p = Some d0).
    destruct (decide (p ∈ List.map fst ws)) as [Hlater | Hnot].
    + destruct (IH (<[q:=d]> m) p Hlater) as (d0 & Hd0 & Hlook).
      exists d0. split; [right; exact Hd0 | exact Hlook].
    + cbn [List.map fst] in Hin. apply elem_of_cons in Hin as [-> | Hin];
        [|contradiction].
      exists d. split; [left|].
      rewrite write_all_lookup_notin by exact Hnot. apply lookup_insert_eq.
Qed.

Lemma ready_identifier w names name :
  ready w names -> name ∈ names -> is_identifier name = true.
Proof.
  intros [_ _ _ Hids] Hin. rewrite Forall_forall in Hids. apply Hids, Hin.
Qed.

(** From a prepared state: reseed, then write one record per identifier. *)
Lemma create_after_setup (Pr : string -> result (list string))
    (P : string -> list string) size names w w1 :
  ready w names -> grows w w1 -> 0 <= size < 2 ^ 50 ->
  (forall name, name ∈ names ->
     Pr name = Ok (P name) /\ resolve_parent w1 (P name) = None /\
     npy_path (P name) = true /\ P name <> filelist_path) ->
  exists w',
    bind (np_random_seed 515) (fun _ =>
      for_each names (fun name =>
        bind (lift (Pr name)) (fun p =>
        bind (random_record size) (fun arr =>
        np_save p (NpyF32 arr))))) w1 = (Ok tt, w') /\
    created P size names w w'.
Proof.
  intros Hready Hg Hsize Hnames.
  pose proof (grows_ready _ _ _ Hready Hg) as [Hc1 Ht1 Hf1 Hi1].
  destruct Hg as (Hfiles & _ & Hos & Hdirs & _ & setup & Hlog & Hsetup).
  set (w2 := set_rng (rk_seed 515) w1).
  rewrite (bind_ok _ _ w1 tt w2) by reflexivity.
  rewrite (save_loop size Pr P names Hsize w2).
  2:{ intros name Hin.
      destruct (Hnames name Hin) as (HPr & Hres & Hnpy & _).
      split; [exact HPr|]. split.
      - rewrite (resolve_parent_ext w2 w1) by reflexivity. exact Hres.
      - apply (typed_not_dir w1); assumption. }
  eexists. split; [reflexivity|].
  pose proof (records_spec size (List.length names) (rk_seed 515) Hsize)
    as [Hlen _].
  unfold created, writes, generated.
  change (np_random w2) with (rk_seed 515).
  cbn [files dirs os_entropy log w2 set_rng].
  split; [exact Hlen|]. split; [rewrite Hfiles; reflexivity|].
  split; [exact Hdirs|]. split; [|split; [|split]].
  - split; [exact Hc1 | | | exact Hi1].
    + destruct Ht1 as [Hd Hf]. split; [exact Hd|].
      cbn [files]. intros p f Hlook.
      apply write_all_lookup in Hlook as [H | H].
      * apply (Hf p f H).
      * rewrite list_elem_of_In in H.
        apply in_map_iff in H as ([q d] & <- & Hin).
        apply in_combine_l in Hin.
        apply in_map_iff in Hin as (name & <- & Hin).
        apply (Hnames name). apply list_elem_of_In, Hin.
    + cbn [files]. rewrite write_all_lookup_notin; [exact Hf1|].
      intros Hin. rewrite list_elem_of_In in Hin.
      apply in_map_iff in Hin as ([q d] & Hq & Hin). cbn [fst] in Hq.
      apply in_combine_l in Hin.
      apply in_map_iff in Hin as (name & HP & Hin).
      destruct (Hnames name ltac:(apply list_elem_of_In, Hin))
        as (_ & _ & _ & Hne).
      congruence.
  - intros name Hin. destruct (Hnames name Hin) as (_ & Hres & _).
    apply resolve_parent_mono with w1; [reflexivity | exact Hres].
  - exact Hos.
  - exists setup. split; [|exact Hsetup].
    rewrite Hlog, <- app_assoc. reflexivity.
Qed.

Lemma flat_location w names name :
  ready w names -> ["cache"; "flat"]%string ∈ dirs w ->
  resolve_parent w (create_flat_path name) = None /\
  npy_path (create_flat_path name) = true.
Proof.
  intros [Hc _ _ _] Hflat. split.
  - unfold resolve_parent, parent, create_flat_path.
    cbn [removelast walk app].
    rewrite (is_dir_elem _ _ Hc), (is_dir_elem _ _ Hflat). reflexivity.
  - unfold create_flat_path.
    apply (eq_trans (npy_path_last ["cache"; "flat"]%string (npy name))).
    apply npy_has_suffix.
Qed.

Lemma create_files_flat_spec size w names :
  ready w names -> 0 <= size < 2 ^ 50 ->
  exists w', create_files_flat size w = (Ok tt, w') /\
             created create_flat_path size names w w'.
Proof.
  intros Hready Hsize. pose proof Hready as [Hc Ht Hf Hi].
  destruct (path_mkdir_grows ["cache"; "flat"]%string w Ht)
    as (w1 & Hrun1 & Hg1 & Hflat); [discriminate | reflexivity | |].
  { apply resolve_in_cache, Hc. }
  pose proof (grows_ready _ _ _ Hready Hg1) as Hready1.
  set (w2 := log_event (EvLoad filelist_path) w1).
  assert (Hg2 : grows w w2).
  { eapply grows_trans; [exact Hg1|]. apply grows_log_event. reflexivity. }
  pose proof (grows_ready _ _ _ Hready Hg2) as Hready2.
  destruct (create_after_setup (fun name => Ok (create_flat_path name))
              create_flat_path size names w w2 Hready Hg2 Hsize)
    as (w' & Hrun & Hcreated).
  { intros name Hin. split; [reflexivity|].
    destruct (flat_location w2 names name Hready2 Hflat) as [Hres Hnpy].
    split; [exact Hres|]. split; [exact Hnpy | discriminate]. }
  exists w'. split; [|exact Hcreated].
  unfold create_files_flat.
  rewrite (bind_ok _ _ w tt w1) by exact Hrun1.
  rewrite (bind_ok _ _ w1 names w2) by (apply load_filelist_ok, Hready1).
  exact Hrun.
Qed.

End Create.

Section Buckets.
Context `{RS : RandomState} `{US : UuidSource}.

Implicit Types (w : world) (p q : list string) (names : list string).

Lemma fmt_03x_short i : has_npy_suffix (fmt_03x i) = false.
Proof.
  apply short_has_no_suffix. unfold fmt_03x.
  rewrite list_ascii_of_string_of_list_ascii, hex_fixed_length. lia.
Qed.

Lemma fmt_x_short i : has_npy_suffix (fmt_x i) = false.
Proof.
  apply short_has_no_suffix. unfold fmt_x.
  rewrite list_ascii_of_string_of_list_ascii, hex_fixed_length. lia.
Qed.

Lemma two_level_location w names name :
  ready w names -> name ∈ names ->
  ["cache"; "2level"]%string ∈ dirs w ->
  (forall i, i ∈ range (16 ^ 3) ->
     ["cache"; "2level"; fmt_03x i]%string ∈ dirs w) ->
  resolve_parent w (create_two_level_path name) = None /\
  npy_path (create_two_level_path name) = true.
Proof.
  intros Hready Hin H2 Hbuckets. pose proof Hready as [Hc _ _ _]. split.
  - destruct (last3_is_bucket name (ready_identifier _ _ _ Hready Hin))
      as (i & Hi & Hlast).
    unfold resolve_parent, parent, create_two_level_path.
    cbn [removelast walk app]. rewrite Hlast.
    rewrite (is_dir_elem _ _ Hc), (is_dir_elem _ _ H2).
    rewrite (is_dir_elem _ _ (Hbuckets i ltac:(apply elem_of_range;
                                                change (Z.of_nat (16 ^ 3)) with 4096;
                                                lia))).
    reflexivity.
  - unfold create_two_level_path.
    apply (eq_trans (npy_path_last ["cache"; "2level"; last3 name]%string
                       (npy name))).
    apply npy_has_suffix.
Qed.

Lemma create_files_two_level_spec size w names :
  ready w names -> 0 <= size < 2 ^ 50 ->
  exists w', create_files_two_level size w = (Ok tt, w') /\
             created create_two_level_path size names w w'.
Proof.
  intros Hready Hsize. pose proof Hready as [Hc Ht Hf Hi].
  destruct (path_mkdir_grows ["cache"; "2level"]%string w Ht)
    as (w1 & Hrun1 & Hg1 & H2); [discriminate | reflexivity | |].
  { apply resolve_in_cache, Hc. }
  pose proof (grows_ready _ _ _ Hready Hg1) as Hready1.
  set (w2 := log_event (EvLoad filelist_path) w1).
  assert (Hg12 : grows w1 w2) by (apply grows_log_event; reflexivity).
  assert (Hg2 : grows w w2) by (eapply grows_trans; eassumption).
  destruct (for_each_grows (range (16 ^ 3))
              (fun i => path_mkdir ["cache"; "2level"; fmt_03x i]%string false)
              (fun i w' => ["cache"; "2level"; fmt_03x i]%string ∈ dirs w')
              w2)
    as (w3 & Hrun3 & Hg3 & Hbuckets).
  { intros i w' _ Hg'.
    assert (Hgw : grows w w') by (eapply grows_trans; eassumption).
    pose proof (grows_ready _ _ _ Hready Hgw) as [Hc' Ht' _ _].
    apply path_mkdir_grows; [exact Ht' | discriminate | |].
    - apply (eq_trans (npy_path_last ["cache"; "2level"]%string (fmt_03x i))).
      apply fmt_03x_short.
    - unfold resolve_parent, parent. cbn [removelast walk app].
      rewrite (is_dir_elem _ _ Hc').
      destruct Hg' as (_ & _ & _ & Hd' & _). destruct Hg12 as (_ & _ & _ & Hd12 & _).
      rewrite (is_dir_elem w' ["cache"; "2level"]%string)
        by (apply Hd', Hd12, H2).
      reflexivity. }
  { intros i wa wb Hin (_ & _ & _ & Hd & _). apply Hd, Hin. }
  assert (Hg : grows w w3) by (eapply grows_trans; eassumption).
  pose proof (grows_ready _ _ _ Hready Hg) as Hready3.
  destruct (create_after_setup (fun name => Ok (create_two_level_path name))
              create_two_level_path size names w w3 Hready Hg Hsize)
    as (w' & Hrun & Hcreated).
  { intros name Hin. split; [reflexivity|].
    destruct (two_level_location w3 names name Hready3 Hin) as [Hres Hnpy];
      [|exact Hbuckets|].
    - destruct Hg3 as (_ & _ & _ & Hd3 & _).
      destruct Hg12 as (_ & _ & _ & Hd12 & _). apply Hd3, Hd12, H2.
    - split; [exact Hres|]. split; [exact Hnpy | discriminate]. }
  exists w'. split; [|exact Hcreated].
  unfold create_files_two_level.
  rewrite (bind_ok _ _ w tt w1) by exact Hrun1.
  rewrite (bind_ok _ _ w1 names w2) by (apply load_filelist_ok, Hready1).
  rewrite (bind_ok _ _ w2 tt w3) by exact Hrun3.
  exact Hrun.
Qed.

Lemma leaf_prefixes i j k n : npy_path (firstn (S n) (leaf i j k)) = false.
Proof.
  unfold leaf.
  destruct n as [|[|[|[|[|n]]]]]; cbn [firstn]; try reflexivity.
  - apply (eq_trans (npy_path_last ["cache"; "4level"]%string (fmt_x i))).
    apply fmt_x_short.
  - apply (eq_trans (npy_path_last ["cache"; "4level"; fmt_x i]%string
                       (fmt_x j))).
    apply fmt_x_short.
  - apply (eq_trans (npy_path_last ["cache"; "4level"; fmt_x i; fmt_x j]%string
                       (fmt_x k))).
    apply fmt_x_short.
  - destruct n; cbn [firstn];
      apply (eq_trans (npy_path_last
                         ["cache"; "4level"; fmt_x i; fmt_x j]%string
                         (fmt_x k)));
      apply fmt_x_short.
Qed.

Lemma leaf_mkdir i j k w :
  fs_typed w ->
  exists w', path_mkdir (leaf i j k) true w = (Ok tt, w') /\ grows w w' /\
             walk w' [] (leaf i j k) = None.
Proof.
  intros Ht. unfold path_mkdir.
  apply mkdir_rec_grows; [exact Ht | discriminate | reflexivity |].
  apply leaf_prefixes.
Qed.

Lemma walk_grows w w' p : grows w w' -> walk w [] p = None -> walk w' [] p = None.
Proof.
  intros (_ & _ & _ & Hd & _). apply walk_mono. intros q Hq.
  apply is_dir_true in Hq. apply is_dir_true.
  destruct Hq as [-> | Hq]; [left; reflexivity | right; apply Hd, Hq].
Qed.

(** The bootstrap of the four-level layout makes all 16 * 16 * 16 leaves. *)
Lemma four_level_bootstrap w :
  fs_typed w ->
  exists w',
    for_each (range 16) (fun i =>
      for_each (range 16) (fun j =>
        for_each (range 16) (fun k =>
          path_mkdir ["cache"; "4level"; fmt_x i; fmt_x j; fmt_x k]%string
                     true))) w = (Ok tt, w') /\
    grows w w' /\
    forall i j k, i ∈ range 16 -> j ∈ range 16 -> k ∈ range 16 ->
                  walk w' [] (leaf i j k) = None.
Proof.
  intros Ht.
  destruct (for_each_grows (range 16)
              (fun i => for_each (range 16) (fun j =>
                 for_each (range 16) (fun k => path_mkdir (leaf i j k) true)))
              (fun i w' => forall j k, j ∈ range 16 -> k ∈ range 16 ->
                                       walk w' [] (leaf i j k) = None) w)
    as (w' & Hrun & Hg & HQ).
  - intros i w1 _ Hg1.
    destruct (for_each_grows (range 16)
                (fun j => for_each (range 16)
                            (fun k => path_mkdir (leaf i j k) true))
                (fun j w' => forall k, k ∈ range 16 ->
                                       walk w' [] (leaf i j k) = None) w1)
      as (w2 & Hrun2 & Hg2 & HQ2).
    + intros j w2 _ Hg2.
      destruct (for_each_grows (range 16)
                  (fun k => path_mkdir (leaf i j k) true)
                  (fun k w' => walk w' [] (leaf i j k) = None) w2)
        as (w3 & Hrun3 & Hg3 & HQ3).
      * intros k w3 _ Hg3. apply leaf_mkdir.
        eapply grows_typed; [|exact Hg3].
        eapply grows_typed; [|exact Hg2].
        eapply grows_typed; eassumption.
      * intros k wa wb Hk Hgab. eapply walk_grows; eassumption.
      * exists w3. split; [exact Hrun3|]. split; [exact Hg3 | exact HQ3].
    + intros j wa wb Hj Hgab k Hk. eapply walk_grows; [exact Hgab|].
      apply Hj, Hk.
    + exists w2. split; [exact Hrun2|]. split; [exact Hg2|].
      intros j k Hj Hk. apply HQ2; assumption.
  - intros i wa wb Hi Hgab j k Hj Hk. eapply walk_grows; [exact Hgab|].
    apply Hi; assumption.
  - exists w'. split; [exact Hrun|]. split; [exact Hg|].
    intros i j k Hi Hj Hk. apply HQ; assumption.
Qed.

End Buckets.

(** ** The four-level location *)

Lemma four_level_paths_agree name :
  create_four_level_path name = test_four_level_path name.
Proof. reflexivity. Qed.

Lemma four_level_path_short name :
  (List.length (list_ascii_of_string name) < 3)%nat ->
  exists e, create_four_level_path name = Raise e /\
            four_level_spec name = None.
Proof.
  intros Hlen. unfold create_four_level_path, four_level_spec, index_from_end.
  rewrite <- length_rev in Hlen.
  rewrite <- (length_rev (list_ascii_of_string name)).
  destruct (rev (list_ascii_of_string name)) as [|c1 [|c2 [|c3 l]]] eqn:Hrev;
    cbn [List.length] in *; try lia.
  - exists IndexError. cbn. auto.
  - exists IndexError. cbn [Nat.ltb Nat.leb Nat.sub].
    assert (Hcs : list_ascii_of_string name = [c1]).
    { rewrite <- (rev_involutive (list_ascii_of_string name)), Hrev.
      reflexivity. }
    rewrite Hcs. cbn. auto.
  - exists IndexError.
    assert (Hcs : list_ascii_of_string name = [c2; c1]).
    { rewrite <- (rev_involutive (list_ascii_of_string name)), Hrev.
      reflexivity. }
    rewrite Hcs. cbn. auto.
Qed.

Lemma four_level_path_long name front c3 c2 c1 :
  list_ascii_of_string name = front ++ [c3; c2; c1] ->
  create_four_level_path name =
    Ok ["cache"; "4level"; String c1 EmptyString; String c2 EmptyString;
        String c3 EmptyString; npy name]%string /\
  four_level_spec name =
    Some ["cache"; "4level"; String c1 EmptyString; String c2 EmptyString;
          String c3 EmptyString; npy name]%string.
Proof.
  intros Hcs. destruct (index_from_end_tail name front c3 c2 c1 Hcs)
    as (H1 & H2 & H3).
  unfold create_four_level_path, four_level_spec.
  rewrite H1, H2, H3, Hcs, rev_app_distr. split; reflexivity.
Qed.

Lemma four_level_identifier name :
  is_identifier name = true ->
  exists d1 d2 d3,
    0 <= d1 < 16 /\ 0 <= d2 < 16 /\ 0 <= d3 < 16 /\
    create_four_level_path name = Ok (four_level_place name) /\
    four_level_place name = leaf d1 d2 d3 ++ [npy name].
Proof.
  intros Hid. destruct (identifier_tail name Hid)
    as (front & d3 & d2 & d1 & Hcs & H1 & H2 & H3).
  destruct (four_level_path_long name front _ _ _ Hcs) as [Hc Hs].
  exists d1, d2, d3. repeat (split; [assumption|]).
  unfold four_level_place. rewrite Hs. split; [exact Hc|].
  unfold leaf. rewrite !fmt_x_digit by assumption. reflexivity.
Qed.

Section FourLevel.
Context `{RS : RandomState} `{US : UuidSource}.

Implicit Types (w : world) (names : list string).

Lemma create_files_four_level_spec size w names :
  ready w names -> 0 <= size < 2 ^ 50 ->
  exists w', create_files_four_level size w = (Ok tt, w') /\
             created four_level_place size names w w'.
Proof.
  intros Hready Hsize. pose proof Hready as [Hc Ht Hf Hi].
  destruct (path_mkdir_grows ["cache"; "4level"]%string w Ht)
    as (w1 & Hrun1 & Hg1 & H4); [discriminate | reflexivity | |].
  { apply resolve_in_cache, Hc. }
  pose proof (grows_ready _ _ _ Hready Hg1) as Hready1.
  set (w2 := log_event (EvLoad filelist_path) w1).
  assert (Hg12 : grows w1 w2) by (apply grows_log_event; reflexivity).
  assert (Hg2 : grows w w2) by (eapply grows_trans; eassumption).
  destruct (four_level_bootstrap w2) as (w3 & Hrun3 & Hg3 & Hleaves).
  { eapply grows_typed; eassumption. }
  assert (Hg : grows w w3) by (eapply grows_trans; eassumption).
  pose proof (grows_ready _ _ _ Hready Hg) as Hready3.
  destruct (create_after_setup create_four_level_path four_level_place
              size names w w3 Hready Hg Hsize)
    as (w' & Hrun & Hcreated).
  { intros name Hin.
    destruct (four_level_identifier name
                (ready_identifier _ _ _ Hready Hin))
      as (d1 & d2 & d3 & H1 & H2 & H3 & Hpath & Hplace).
    split; [exact Hpath|]. rewrite Hplace. split; [|split].
    - unfold resolve_parent, parent. rewrite removelast_last.
      apply Hleaves; apply elem_of_range; change (Z.of_nat 16) with 16; lia.
    - rewrite npy_path_last. apply npy_has_suffix.
    - discriminate. }
  exists w'. split; [|exact Hcreated].
  unfold create_files_four_level.
  rewrite (bind_ok _ _ w tt w1) by exact Hrun1.
  rewrite (bind_ok _ _ w1 names w2) by (apply load_filelist_ok, Hready1).
  rewrite (bind_ok _ _ w2 tt w3) by exact Hrun3.
  exact Hrun.
Qed.

End FourLevel.

(** ** The create pass of the memmap layout *)

Lemma block_set_row_fill (pre row : list spec_float) (size : Z) (k m : nat) :
  0 <= size ->
  List.length pre = (k * Z.to_nat size)%nat ->
  List.length row = Z.to_nat size ->
  block_set_row (pre ++ repeat f32_zero (S m * Z.to_nat size)) size
                (Z.of_nat k) row
  = (pre ++ row) ++ repeat f32_zero (m * Z.to_nat size).
Proof.
  intros Hsize Hpre Hrow. unfold block_set_row.
  replace (Z.to_nat (Z.of_nat k * size)) with (List.length pre)
    by (rewrite Hpre; nia).
  replace (Z.to_nat ((Z.of_nat k + 1) * size))
    with (List.length pre + Z.to_nat size)%nat by (rewrite Hpre; nia).
  rewrite firstn_app, firstn_all, Nat.sub_diag. cbn [firstn].
  rewrite app_nil_r, skipn_app.
  rewrite skipn_all2 by lia.
  replace (List.length pre + Z.to_nat size - List.length pre)%nat
    with (Z.to_nat size) by lia.
  cbn [app]. replace (S m * Z.to_nat size)%nat
    with (Z.to_nat size + m * Z.to_nat size)%nat by lia.
  rewrite repeat_app, skipn_app, skipn_all2 by (rewrite repeat_length; lia).
  rewrite repeat_length, Nat.sub_diag. cbn [skipn app].
  rewrite <- app_assoc. reflexivity.
Qed.

Section MemmapCreate.
Context `{RS : RandomState} `{US : UuidSource}.

Implicit Types (w : world) (names : list string).

Lemma memmap_rows_spec size n s :
  List.length (fst (memmap_rows size n s)) = n /\
  Forall (fun row => List.length row = Z.to_nat size)
         (fst (memmap_rows size n s)).
Proof.
  revert s. induction n as [|n IH]; intros s; cbn [memmap_rows].
  - split; [reflexivity | constructor].
  - pose proof (draws_length (Z.to_nat size) s) as Hl.
    destruct (draws (Z.to_nat size) s) as [xs s1]. specialize (IH s1).
    destruct (memmap_rows size n s1) as [rows s2]. cbn [fst] in *.
    destruct IH as [IHl IHf]. split; [cbn; lia|].
    constructor; [rewrite length_map; exact Hl | exact IHf].
Qed.

(** The loop [for i in range(n): arr[i] = <row>] over rows [k .. k+m-1] of
    a block whose first [k] rows are [pre] and whose rest is still zero. *)
Lemma store_loop size n (m : nat) :
  0 < size ->
  forall (k : nat) w pre,
  (k + m = n)%nat ->
  List.length pre = (k * Z.to_nat size)%nat ->
  files w !! memmap_path =
    Some (RawF32 (pre ++ repeat f32_zero (m * Z.to_nat size))) ->
  let rows := fst (memmap_rows size m (np_random w)) in
  for_each (List.map Z.of_nat (seq k m)) (fun i =>
      bind (np_random_random_n size) (fun xs =>
      memmap_store {| mm_path := memmap_path; mm_rows := Z.of_nat n;
                      mm_cols := size |}
                   i (List.map Float.to_float32 xs))) w
  = (Ok tt,
     {| dirs := dirs w;
        files := <[memmap_path := RawF32 (pre ++ concat rows)]> (files w);
        np_random := snd (memmap_rows size m (np_random w));
        os_entropy := os_entropy w;
        log := log w ++ List.map store_event
                          (combine (List.map Z.of_nat (seq k m)) rows) |}).
Proof.
  intros Hsize. induction m as [|m IH]; intros k w pre Hkm Hpre Hfile;
    cbv zeta.
  - cbn [seq List.map for_each memmap_rows fst snd concat combine].
    rewrite !app_nil_r. cbn [repeat] in Hfile. rewrite app_nil_r in Hfile.
    rewrite insert_id by exact Hfile. destruct w; reflexivity.
  - cbn [seq List.map for_each memmap_rows].
    pose proof (draws_length (Z.to_nat size) (np_random w)) as Hl.
    destruct (draws (Z.to_nat size) (np_random w)) as [xs s1] eqn:Hdraw.
    cbn [fst] in Hl.
    set (row := List.map Float.to_float32 xs).
    assert (Hrow : List.length row = Z.to_nat size)
      by (unfold row; rewrite length_map; exact Hl).
    set (mm := {| mm_path := memmap_path; mm_rows := Z.of_nat n;
                  mm_cols := size |}).
    set (w1 := set_rng s1 w).
    set (w2 := log_event (EvMemmapStore memmap_path (Z.of_nat k) row) w1).
    set (w3 := write_file memmap_path
                 (RawF32 ((pre ++ row) ++ repeat f32_zero (m * Z.to_nat size)))
                 w2).
    rewrite (bind_ok _ _ w tt w3).
    2:{ rewrite (bind_ok _ _ w xs w1).
        2:{ unfold np_random_random_n.
            replace (size <? 0) with false by lia. rewrite Hdraw.
            reflexivity. }
        fold row. unfold memmap_store.
        rewrite (bind_ok _ _ w1 tt w2) by reflexivity.
        rewrite (bind_ok _ _ w2 (Z.of_nat k) w2).
        2:{ unfold lift, row_index. cbn [mm_rows mm].
            replace (Z.of_nat k <? 0) with false by lia.
            replace ((Z.of_nat k <? 0) || (Z.of_nat n <=? Z.of_nat k))
              with false by lia.
            reflexivity. }
        rewrite (bind_ok _ _ w2 row w2).
        2:{ cbn [mm_cols mm]. rewrite Hrow.
            rewrite (proj2 (Z.eqb_eq _ _)) by (apply Z2Nat.id; lia).
            reflexivity. }
        change (files w2) with (files w). cbn [mm_path mm mm_cols].
        rewrite Hfile.
        rewrite block_set_row_fill by (try lia; assumption).
        reflexivity. }
    subst mm. rewrite (IH (S k) w3 (pre ++ row)).
    2:{ lia. }
    2:{ rewrite length_app, Hpre, Hrow. lia. }
    2:{ apply lookup_insert_eq. }
    change (np_random w3) with s1.
    destruct (memmap_rows size m s1) as [rows s2].
    cbn [fst snd concat combine List.map].
    f_equal. f_equal.
    + cbn [files w3 write_file]. rewrite insert_insert_eq, <- app_assoc.
      reflexivity.
    + cbn [log w3 write_file w2 log_event]. rewrite <- app_assoc.
      reflexivity.
Qed.

End MemmapCreate.

Section MemmapCreateRun.
Context `{RS : RandomState} `{US : UuidSource}.

Implicit Types (w : world) (names : list string).

Lemma memmap_location w names :
  ready w names -> memmap_dir ∈ dirs w ->
  resolve_parent w memmap_path = None /\ is_dir w memmap_path = false.
Proof.
  intros [Hc Ht _ _] Hm. split.
  - unfold resolve_parent, parent, memmap_path. cbn [removelast walk app].
    rewrite (is_dir_elem _ _ Hc).
    rewrite (is_dir_elem w ["cache"; "memmap"]%string Hm). reflexivity.
  - apply typed_not_dir; [exact Ht | reflexivity].
Qed.

Lemma create_files_memmap_spec size w names :
  ready w names -> names <> [] -> 0 < size ->
  exists w',
    create_files_memmap size w = (Ok tt, w') /\
    files w' = <[memmap_path :=
                   RawF32 (concat (generated_rows size (List.length names)))]>
                 (files w) /\
    dirs w' = {[memmap_dir]} ∪ dirs w /\
    os_entropy w' = os_entropy w /\
    log w' = log w ++
      [EvMkdir memmap_dir; EvLoad filelist_path;
       EvMemmapOpen memmap_path ModeWritePlus
                    (Z.of_nat (List.length names)) size] ++
      List.map store_event
        (combine (range (List.length names))
                 (generated_rows size (List.length names))) ++
      [EvMemmapFlush memmap_path].
Proof.
  intros Hready Hne Hsize. pose proof Hready as [Hc Ht Hf Hi].
  set (n := List.length names).
  assert (Hn : (0 < n)%nat) by (destruct names; [contradiction | cbn; lia]).
  set (w1 := add_dir memmap_dir (log_event (EvMkdir memmap_dir) w)).
  assert (Hrun1 : path_mkdir memmap_dir false w = (Ok tt, w1)).
  { apply path_mkdir_ok; [discriminate | apply resolve_in_cache, Hc |].
    apply typed_not_file; [exact Ht | reflexivity]. }
  assert (Hg1 : grows w w1).
  { apply (grows_trans _ (log_event (EvMkdir memmap_dir) w)).
    - apply grows_log_event. reflexivity.
    - apply grows_add_dir. reflexivity. }
  pose proof (grows_ready _ _ _ Hready Hg1) as Hready1.
  set (w2 := log_event (EvLoad filelist_path) w1).
  assert (Hready2 : ready w2 names).
  { apply (grows_ready w1); [exact Hready1|].
    apply grows_log_event. reflexivity. }
  set (mm := {| mm_path := memmap_path; mm_rows := Z.of_nat n;
                mm_cols := size |}).
  set (w3 := log_event (EvMemmapOpen memmap_path ModeWritePlus
                          (Z.of_nat n) size) w2).
  set (zeros := repeat f32_zero (Z.to_nat (Z.of_nat n * size))).
  set (w5 := write_file memmap_path (RawF32 zeros)
               (write_file memmap_path (RawF32 []) w3)).
  assert (Hdir : memmap_dir ∈ dirs w2).
  { apply elem_of_union_l, elem_of_singleton. reflexivity. }
  destruct (memmap_location w2 names Hready2 Hdir) as [Hres Hnd].
  assert (Hopen : np_memmap memmap_path ModeWritePlus (Z.of_nat n) size w2
                  = (Ok mm, w5)).
  { unfold np_memmap.
    rewrite (bind_ok _ _ w2 tt w3) by reflexivity.
    rewrite (bind_ok _ _ w3 tt w3).
    2:{ unfold open_for_write.
        rewrite (resolve_parent_ext w3 w2) by reflexivity.
        change (is_dir w3 memmap_path) with (is_dir w2 memmap_path).
        rewrite Hres, Hnd. reflexivity. }
    rewrite (bind_ok _ _ w3 tt (write_file memmap_path (RawF32 []) w3))
      by reflexivity.
    replace ((Z.of_nat n <? 0) || (size <? 0) || (Z.of_nat n * size =? 0))
      with false by (symmetry; apply orb_false_intro;
                     [apply orb_false_intro|]; lia).
    reflexivity. }
  set (w6 := set_rng (rk_seed 515) w5).
  pose proof (store_loop size n n Hsize 0%nat w6 []) as Hloop.
  cbv zeta in Hloop.
  rewrite app_nil_l in Hloop.
  specialize (Hloop ltac:(lia) ltac:(reflexivity)).
  assert (Hzeros : files w6 !! memmap_path =
                   Some (RawF32 (repeat f32_zero (n * Z.to_nat size)))).
  { cbn [files w6 set_rng w5 write_file]. rewrite lookup_insert_eq.
    unfold zeros. do 3 f_equal. nia. }
  specialize (Hloop Hzeros).
  eexists. split.
  - unfold create_files_memmap.
    rewrite (bind_ok _ _ w tt w1) by exact Hrun1.
    rewrite (bind_ok _ _ w1 names w2) by (apply load_filelist_ok, Hready1).
    fold n. rewrite (bind_ok _ _ w2 mm w5) by exact Hopen.
    rewrite (bind_ok _ _ w5 tt w6) by reflexivity.
    unfold range. rewrite (bind_ok _ _ w6 tt _ Hloop).
    unfold memmap_flush, emit. reflexivity.
  - cbn [files dirs os_entropy log log_event].
    change (np_random w6) with (rk_seed 515).
    unfold generated_rows, range. fold n.
    split; [|split; [|split]].
    + cbn [files w6 set_rng w5 write_file].
      rewrite !insert_insert_eq. reflexivity.
    + reflexivity.
    + reflexivity.
    + cbn [log w6 set_rng w5 write_file w3 w2 w1 log_event add_dir].
      rewrite <- !app_assoc. reflexivity.
Qed.

End MemmapCreateRun.

(** ** The shuffle is a permutation *)

Lemma delete_insert_same {A} (l : list A) i x :
  delete i (<[i:=x]> l) = delete i l.
Proof.
  revert i. induction l as [|y l IH]; intros [|i]; cbn; try reflexivity.
  f_equal. apply IH.
Qed.

Lemma insert_Permutation {A} (l : list A) i a b :
  l !! i = Some a -> b :: l ≡ₚ a :: <[i:=b]> l.
Proof.
  intros Hi.
  assert (Hlt : (i < List.length l)%nat) by (eapply lookup_lt_Some; eassumption).
  pose proof (delete_Permutation l i a Hi) as H1.
  pose proof (delete_Permutation (<[i:=b]> l) i b
                (list_lookup_insert_eq l i b Hlt)) as H2.
  rewrite delete_insert_same in H2.
  apply Permutation_trans with (b :: a :: delete i l);
    [apply perm_skip, H1|].
  apply Permutation_trans with (a :: b :: delete i l); [apply perm_swap|].
  apply perm_skip. symmetry. exact H2.
Qed.

Section Shuffle.
Context `{RS : RandomState}.

Lemma swap_Permutation {A} (l : list A) i j : swap l i j ≡ₚ l.
Proof.
  unfold swap. destruct (l !! i) as [a|] eqn:Hi; [|reflexivity].
  destruct (l !! j) as [b|] eqn:Hj; [|reflexivity].
  destruct (decide (i = j)) as [-> | Hne].
  - assert (a = b) by congruence. subst b.
    rewrite (list_insert_id l j a Hj). rewrite (list_insert_id l j a Hj).
    reflexivity.
  - apply (Permutation_cons_inv (a := a)).
    assert (Hi' : <[j:=a]> l !! i = Some a)
      by (rewrite list_lookup_insert_ne by congruence; exact Hi).
    apply Permutation_trans with (b :: <[j:=a]> l).
    + symmetry. apply (insert_Permutation (<[j:=a]> l) i a b Hi').
    + symmetry. apply (insert_Permutation l j b a Hj).
Qed.

Lemma shuffle_from_Permutation {A} i : forall (l : list A) s,
  fst (shuffle_from i l s) ≡ₚ l.
Proof.
  induction i as [|i IH]; intros l s; cbn [shuffle_from].
  - reflexivity.
  - destruct (rk_interval (Z.of_nat (S i)) s) as [j s'].
    apply Permutation_trans with (swap l (S i) (Z.to_nat j));
      [apply IH | apply swap_Permutation].
Qed.

(** [np.random.shuffle] rearranges: the result has the same elements with
    the same multiplicities. *)
Lemma shuffle_Permutation {A} (l : list A) s : fst (shuffle l s) ≡ₚ l.
Proof. apply shuffle_from_Permutation. Qed.

End Shuffle.

(** ** The read passes *)

Section Read.
Context `{RS : RandomState} `{US : UuidSource} `{NS : NumpyStats}.

Implicit Types (w : world) (names : list string).

Lemma log_events_cons e evs w :
  log_events evs (log_event e w) = log_events (e :: evs) w.
Proof.
  unfold log_events, log_event. cbn. rewrite <- app_assoc. reflexivity.
Qed.

Lemma log_events_nil w : log_events [] w = w.
Proof. unfold log_events. rewrite app_nil_r. destruct w; reflexivity. Qed.

Lemma readable_log_event e w p xs :
  readable w p xs -> readable (log_event e w) p xs.
Proof.
  intros (Hres & Hd & Hf). split; [|split].
  - rewrite (resolve_parent_ext (log_event e w) w) by reflexivity. exact Hres.
  - exact Hd.
  - exact Hf.
Qed.

Lemma mean_of_file_ok w p xs :
  readable w p xs ->
  mean_of_file p w = (Ok (mean32 (stored w p)), log_event (EvLoad p) w).
Proof.
  intros (Hres & Hd & Hf). unfold mean_of_file.
  rewrite (bind_ok _ _ w (NpyF32 xs) (log_event (EvLoad p) w))
    by (apply np_load_ok; assumption).
  unfold stored. rewrite Hf. reflexivity.
Qed.

(** The loop [for name in files: means.append(np.mean(np.load(<location>)))]. *)
Lemma load_loop (Pr : string -> result (list string))
    (P : string -> list string) (xs : list string) :
  forall w,
  (forall x, x ∈ xs -> Pr x = Ok (P x) /\ exists arr, readable w (P x) arr) ->
  for_collect xs (fun name => bind (lift (Pr name)) mean_of_file) w
  = (Ok (List.map (fun x => mean32 (stored w (P x))) xs),
     log_events (List.map EvLoad (List.map P xs)) w).
Proof.
  induction xs as [|x xs IH]; intros w Hok.
  - cbn [for_collect List.map]. rewrite log_events_nil. reflexivity.
  - destruct (Hok x ltac:(left)) as (HPr & arr & Hread).
    cbn [for_collect List.map].
    rewrite (bind_ok _ _ w (mean32 (stored w (P x)))
               (log_event (EvLoad (P x)) w)).
    2:{ rewrite HPr. unfold lift at 1.
        rewrite (bind_ok _ _ w (P x) w) by reflexivity.
        apply mean_of_file_ok with arr. exact Hread. }
    assert (Hrest : forall y, y ∈ xs ->
              Pr y = Ok (P y) /\
              exists arr, readable (log_event (EvLoad (P x)) w) (P y) arr).
    { intros y Hy.
      destruct (Hok y ltac:(right; exact Hy)) as (HPr' & arr' & Hr').
      split; [exact HPr'|]. exists arr'. apply readable_log_event, Hr'. }
    rewrite (bind_ok _ _ _ _ _ (IH (log_event (EvLoad (P x)) w) Hrest)).
    rewrite log_events_cons. reflexivity.
Qed.

Lemma report_ok means w :
  means <> [] ->
  report means w =
  (Ok tt, log_events [stats_event means; EvPrint MsgTook] w).
Proof.
  intros Hne. unfold report, np_max, np_min.
  destruct means as [|m means]; [contradiction|].
  unfold bind, ret, emit, log_events, log_event, stats_event. cbn.
  rewrite <- app_assoc. reflexivity.
Qed.

Lemma access_order_Permutation {A} (l : list A) : access_order l ≡ₚ l.
Proof. apply shuffle_Permutation. Qed.

Lemma access_order_nonempty {A} (l : list A) : l <> [] -> access_order l <> [].
Proof.
  intros Hne Hnil. pose proof (access_order_Permutation l) as Hp.
  rewrite Hnil in Hp. apply Permutation_nil in Hp. contradiction.
Qed.

(** What the three per-file test functions share after their banner. *)
Lemma read_pass (Pr : string -> result (list string))
    (P : string -> list string) names w :
  ready w names -> names <> [] ->
  (forall x, x ∈ names -> Pr x = Ok (P x) /\ exists arr, readable w (P x) arr) ->
  exists w',
    bind load_filelist (fun files =>
      bind (np_random_seed 515) (fun _ =>
      bind (np_random_shuffle files) (fun files =>
      bind (for_collect files (fun name => bind (lift (Pr name)) mean_of_file))
           report))) w = (Ok tt, w') /\
    tested P [] names w w'.
Proof.
  intros Hready Hne Hok.
  set (w1 := log_event (EvLoad filelist_path) w).
  set (w2 := set_rng (rk_seed 515) w1).
  set (order := access_order names).
  set (w3 := set_rng (snd (shuffle names (rk_seed 515))) w2).
  set (means := List.map (fun x => mean32 (stored w (P x))) order).
  exists (log_events [stats_event means; EvPrint MsgTook]
            (log_events (List.map EvLoad (List.map P order)) w3)).
  split.
  - rewrite (bind_ok _ _ w names w1) by (apply load_filelist_ok, Hready).
    rewrite (bind_ok _ _ w1 tt w2) by reflexivity.
    rewrite (bind_ok _ _ w2 order w3).
    2:{ unfold np_random_shuffle, order, access_order, w3.
        change (np_random w2) with (rk_seed 515).
        destruct (shuffle names (rk_seed 515)); reflexivity. }
    rewrite (bind_ok _ _ w3 means
               (log_events (List.map EvLoad (List.map P order)) w3)).
    2:{ rewrite (load_loop Pr P order w3); [reflexivity|].
        intros x Hx. unfold order in Hx.
        rewrite (access_order_Permutation names) in Hx.
        destruct (Hok x Hx) as (HPr & arr & Hr). split; [exact HPr|].
        exists arr. destruct Hr as (Hres & Hd & Hf). split; [|split].
        - rewrite (resolve_parent_ext w3 w) by reflexivity. exact Hres.
        - exact Hd.
        - exact Hf. }
    apply report_ok. unfold means. intros Hnil.
    apply map_eq_nil in Hnil. revert Hnil. apply access_order_nonempty, Hne.
  - unfold tested. fold order. fold means.
    split; [reflexivity|]. split; [reflexivity|].
    cbn [log log_events w3 set_rng w2 w1 log_event app].
    rewrite <- !app_assoc. reflexivity.
Qed.

End Read.

Lemma map_fst_combine {A B} (l : list A) (k : list B) :
  List.length l = List.length k -> List.map fst (combine l k) = l.
Proof.
  revert k. induction l as [|a l IH]; intros [|b k] Hlen; cbn in *;
    try reflexivity; try discriminate.
  f_equal. apply IH. lia.
Qed.

Section Tests.
Context `{RS : RandomState} `{US : UuidSource} `{NS : NumpyStats}.

Implicit Types (w : world) (names : list string).

Lemma ready_log_event e w names : ready w names -> ready (log_event e w) names.
Proof. intros [Hc [Hd Hf] Hl Hi]. split; [exact Hc | split | exact Hl | exact Hi];
  assumption. Qed.

Lemma tested_banner P e names w w' :
  tested P [] names (log_event e w) w' -> tested P [e] names w w'.
Proof.
  unfold tested. intros (Hf & Hd & Hl). split; [exact Hf|]. split; [exact Hd|].
  rewrite Hl. cbn [log log_event app]. rewrite <- app_assoc. reflexivity.
Qed.

Lemma banner_pass (Pr : string -> result (list string))
    (P : string -> list string) (text : string) names w :
  ready w names -> names <> [] ->
  (forall x, x ∈ names -> Pr x = Ok (P x) /\ exists arr, readable w (P x) arr) ->
  exists w',
    bind (emit (EvPrint (MsgText text))) (fun _ =>
    bind load_filelist (fun files =>
      bind (np_random_seed 515) (fun _ =>
      bind (np_random_shuffle files) (fun files =>
      bind (for_collect files (fun name => bind (lift (Pr name)) mean_of_file))
           report)))) w = (Ok tt, w') /\
    tested P [EvPrint (MsgText text)] names w w'.
Proof.
  intros Hready Hne Hok.
  set (w0 := log_event (EvPrint (MsgText text)) w).
  destruct (read_pass Pr P names w0) as (w' & Hrun & Ht).
  - apply ready_log_event, Hready.
  - exact Hne.
  - intros x Hx. destruct (Hok x Hx) as (HPr & arr & Hr).
    split; [exact HPr|]. exists arr. apply readable_log_event, Hr.
  - exists w'. split.
    + rewrite (bind_ok _ _ w tt w0) by reflexivity. exact Hrun.
    + apply tested_banner, Ht.
Qed.

Lemma test_flat_spec size w names :
  ready w names -> names <> [] ->
  (forall x, x ∈ names -> exists arr, readable w (test_flat_path x) arr) ->
  exists w', test_flat size w = (Ok tt, w') /\
    tested test_flat_path [EvPrint (MsgText "Testing flat structure...")]
           names w w'.
Proof.
  intros Hready Hne Hok.
  apply (banner_pass (fun name => Ok (test_flat_path name)) test_flat_path
           "Testing flat structure..." names w Hready Hne).
  intros x Hx. split; [reflexivity | apply Hok, Hx].
Qed.

Lemma test_two_level_spec size w names :
  ready w names -> names <> [] ->
  (forall x, x ∈ names -> exists arr, readable w (test_two_level_path x) arr) ->
  exists w', test_two_level size w = (Ok tt, w') /\
    tested test_two_level_path
           [EvPrint (MsgText "Testing two-level structure...")] names w w'.
Proof.
  intros Hready Hne Hok.
  apply (banner_pass (fun name => Ok (test_two_level_path name))
           test_two_level_path "Testing two-level structure..." names w
           Hready Hne).
  intros x Hx. split; [reflexivity | apply Hok, Hx].
Qed.

Lemma test_four_level_spec size w names :
  ready w names -> names <> [] ->
  (forall x, x ∈ names -> exists arr, readable w (four_level_place x) arr) ->
  exists w', test_four_level size w = (Ok tt, w') /\
    tested four_level_place
           [EvPrint (MsgText "Testing four-level structure...")] names w w'.
Proof.
  intros Hready Hne Hok.
  apply (banner_pass test_four_level_path four_level_place
           "Testing four-level structure..." names w Hready Hne).
  intros x Hx. split; [|apply Hok, Hx].
  destruct (four_level_identifier x (ready_identifier _ _ _ Hready Hx))
    as (d1 & d2 & d3 & _ & _ & _ & Hpath & _).
  rewrite <- four_level_paths_agree. exact Hpath.
Qed.

(** After a per-file create pass every identifier's location holds a
    float32 array of a length in [[10, 10 + 5 * size]]. *)
Lemma created_readable (P : string -> list string) size names w w' name :
  0 <= size < 2 ^ 50 -> created P size names w w' -> name ∈ names ->
  exists arr, readable w' (P name) arr /\
              (P name, NpyF32 arr) ∈ writes P size names /\
              10 <= Z.of_nat (List.length arr) <= 10 + 5 * size.
Proof.
  intros Hsize (Hlen & Hfiles & _ & Hready' & Hres & _) Hin.
  pose proof (records_spec size (List.length names) (rk_seed 515) Hsize)
    as [_ Hsized].
  destruct (write_all_lookup_in (writes P size names) (files w) (P name))
    as (d & Hd & Hlook).
  { unfold writes. rewrite map_fst_combine.
    - apply list_elem_of_In, in_map, list_elem_of_In, Hin.
    - rewrite !length_map. unfold generated in *. lia. }
  pose proof Hd as Hd'. unfold writes in Hd'.
  rewrite list_elem_of_In in Hd'. apply in_combine_r in Hd'.
  apply in_map_iff in Hd' as (r & <- & Hr).
  rewrite Forall_forall in Hsized.
  destruct (Hsized r ltac:(apply list_elem_of_In, Hr)) as (_ & _ & Hb).
  exists (snd r). split; [|split; [exact Hd | exact Hb]].
  split; [apply Hres, Hin|]. rewrite <- Hfiles in Hlook. split; [|exact Hlook].
  destruct Hready' as [_ [Hdt Hft] _ _].
  apply typed_not_dir; [split; assumption|]. apply (Hft _ _ Hlook).
Qed.

End Tests.

(** ** The read pass of the memmap layout *)


Section MemmapRead.
Context `{RS : RandomState} `{US : UuidSource} `{NS : NumpyStats}.

Implicit Types (w : world) (names : list string).

(** The loop [for i in idx: means.append(np.mean(arr[i]))]. *)
Lemma fetch_loop (rows size : Z) (xs : list spec_float) (idx : list Z) :
  forall w,
  files w !! memmap_path = Some (RawF32 xs) ->
  (forall i, i ∈ idx -> 0 <= i < rows) ->
  for_collect idx (fun i =>
      bind (memmap_fetch {| mm_path := memmap_path; mm_rows := rows;
                            mm_cols := size |} i)
           (fun row => ret (mean32 row))) w
  = (Ok (List.map (fun i => mean32 (block_row xs size i)) idx),
     log_events (List.map (EvMemmapFetch memmap_path) idx) w).
Proof.
  induction idx as [|i idx IH]; intros w Hfile Hidx.
  - cbn [for_collect List.map]. rewrite log_events_nil. reflexivity.
  - cbn [for_collect List.map].
    pose proof (Hidx i ltac:(left)) as Hi.
    set (w1 := log_event (EvMemmapFetch memmap_path i) w).
    rewrite (bind_ok _ _ w (mean32 (block_row xs size i)) w1).
    2:{ rewrite (bind_ok _ _ w (block_row xs size i) w1); [reflexivity|].
        unfold memmap_fetch. cbn [mm_path mm_cols].
        rewrite (bind_ok _ _ w tt w1) by reflexivity.
        rewrite (bind_ok _ _ w1 i w1).
        2:{ unfold lift, row_index. cbn [mm_rows].
            replace (i <? 0) with false by lia.
            replace ((i <? 0) || (rows <=? i)) with false by lia.
            reflexivity. }
        change (files w1) with (files w). rewrite Hfile. reflexivity. }
    rewrite (bind_ok _ _ _ _ _ (IH w1 Hfile
               (fun j Hj => Hidx j ltac:(right; exact Hj)))).
    unfold w1. rewrite log_events_cons. reflexivity.
Qed.

Lemma test_memmap_small size w names xs :
  ready w names -> names <> [] -> 0 < size -> memmap_dir ∈ dirs w ->
  files w !! memmap_path = Some (RawF32 xs) ->
  Z.of_nat (List.length xs) < Z.of_nat (List.length names) * size ->
  fst (test_memmap size w) = Raise ValueError.
Proof.
  intros Hready Hne Hsize Hdir Hfile Hsmall.
  set (n := List.length names) in *.
  assert (Hn : (0 < n)%nat) by (destruct names; [contradiction | cbn; lia]).
  set (w1 := log_event (EvLoad filelist_path) w).
  set (w2 := log_event (EvMemmapOpen memmap_path ModeRead (Z.of_nat n) size)
               w1).
  destruct (memmap_location w names Hready Hdir) as [Hres Hnd].
  unfold test_memmap.
  rewrite (bind_ok _ _ w names w1) by (apply load_filelist_ok, Hready).
  fold n. rewrite (bind_raise _ _ w1 ValueError w2); [reflexivity|].
  unfold np_memmap. rewrite (bind_ok _ _ w1 tt w2) by reflexivity.
  rewrite (bind_ok _ _ w2 (RawF32 xs) w2).
  2:{ unfold open_for_read.
      rewrite (resolve_parent_ext w2 w) by reflexivity.
      change (is_dir w2 memmap_path) with (is_dir w memmap_path).
      change (files w2) with (files w). rewrite Hres, Hnd, Hfile.
      reflexivity. }
  replace ((Z.of_nat n <? 0) || (size <? 0) || (Z.of_nat n * size =? 0))
    with false by (symmetry; apply orb_false_intro;
                   [apply orb_false_intro|]; lia).
  replace (Z.of_nat (List.length xs) <? Z.of_nat n * size) with true by lia.
  reflexivity.
Qed.

Lemma test_memmap_spec size w names xs :
  ready w names -> names <> [] -> 0 < size -> memmap_dir ∈ dirs w ->
  files w !! memmap_path = Some (RawF32 xs) ->
  Z.of_nat (List.length names) * size <= Z.of_nat (List.length xs) ->
  exists w', test_memmap size w = (Ok tt, w') /\
             tested_memmap size names w w'.
Proof.
  intros Hready Hne Hsize Hdir Hfile Hfits.
  set (n := List.length names) in *.
  assert (Hn : (0 < n)%nat) by (destruct names; [contradiction | cbn; lia]).
  set (w1 := log_event (EvLoad filelist_path) w).
  set (w2 := log_event (EvMemmapOpen memmap_path ModeRead (Z.of_nat n) size)
               w1).
  set (mm := {| mm_path := memmap_path; mm_rows := Z.of_nat n;
                mm_cols := size |}).
  set (w3 := set_rng (rk_seed 515) w2).
  set (order := access_order (range n)).
  set (w4 := set_rng (snd (shuffle (range n) (rk_seed 515))) w3).
  set (means := List.map (fun i => mean32 (block_row xs size i)) order).
  destruct (memmap_location w names Hready Hdir) as [Hres Hnd].
  exists (log_events [stats_event means; EvPrint MsgTook]
            (log_events (List.map (EvMemmapFetch memmap_path) order) w4)).
  split.
  - unfold test_memmap.
    rewrite (bind_ok _ _ w names w1) by (apply load_filelist_ok, Hready).
    fold n. rewrite (bind_ok _ _ w1 mm w2).
    2:{ unfold np_memmap. rewrite (bind_ok _ _ w1 tt w2) by reflexivity.
        rewrite (bind_ok _ _ w2 (RawF32 xs) w2).
        2:{ unfold open_for_read.
            rewrite (resolve_parent_ext w2 w) by reflexivity.
            change (is_dir w2 memmap_path) with (is_dir w memmap_path).
            change (files w2) with (files w). rewrite Hres, Hnd, Hfile.
            reflexivity. }
        replace ((Z.of_nat n <? 0) || (size <? 0) || (Z.of_nat n * size =? 0))
          with false by (symmetry; apply orb_false_intro;
                         [apply orb_false_intro|]; lia).
        replace (Z.of_nat (List.length xs) <? Z.of_nat n * size)
          with false by lia.
        reflexivity. }
    rewrite (bind_ok _ _ w2 tt w3) by reflexivity.
    rewrite (bind_ok _ _ w3 order w4).
    2:{ unfold np_random_shuffle, order, access_order, w4.
        change (np_random w3) with (rk_seed 515).
        destruct (shuffle (range n) (rk_seed 515)); reflexivity. }
    rewrite (bind_ok _ _ w4 means
               (log_events (List.map (EvMemmapFetch memmap_path) order) w4)).
    2:{ apply fetch_loop; [exact Hfile|].
        intros i Hi. unfold order in Hi.
        rewrite (access_order_Permutation (range n)) in Hi.
        apply elem_of_range in Hi. exact Hi. }
    apply report_ok. unfold means. intros Hnil.
    apply map_eq_nil in Hnil. revert Hnil. apply access_order_nonempty.
    destruct n; [lia | discriminate].
  - unfold tested_memmap. fold n. fold order. unfold block. rewrite Hfile.
    fold means. split; [reflexivity|]. split; [reflexivity|].
    cbn [log log_events w4 set_rng w3 w2 w1 log_event app].
    rewrite <- !app_assoc. reflexivity.
Qed.

End MemmapRead.

(** ** Reading the log of a pass *)

Lemma saved_app evs1 evs2 : saved (evs1 ++ evs2) = saved evs1 ++ saved evs2.
Proof. unfold saved. apply flat_map_app. Qed.

Lemma loaded_app evs1 evs2 : loaded (evs1 ++ evs2) = loaded evs1 ++ loaded evs2.
Proof. unfold loaded. apply flat_map_app. Qed.

Lemma saved_setup evs :
  Forall (fun e => is_setup e = true) evs -> saved evs = [].
Proof.
  induction 1 as [|e evs He _ IH]; [reflexivity|].
  destruct e; try discriminate; exact IH.
Qed.

Lemma saved_save_events ws : saved (List.map save_event ws) = ws.
Proof.
  induction ws as [|[p d] ws IH]; [reflexivity|].
  cbn [List.map saved flat_map save_event fst snd app].
  f_equal. exact IH.
Qed.

Lemma loaded_load_events ps : loaded (List.map EvLoad ps) = ps.
Proof.
  induction ps as [|p ps IH]; [reflexivity|].
  cbn [List.map loaded flat_map app]. f_equal. exact IH.
Qed.

Lemma stored_store_events irs :
  stored_rows (List.map store_event irs) = irs.
Proof.
  induction irs as [|[i r] irs IH]; [reflexivity|].
  cbn [List.map stored_rows flat_map store_event fst snd app].
  f_equal. exact IH.
Qed.

Lemma fetched_fetch_events p idx :
  fetched_rows (List.map (EvMemmapFetch p) idx) = idx.
Proof.
  induction idx as [|i idx IH]; [reflexivity|].
  cbn [List.map fetched_rows flat_map app]. f_equal. exact IH.
Qed.

Lemma printed_app evs1 evs2 :
  printed (evs1 ++ evs2) = printed evs1 ++ printed evs2.
Proof. unfold printed. apply flat_map_app. Qed.

Lemma printed_load_events ps : printed (List.map EvLoad ps) = [].
Proof. induction ps as [|p ps IH]; [reflexivity | exact IH]. Qed.

Lemma printed_fetch_events p idx :
  printed (List.map (EvMemmapFetch p) idx) = [].
Proof. induction idx as [|i idx IH]; [reflexivity | exact IH]. Qed.

(** ** The passes, by layout *)

Section ByLayout.
Context `{RS : RandomState} `{US : UuidSource} `{NS : NumpyStats}.

Implicit Types (w : world) (names : list string) (l : layout).

Lemma create_files_spec l size w names :
  ready w names -> 0 <= size < 2 ^ 50 ->
  exists w', create_files l size w = (Ok tt, w') /\
             created (create_location l) size names w w'.
Proof.
  destruct l; cbn [create_files create_location].
  - apply create_files_flat_spec.
  - apply create_files_two_level_spec.
  - apply create_files_four_level_spec.
Qed.

Lemma test_files_spec l size w names :
  ready w names -> names <> [] ->
  (forall x, x ∈ names -> exists arr, readable w (test_location l x) arr) ->
  exists w', test_files l size w = (Ok tt, w') /\
             tested (test_location l) [banner l] names w w'.
Proof.
  destruct l; cbn [test_files test_location banner].
  - apply test_flat_spec.
  - apply test_two_level_spec.
  - apply test_four_level_spec.
Qed.

Lemma locations_agree l name : create_location l name = test_location l name.
Proof. destruct l; reflexivity. Qed.

(** The writes of a create pass, read off its outcome. *)
Lemma created_saved (P : string -> list string) size names w w' :
  created P size names w w' ->
  exists evs, log w' = log w ++ evs /\ saved evs = writes P size names.
Proof.
  intros (_ & _ & _ & _ & _ & _ & setup & Hlog & Hsetup).
  exists (setup ++ List.map save_event (writes P size names)).
  split; [exact Hlog|].
  rewrite saved_app, (saved_setup _ Hsetup), saved_save_events. reflexivity.
Qed.

Lemma writes_locations (P : string -> list string) size names :
  0 <= size < 2 ^ 50 ->
  List.map fst (writes P size names) = List.map P names.
Proof.
  intros Hsize. unfold writes. apply map_fst_combine.
  rewrite !length_map. unfold generated.
  destruct (records_spec size (List.length names) (rk_seed 515) Hsize)
    as [-> _].
  reflexivity.
Qed.

Lemma writes_contents (P : string -> list string) size names :
  0 <= size < 2 ^ 50 ->
  List.map snd (writes P size names) =
  List.map (fun r => NpyF32 (snd r)) (generated size (List.length names)).
Proof.
  intros Hsize. unfold writes.
  assert (Hlen : List.length (List.map P names) =
                 List.length (List.map (fun r => NpyF32 (snd r))
                                (generated size (List.length names)))).
  { rewrite !length_map. unfold generated.
    destruct (records_spec size (List.length names) (rk_seed 515) Hsize)
      as [-> _].
    reflexivity. }
  revert Hlen. generalize (List.map P names).
  generalize (List.map (fun r => NpyF32 (snd r))
                (generated size (List.length names))).
  intros ds ps. revert ds. induction ps as [|p ps IH]; intros [|d ds] Hlen;
    cbn in *; try reflexivity; try discriminate.
  f_equal. apply IH. lia.
Qed.

End ByLayout.

Section ExampleStates.
Context (RS : RandomState).

Lemma listed_world_ready names :
  Forall (fun name => is_identifier name = true) names ->
  ready (Examples.listed_world RS names) names.
Proof.
  intros Hids. split.
  - apply elem_of_singleton. reflexivity.
  - split.
    + intros p Hp.
      pose proof (proj1 (elem_of_singleton (C := gset (list string)) p
                           ["cache"%string]) Hp) as ->.
      reflexivity.
    + intros p f Hlook. unfold Examples.listed_world in Hlook.
      cbn [files] in Hlook.
      apply lookup_singleton_Some in Hlook as [<- _]. reflexivity.
  - apply lookup_singleton_eq.
  - exact Hids.
Qed.

End ExampleStates.

Lemma example_identifiers :
  Forall (fun name => is_identifier name = true) [Examples.id_a; Examples.id_b].
Proof. repeat constructor. Qed.

Lemma example_identifier :
  Forall (fun name => is_identifier name = true) [Examples.id_a].
Proof. repeat constructor. Qed.

(** ** Create followed by test *)

Section CreateThenTest.
Context `{RS : RandomState} `{US : UuidSource} `{NS : NumpyStats}.

Implicit Types (w : world) (names : list string) (l : layout).

Lemma write_all_lookup_indep (ws : list (list string * file)) :
  forall (m1 m2 : gmap (list string) file) p,
  p ∈ List.map fst ws -> write_all m1 ws !! p = write_all m2 ws !! p.
Proof.
  induction ws as [|[q d] ws IH]; intros m1 m2 p Hin.
  - inversion Hin.
  - change (write_all (<[q:=d]> m1) ws !! p = write_all (<[q:=d]> m2) ws !! p).
    destruct (decide (p ∈ List.map fst ws)) as [Hlater | Hnot].
    + apply IH, Hlater.
    + cbn [List.map fst] in Hin. apply elem_of_cons in Hin as [-> | Hin];
        [|contradiction].
      rewrite !write_all_lookup_notin by exact Hnot.
      rewrite !lookup_insert_eq. reflexivity.
Qed.


Lemma tested_loaded (P : string -> list string) bn names w w' :
  tested P [EvPrint bn] names w w' ->
  exists evs, log w' = log w ++ evs /\
    loaded evs = filelist_path :: List.map P (access_order names) /\
    printed evs =
      [bn;
       MsgStats
         (amax32 (List.map (fun name => mean32 (stored w (P name)))
                    (access_order names)))
         (mean32 (List.map (fun name => mean32 (stored w (P name)))
                    (access_order names)))
         (amin32 (List.map (fun name => mean32 (stored w (P name)))
                    (access_order names)));
       MsgTook].
Proof.
  unfold tested. intros (_ & _ & Hlog). eexists. split; [exact Hlog|].
  split.
  - rewrite !loaded_app, loaded_load_events. cbn [loaded flat_map app].
    unfold stats_event. cbn [flat_map app]. rewrite app_nil_r. reflexivity.
  - rewrite !printed_app, printed_load_events. unfold stats_event.
    reflexivity.
Qed.

(** After the create pass of a layout, its test pass finds every record
    where create put it. *)
Lemma create_then_test l size w names :
  ready w names -> names <> [] -> 0 <= size < 2 ^ 50 ->
  exists w1 w2,
    create_files l size w = (Ok tt, w1) /\
    created (create_location l) size names w w1 /\
    test_files l size w1 = (Ok tt, w2) /\
    tested (test_location l) [banner l] names w1 w2.
Proof.
  intros Hready Hne Hsize.
  destruct (create_files_spec l size w names Hready Hsize)
    as (w1 & Hrun1 & Hcreated).
  pose proof Hcreated as (_ & _ & _ & Hready1 & _).
  destruct (test_files_spec l size w1 names Hready1 Hne)
    as (w2 & Hrun2 & Htested).
  { intros x Hx.
    destruct (created_readable _ size names w w1 x Hsize Hcreated Hx)
      as (arr & Hr & _).
    exists arr. rewrite <- locations_agree. exact Hr. }
  exists w1, w2. auto.
Qed.

End CreateThenTest.

(** * The claims *)

Section Lengths.
Context `{RS : RandomState} `{US : UuidSource} `{NS : NumpyStats}.

(** Where a create pass writes and what. *)
Lemma create_writes (l : layout) (size : Z) (w : world)
    (names : list string) :
  ready w names -> 0 <= size < 2 ^ 50 ->
  exists w' evs,
    create_files l size w = (Ok tt, w') /\
    log w' = log w ++ evs /\
    List.map fst (saved evs) = List.map (create_location l) names /\
    List.map snd (saved evs) =
      List.map (fun r => NpyF32 (snd r))
               (generated size (List.length names)).
Proof.
  intros Hready Hsize.
  destruct (create_files_spec l size w names Hready Hsize)
    as (w' & Hrun & Hcreated).
  destruct (created_saved _ _ _ _ _ Hcreated) as (evs & Hlog & Hsaved).
  exists w', evs. split; [exact Hrun|]. split; [exact Hlog|].
  rewrite Hsaved. split; [apply writes_locations | apply writes_contents];
    exact Hsize.
Qed.


(** C10. In the create passes of the three per-file layouts the sequence
    of written arrays is [generated size n]: it is determined by the
    position in the persisted order, the fixed seed and [size]. The
    identifiers only decide the locations. Two identifier lists of equal
    length therefore get the same contents at matching positions, from any
    two starting states. *)
Theorem contents_independent_of_names (l : layout) (size : Z)
    (w1 w2 : world) (names1 names2 : list string) :
  ready w1 names1 -> ready w2 names2 ->
  List.length names1 = List.length names2 -> 0 <= size < 2 ^ 50 ->
  exists w1' w2' evs1 evs2,
    create_files l size w1 = (Ok tt, w1') /\
    create_files l size w2 = (Ok tt, w2') /\
    log w1' = log w1 ++ evs1 /\ log w2' = log w2 ++ evs2 /\
    List.map fst (saved evs1) = List.map (create_location l) names1 /\
    List.map fst (saved evs2) = List.map (create_location l) names2 /\
    List.map snd (saved evs1) = List.map snd (saved evs2) /\
    List.map snd (saved evs1) =
      List.map (fun r => NpyF32 (snd r))
               (generated size (List.length names1)).
Proof.
  intros Hready1 Hready2 Hlen Hsize.
  destruct (create_writes l size w1 names1 Hready1 Hsize)
    as (w1' & evs1 & Hrun1 & Hlog1 & Hloc1 & Hcont1).
  destruct (create_writes l size w2 names2 Hready2 Hsize)
    as (w2' & evs2 & Hrun2 & Hlog2 & Hloc2 & Hcont2).
  exists w1', w2', evs1, evs2. repeat (split; [assumption|]).
  split; [|exact Hcont1].
  rewrite Hcont1, Hcont2, Hlen. reflexivity.
Qed.

End Lengths.


(** A run of [contents_independent_of_names]: the same two identifiers in
    the two possible orders. *)
Lemma contents_independent_of_names_witness :
  let w1 := Examples.listed_world Examples.table_random_state
              [Examples.id_a; Examples.id_b] in
  let w2 := Examples.listed_world Examples.table_random_state
              [Examples.id_b; Examples.id_a] in
  ready w1 [Examples.id_a; Examples.id_b] /\
  ready w2 [Examples.id_b; Examples.id_a] /\
  List.length [Examples.id_a; Examples.id_b]
  = List.length [Examples.id_b; Examples.id_a] /\
  0 <= 3 < 2 ^ 50 /\
  exists w1' w2' evs1 evs2,
    create_files Flat 3 w1 = (Ok tt, w1') /\
    create_files Flat 3 w2 = (Ok tt, w2') /\
    log w1' = log w1 ++ evs1 /\ log w2' = log w2 ++ evs2 /\
    List.map fst (saved evs1) =
      List.map (create_location Flat) [Examples.id_a; Examples.id_b] /\
    List.map fst (saved evs2) =
      List.map (create_location Flat) [Examples.id_b; Examples.id_a] /\
    List.map snd (saved evs1) = List.map snd (saved evs2) /\
    List.map snd (saved evs1) =
      List.map (fun r => NpyF32 (snd r))
        (@generated Examples.table_random_state 3
           (List.length [Examples.id_a; Examples.id_b])).
Proof.
  cbv zeta.
  pose proof (listed_world_ready Examples.table_random_state
                [Examples.id_a; Examples.id_b] example_identifiers) as Hr1.
  assert (Hids : Forall (fun name => is_identifier name = true)
                   [Examples.id_b; Examples.id_a])
    by (repeat constructor).
  pose proof (listed_world_ready Examples.table_random_state
                [Examples.id_b; Examples.id_a] Hids) as Hr2.
  assert (Hsize : 0 <= 3 < 2 ^ 50) by lia.
  split; [exact Hr1|]. split; [exact Hr2|]. split; [reflexivity|].
  split; [exact Hsize|].
  exact (contents_independent_of_names Flat 3 _ _ _ _ Hr1 Hr2 eq_refl Hsize).
Defined.

Lemma stored_rows_app evs1 evs2 :
  stored_rows (evs1 ++ evs2) = stored_rows evs1 ++ stored_rows evs2.
Proof. unfold stored_rows. apply flat_map_app. Qed.

Lemma fetched_rows_app evs1 evs2 :
  fetched_rows (evs1 ++ evs2) = fetched_rows evs1 ++ fetched_rows evs2.
Proof. unfold fetched_rows. apply flat_map_app. Qed.

Section Determinism.
Context `{RS : RandomState} `{US : UuidSource} `{NS : NumpyStats}.

Implicit Types (w : world) (names : list string).

Lemma ready_same_fs w w' names :
  dirs w' = dirs w -> files w' = files w -> ready w names -> ready w' names.
Proof.
  intros Hd Hf [Hc [Htd Htf] Hl Hi]. split.
  - rewrite Hd. exact Hc.
  - split; [rewrite Hd; exact Htd | rewrite Hf; exact Htf].
  - rewrite Hf. exact Hl.
  - exact Hi.
Qed.

(** The rows a memmap create pass stores, read off its log. *)
Lemma memmap_create_rows size w names :
  ready w names -> names <> [] -> 0 < size ->
  exists w' evs,
    create_files_memmap size w = (Ok tt, w') /\
    log w' = log w ++ evs /\
    stored_rows evs =
      combine (range (List.length names))
              (generated_rows size (List.length names)) /\
    files w' !! memmap_path =
      Some (RawF32 (concat (generated_rows size (List.length names)))) /\
    dirs w' = {[memmap_dir]} ∪ dirs w /\
    (forall p, p <> memmap_path -> files w' !! p = files w !! p).
Proof.
  intros Hready Hne Hsize.
  destruct (create_files_memmap_spec size w names Hready Hne Hsize)
    as (w' & Hrun & Hfiles & Hdirs & _ & Hlog).
  eexists w', _. split; [exact Hrun|]. split; [exact Hlog|].
  split; [|split; [|split]].
  - rewrite !stored_rows_app, stored_store_events.
    cbn [stored_rows flat_map app]. apply app_nil_r.
  - rewrite Hfiles. apply lookup_insert_eq.
  - exact Hdirs.
  - intros p Hp. rewrite Hfiles. apply lookup_insert_ne. congruence.
Qed.

(** C5. Two create passes of the same layout over the same persisted
    identifier list and the same [size] write the same arrays to the same
    locations, whatever else differs between the two starting states (the
    state the generator was left in, other files and directories, the
    log): afterwards every identifier's location holds the same array in
    both, lengths included; for the memmap layout the same rows are stored
    and the block is the same. *)
Theorem create_deterministic (size : Z) (w1 w2 : world)
    (names : list string) :
  ready w1 names -> ready w2 names -> names <> [] -> 0 < size < 2 ^ 50 ->
  (forall l : layout,
     exists w1' w2' evs1 evs2,
       create_files l size w1 = (Ok tt, w1') /\
       create_files l size w2 = (Ok tt, w2') /\
       log w1' = log w1 ++ evs1 /\ log w2' = log w2 ++ evs2 /\
       saved evs1 = saved evs2 /\
       forall name, name ∈ names ->
         exists arr,
           files w1' !! create_location l name = Some (NpyF32 arr) /\
           files w2' !! create_location l name = Some (NpyF32 arr)) /\
  (exists w1' w2' evs1 evs2 blk,
     create_files_memmap size w1 = (Ok tt, w1') /\
     create_files_memmap size w2 = (Ok tt, w2') /\
     log w1' = log w1 ++ evs1 /\ log w2' = log w2 ++ evs2 /\
     stored_rows evs1 = stored_rows evs2 /\
     files w1' !! memmap_path = Some (RawF32 blk) /\
     files w2' !! memmap_path = Some (RawF32 blk)).
Proof.
  intros Hready1 Hready2 Hne Hsize. split.
  - intros l.
    assert (Hsize' : 0 <= size < 2 ^ 50) by lia.
    destruct (create_files_spec l size w1 names Hready1 Hsize')
      as (w1' & Hrun1 & Hc1).
    destruct (create_files_spec l size w2 names Hready2 Hsize')
      as (w2' & Hrun2 & Hc2).
    destruct (created_saved _ _ _ _ _ Hc1) as (evs1 & Hlog1 & Hs1).
    destruct (created_saved _ _ _ _ _ Hc2) as (evs2 & Hlog2 & Hs2).
    exists w1', w2', evs1, evs2. repeat (split; [assumption|]).
    split; [congruence|]. intros name Hin.
    destruct (created_readable _ size names w1 w1' name Hsize' Hc1 Hin)
      as (arr & (_ & _ & Hlook1) & _).
    exists arr. split; [exact Hlook1|].
    destruct Hc1 as (_ & Hf1 & _). destruct Hc2 as (_ & Hf2 & _).
    rewrite Hf2. rewrite Hf1 in Hlook1. rewrite <- Hlook1.
    apply write_all_lookup_indep.
    rewrite writes_locations by exact Hsize'.
    apply list_elem_of_In, in_map, list_elem_of_In, Hin.
  - destruct (memmap_create_rows size w1 names Hready1 Hne ltac:(lia))
      as (w1' & evs1 & Hrun1 & Hlog1 & Hrows1 & Hblk1 & _).
    destruct (memmap_create_rows size w2 names Hready2 Hne ltac:(lia))
      as (w2' & evs2 & Hrun2 & Hlog2 & Hrows2 & Hblk2 & _).
    exists w1', w2', evs1, evs2,
      (concat (generated_rows size (List.length names))).
    repeat (split; [assumption|]). split; [congruence|]. auto.
Qed.

End Determinism.

(** A run of [create_deterministic]: the second state differs from the
    first in the state of the generator and in its log. *)
Lemma create_deterministic_witness :
  let w1 := Examples.listed_world Examples.table_random_state
              [Examples.id_a; Examples.id_b] in
  let w2 := log_event (EvPrint MsgTook) (set_rng (3%nat : @rk_state Examples.table_random_state) w1) in
  ready w1 [Examples.id_a; Examples.id_b] /\
  ready w2 [Examples.id_a; Examples.id_b] /\
  [Examples.id_a; Examples.id_b] <> [] /\ 0 < 4 < 2 ^ 50 /\
  (forall l : layout,
     exists w1' w2' evs1 evs2,
       create_files l 4 w1 = (Ok tt, w1') /\
       create_files l 4 w2 = (Ok tt, w2') /\
       log w1' = log w1 ++ evs1 /\ log w2' = log w2 ++ evs2 /\
       saved evs1 = saved evs2 /\
       forall name, name ∈ [Examples.id_a; Examples.id_b] ->
         exists arr,
           files w1' !! create_location l name = Some (NpyF32 arr) /\
           files w2' !! create_location l name = Some (NpyF32 arr)) /\
  (exists w1' w2' evs1 evs2 blk,
     create_files_memmap 4 w1 = (Ok tt, w1') /\
     create_files_memmap 4 w2 = (Ok tt, w2') /\
     log w1' = log w1 ++ evs1 /\ log w2' = log w2 ++ evs2 /\
     stored_rows evs1 = stored_rows evs2 /\
     files w1' !! memmap_path = Some (RawF32 blk) /\
     files w2' !! memmap_path = Some (RawF32 blk)).
Proof.
  cbv zeta.
  pose proof (listed_world_ready Examples.table_random_state
                [Examples.id_a; Examples.id_b] example_identifiers) as Hr1.
  pose proof (ready_same_fs
                (Examples.listed_world Examples.table_random_state
                   [Examples.id_a; Examples.id_b])
                (log_event (EvPrint MsgTook)
                   (set_rng (3%nat : @rk_state Examples.table_random_state)
                      (Examples.listed_world Examples.table_random_state
                         [Examples.id_a; Examples.id_b])))
                _ eq_refl eq_refl Hr1) as Hr2.
  assert (Hne : [Examples.id_a; Examples.id_b] <> []) by discriminate.
  assert (Hsize : 0 < 4 < 2 ^ 50) by lia.
  split; [exact Hr1|]. split; [exact Hr2|]. split; [exact Hne|].
  split; [exact Hsize|].
  exact (create_deterministic 4 _ _ _ Hr1 Hr2 Hne Hsize).
Defined.

Lemma four_level_spec_identifier name :
  is_identifier name = true ->
  four_level_spec name = Some (four_level_place name).
Proof.
  intros Hid. destruct (identifier_tail name Hid)
    as (front & d3 & d2 & d1 & Hcs & _).
  destruct (four_level_path_long name front _ _ _ Hcs) as [_ Hs].
  unfold four_level_place. rewrite Hs. reflexivity.
Qed.

Section FourLevelClaim.
Context `{RS : RandomState} `{US : UuidSource} `{NS : NumpyStats}.

(** C4. In the four-level layout create and test compute an identifier's
    location by the same expression, so they always agree (also on when it
    fails: a name shorter than three characters raises in both). For a name
    of at least three characters the location is
    [cache/4level/<c1>/<c2>/<c3>/<name>.npy] with [c1] the last character,
    [c2] the second-to-last and [c3] the third-to-last, which is the
    location in the specification's words ([four_level_spec]). For a
    persisted identifier list the create pass writes exactly at these
    locations, in the persisted order, and the test pass that follows loads
    exactly from them, in its access order. *)
Theorem four_level_location (size : Z) (w : world) (names : list string) :
  ready w names -> names <> [] -> 0 <= size < 2 ^ 50 ->
  (forall name, create_four_level_path name = test_four_level_path name) /\
  (forall name front c3 c2 c1,
     list_ascii_of_string name = front ++ [c3; c2; c1] ->
     create_four_level_path name =
       Ok ["cache"; "4level"; String c1 EmptyString; String c2 EmptyString;
           String c3 EmptyString; (name ++ ".npy")]%string /\
     four_level_spec name =
       Some ["cache"; "4level"; String c1 EmptyString; String c2 EmptyString;
             String c3 EmptyString; (name ++ ".npy")]%string) /\
  (forall name, name ∈ names ->
     create_four_level_path name = Ok (four_level_place name) /\
     test_four_level_path name = Ok (four_level_place name) /\
     four_level_spec name = Some (four_level_place name)) /\
  exists w1 w2 evs1 evs2,
    create_files_four_level size w = (Ok tt, w1) /\
    test_four_level size w1 = (Ok tt, w2) /\
    log w1 = log w ++ evs1 /\ log w2 = log w1 ++ evs2 /\
    List.map fst (saved evs1) = List.map four_level_place names /\
    loaded evs2 = filelist_path ::
                  List.map four_level_place (access_order names).
Proof.
  intros Hready Hne Hsize.
  split; [exact four_level_paths_agree|].
  split; [exact four_level_path_long|]. split.
  - intros name Hin.
    pose proof (ready_identifier _ _ _ Hready Hin) as Hid.
    destruct (four_level_identifier name Hid)
      as (d1 & d2 & d3 & _ & _ & _ & Hpath & _).
    split; [exact Hpath|]. split.
    + rewrite <- four_level_paths_agree. exact Hpath.
    + apply four_level_spec_identifier, Hid.
  - destruct (create_then_test FourLevel size w names Hready Hne Hsize)
      as (w1 & w2 & Hrun1 & Hcreated & Hrun2 & Htested).
    destruct (created_saved _ _ _ _ _ Hcreated) as (evs1 & Hlog1 & Hsaved).
    destruct (tested_loaded _ _ _ _ _ Htested) as (evs2 & Hlog2 & Hloaded & _).
    exists w1, w2, evs1, evs2. split; [exact Hrun1|]. split; [exact Hrun2|].
    split; [exact Hlog1|]. split; [exact Hlog2|]. split.
    + rewrite Hsaved. apply (writes_locations four_level_place), Hsize.
    + exact Hloaded.
Qed.

End FourLevelClaim.

(** A run of [four_level_location] with two identifiers. *)
Lemma four_level_location_witness :
  let w := Examples.listed_world Examples.table_random_state
             [Examples.id_a; Examples.id_b] in
  let names := [Examples.id_a; Examples.id_b] in
  ready w names /\ names <> [] /\ 0 <= 2 < 2 ^ 50 /\
  (forall name, create_four_level_path name = test_four_level_path name) /\
  (forall name front c3 c2 c1,
     list_ascii_of_string name = front ++ [c3; c2; c1] ->
     create_four_level_path name =
       Ok ["cache"; "4level"; String c1 EmptyString; String c2 EmptyString;
           String c3 EmptyString; (name ++ ".npy")]%string /\
     four_level_spec name =
       Some ["cache"; "4level"; String c1 EmptyString; String c2 EmptyString;
             String c3 EmptyString; (name ++ ".npy")]%string) /\
  (forall name, name ∈ names ->
     create_four_level_path name = Ok (four_level_place name) /\
     test_four_level_path name = Ok (four_level_place name) /\
     four_level_spec name = Some (four_level_place name)) /\
  exists w1 w2 evs1 evs2,
    create_files_four_level 2 w = (Ok tt, w1) /\
    @test_four_level _ _ Examples.simple_stats 2 w1 = (Ok tt, w2) /\
    log w1 = log w ++ evs1 /\ log w2 = log w1 ++ evs2 /\
    List.map fst (saved evs1) = List.map four_level_place names /\
    loaded evs2 = filelist_path ::
                  List.map four_level_place
                    (@access_order Examples.table_random_state _ names).
Proof.
  cbv zeta.
  pose proof (listed_world_ready Examples.table_random_state
                [Examples.id_a; Examples.id_b] example_identifiers) as Hr.
  assert (Hne : [Examples.id_a; Examples.id_b] <> []) by discriminate.
  assert (Hsize : 0 <= 2 < 2 ^ 50) by lia.
  split; [exact Hr|]. split; [exact Hne|]. split; [exact Hsize|].
  exact (four_level_location (NS := Examples.simple_stats) 2 _ _ Hr Hne Hsize).
Defined.

(** The identifier [id_a] ends in ["abc"]: its four-level location. *)
Example four_level_place_id_a :
  four_level_place Examples.id_a =
  ["cache"; "4level"; "c"; "b"; "a";
   "00000000000000000000000000000abc.npy"]%string.
Proof. reflexivity. Qed.

(** ** Create followed by test, memmap layout *)

Lemma concat_length_uniform {A} (rows : list (list A)) (c : nat) :
  Forall (fun row => List.length row = c) rows ->
  List.length (concat rows) = (List.length rows * c)%nat.
Proof.
  induction 1 as [|row rows Hrow _ IH]; [reflexivity|].
  cbn [concat List.length]. rewrite length_app, Hrow, IH. lia.
Qed.


Section MemmapSymmetry.
Context `{RS : RandomState} `{US : UuidSource} `{NS : NumpyStats}.

Implicit Types (w : world) (names : list string).

Lemma ready_after_memmap w w' names blk :
  ready w names ->
  dirs w' = {[memmap_dir]} ∪ dirs w ->
  files w' !! memmap_path = Some (RawF32 blk) ->
  (forall p, p <> memmap_path -> files w' !! p = files w !! p) ->
  ready w' names.
Proof.
  intros [Hc [Htd Htf] Hl Hi] Hd Hblk Hother. split.
  - rewrite Hd. apply elem_of_union_r, Hc.
  - split.
    + intros p Hp. rewrite Hd in Hp.
      apply elem_of_union in Hp as [Hp | Hp]; [|apply Htd, Hp].
      apply elem_of_singleton in Hp. subst p. reflexivity.
    + intros p f Hp. destruct (decide (p = memmap_path)) as [-> | Hne];
        [reflexivity|].
      rewrite Hother in Hp by exact Hne. apply (Htf p f Hp).
  - rewrite Hother by discriminate. exact Hl.
  - exact Hi.
Qed.

Lemma tested_memmap_fetched size names w w' :
  tested_memmap size names w w' ->
  exists evs, log w' = log w ++ evs /\
    fetched_rows evs = access_order (range (List.length names)) /\
    printed evs =
      [MsgStats
         (amax32 (List.map
                    (fun i => mean32 (block_row (block w memmap_path) size i))
                    (access_order (range (List.length names)))))
         (mean32 (List.map
                    (fun i => mean32 (block_row (block w memmap_path) size i))
                    (access_order (range (List.length names)))))
         (amin32 (List.map
                    (fun i => mean32 (block_row (block w memmap_path) size i))
                    (access_order (range (List.length names)))));
       MsgTook].
Proof.
  unfold tested_memmap. intros (_ & _ & Hlog). eexists.
  split; [exact Hlog|]. split.
  - rewrite !fetched_rows_app, fetched_fetch_events.
    cbn [fetched_rows flat_map app]. unfold stats_event.
    cbn [flat_map app]. apply app_nil_r.
  - rewrite !printed_app, printed_fetch_events. unfold stats_event.
    reflexivity.
Qed.


End MemmapSymmetry.

Section Symmetry.
Context `{RS : RandomState} `{US : UuidSource} `{NS : NumpyStats}.



End Symmetry.




Section Statistics.
Context `{RS : RandomState} `{US : UuidSource} `{NS : NumpyStats}.

(** C6. A read pass over a non-empty persisted identifier list reseeds
    the generator with the fixed seed (the access order is the shuffle from
    [rk_seed 515], whatever state the generator was in), visits the records
    in that order, which is a permutation of the identifier sequence
    (per-file layouts) or of the index sequence [0 .. COUNT-1] (memmap),
    loading each record once and taking one mean per record, and then
    prints the maximum, the mean and the minimum of exactly these COUNT
    per-record means.  Each pass asks only for its own records: a per-file
    pass for the files of its layout, whether or not there is a memmap
    block; the memmap pass for a block that holds COUNT * SIZE values,
    whether or not there are per-file records. *)
Theorem read_pass_statistics (l : layout) (size : Z) (w : world)
    (names : list string) :
  ready w names -> names <> [] ->
  ((forall x, x ∈ names -> exists arr, readable w (test_location l x) arr) ->
   exists w' evs,
     test_files l size w = (Ok tt, w') /\ log w' = log w ++ evs /\
     let order := fst (shuffle names (rk_seed 515)) in
     let means :=
       List.map (fun name => mean32 (stored w (test_location l name))) order in
     order ≡ₚ names /\
     loaded evs = filelist_path :: List.map (test_location l) order /\
     List.length means = List.length names /\
     printed evs =
       [banner_message l;
        MsgStats (amax32 means) (mean32 means) (amin32 means); MsgTook]) /\
  (forall xs,
     0 < size -> memmap_dir ∈ dirs w ->
     files w !! memmap_path = Some (RawF32 xs) ->
     Z.of_nat (List.length names) * size <= Z.of_nat (List.length xs) ->
     exists w' evs,
       test_memmap size w = (Ok tt, w') /\ log w' = log w ++ evs /\
       let order := fst (shuffle (range (List.length names)) (rk_seed 515)) in
       let means := List.map (fun i => mean32 (block_row xs size i)) order in
       order ≡ₚ range (List.length names) /\
       fetched_rows evs = order /\
       List.length means = List.length names /\
       printed evs =
         [MsgStats (amax32 means) (mean32 means) (amin32 means); MsgTook]).
Proof.
  intros Hready Hne. split.
  - intros Hfiles.
    destruct (test_files_spec l size w names Hready Hne Hfiles)
      as (w' & Hrun & Htested).
    destruct (tested_loaded _ _ _ _ _ Htested)
      as (evs & Hlog & Hloaded & Hprinted).
    exists w', evs. split; [exact Hrun|]. split; [exact Hlog|]. cbv zeta.
    split; [apply shuffle_Permutation|]. split; [exact Hloaded|].
    split; [|exact Hprinted].
    rewrite length_map. apply Permutation_length, shuffle_Permutation.
  - intros xs Hsize Hdir Hblk Hfits.
    destruct (test_memmap_spec size w names xs Hready Hne Hsize Hdir Hblk
                Hfits) as (w' & Hrun & Htested).
    destruct (tested_memmap_fetched _ _ _ _ Htested)
      as (evs & Hlog & Hfetched & Hprinted).
    exists w', evs. split; [exact Hrun|]. split; [exact Hlog|]. cbv zeta.
    split; [apply shuffle_Permutation|]. split; [exact Hfetched|].
    unfold block in Hprinted. rewrite Hblk in Hprinted.
    split; [|exact Hprinted].
    rewrite length_map.
    rewrite (Permutation_length (shuffle_Permutation _ _)).
    unfold range. rewrite length_map, length_seq. reflexivity.
Qed.

(** The store a per-file create pass leaves has the records of its layout
    and differs from the one before at the locations of the layout only. *)
Lemma layout_created (l : layout) (size : Z) (w : world)
    (names : list string) :
  ready w names -> 0 <= size < 2 ^ 50 ->
  let w1 := snd (create_files l size w) in
  ready w1 names /\
  (forall x, x ∈ names -> exists arr, readable w1 (test_location l x) arr) /\
  (forall p, (forall x, x ∈ names -> p <> create_location l x) ->
             files w1 !! p = files w !! p).
Proof.
  intros Hready Hsize. cbv zeta.
  destruct (create_files_spec l size w names Hready Hsize)
    as (w1 & Hrun1 & Hcreated).
  rewrite Hrun1. cbn [snd].
  pose proof Hcreated as (_ & Hfiles & _ & Hready1 & _).
  split; [exact Hready1|]. split.
  - intros x Hx.
    destruct (created_readable _ size names w w1 x Hsize Hcreated Hx)
      as (arr & Hr & _).
    exists arr. rewrite <- locations_agree. exact Hr.
  - intros p Hp. rewrite Hfiles. apply write_all_lookup_notin.
    intros Hin. apply list_elem_of_In, in_map_iff in Hin
      as ([q f] & Hq & Hin).
    cbn [fst] in Hq. subst q. unfold writes in Hin.
    apply in_combine_l, in_map_iff in Hin as (name & Hname & Hin).
    apply list_elem_of_In in Hin. apply (Hp name Hin). symmetry. exact Hname.
Qed.

(** The store the memmap create pass leaves has the block and no more
    per-file records than before. *)
Lemma memmap_created (size : Z) (w : world) (names : list string) :
  ready w names -> names <> [] -> 0 < size ->
  let w1 := snd (create_files_memmap size w) in
  ready w1 names /\ memmap_dir ∈ dirs w1 /\
  files w1 !! memmap_path = Some (RawF32 (block w1 memmap_path)) /\
  Z.of_nat (List.length names) * size
  <= Z.of_nat (List.length (block w1 memmap_path)) /\
  (forall p, p <> memmap_path -> files w1 !! p = files w !! p).
Proof.
  intros Hready Hne Hsize. cbv zeta.
  destruct (memmap_create_rows size w names Hready Hne Hsize)
    as (w1 & evs & Hrun & _ & _ & Hblk & Hdirs & Hother).
  rewrite Hrun. cbn [snd].
  pose proof (ready_after_memmap w w1 names _ Hready Hdirs Hblk Hother)
    as Hready1.
  destruct (memmap_rows_spec size (List.length names) (rk_seed 515))
    as [Hlen Huniform].
  fold (generated_rows size (List.length names)) in Hlen, Huniform.
  split; [exact Hready1|]. split; [|split; [|split]].
  - rewrite Hdirs. apply elem_of_union_l, elem_of_singleton. reflexivity.
  - unfold block. rewrite Hblk. reflexivity.
  - unfold block. rewrite Hblk.
    rewrite (concat_length_uniform _ _ Huniform), Hlen. nia.
  - exact Hother.
Qed.

(** A store that has both the flat files and the memmap block: the flat
    create pass followed by the memmap create pass. *)
Lemma both_created (size : Z) (w : world) (names : list string) :
  ready w names -> names <> [] -> 0 < size < 2 ^ 50 ->
  let w2 := snd (create_files_memmap size (snd (create_files Flat size w))) in
  ready w2 names /\
  (forall x, x ∈ names -> exists arr, readable w2 (test_location Flat x) arr) /\
  memmap_dir ∈ dirs w2 /\
  files w2 !! memmap_path = Some (RawF32 (block w2 memmap_path)) /\
  Z.of_nat (List.length names) * size
  <= Z.of_nat (List.length (block w2 memmap_path)).
Proof.
  intros Hready Hne Hsize. cbv zeta.
  assert (Hsize' : 0 <= size < 2 ^ 50) by lia.
  destruct (create_files_spec Flat size w names Hready Hsize')
    as (w1 & Hrun1 & Hcreated).
  rewrite Hrun1. cbn [snd].
  pose proof Hcreated as (_ & _ & _ & Hready1 & _).
  destruct (memmap_create_rows size w1 names Hready1 Hne ltac:(lia))
    as (w2 & evs & Hrun2 & _ & _ & Hblk & Hdirs & Hother).
  rewrite Hrun2. cbn [snd].
  pose proof (ready_after_memmap w1 w2 names _ Hready1 Hdirs Hblk Hother)
    as Hready2.
  destruct (memmap_rows_spec size (List.length names) (rk_seed 515))
    as [Hlen Huniform].
  fold (generated_rows size (List.length names)) in Hlen, Huniform.
  split; [exact Hready2|]. split; [|split; [|split]].
  - intros x Hx.
    destruct (created_readable _ size names w w1 x Hsize' Hcreated Hx)
      as (arr & (Hres & Hnd & Hlook) & _).
    exists arr. split; [|split].
    + apply resolve_parent_mono with w1; [|exact Hres].
      rewrite Hdirs. apply union_subseteq_r.
    + destruct Hready2 as [_ Ht2 _ _]. destruct Hready1 as [_ [_ Htf1] _ _].
      apply typed_not_dir; [exact Ht2|]. apply (Htf1 _ _ Hlook).
    + rewrite Hother by discriminate. exact Hlook.
  - rewrite Hdirs. apply elem_of_union_l, elem_of_singleton. reflexivity.
  - unfold block. rewrite Hblk. reflexivity.
  - unfold block. rewrite Hblk.
    rewrite (concat_length_uniform _ _ Huniform), Hlen. nia.
Qed.

End Statistics.

(** Two runs of [read_pass_statistics] for two identifiers and size 3:
    the flat read pass on the store left by the flat create pass alone,
    where there is no memmap block, and the memmap read pass on the store
    left by the memmap create pass alone, where there is no flat record. *)
Lemma read_pass_statistics_witness :
  let names := [Examples.id_a; Examples.id_b] in
  let w0 := Examples.listed_world Examples.table_random_state names in
  let wf := snd (create_files Flat 3 w0) in
  let wm := snd (create_files_memmap 3 w0) in
  let xs := block wm memmap_path in
  (ready wf names /\ names <> [] /\
   (forall x, x ∈ names ->
      exists arr, readable wf (test_location Flat x) arr) /\
   files wf !! memmap_path = None /\
   exists w' evs,
     @test_files _ _ Examples.simple_stats Flat 3 wf = (Ok tt, w') /\
     log w' = log wf ++ evs /\
     let order := fst (shuffle names
                         (@rk_seed Examples.table_random_state 515)) in
     let means :=
       List.map (fun name =>
                   @mean32 Examples.simple_stats
                     (stored wf (test_location Flat name))) order in
     order ≡ₚ names /\
     loaded evs = filelist_path :: List.map (test_location Flat) order /\
     List.length means = List.length names /\
     printed evs =
       [banner_message Flat;
        MsgStats (@amax32 Examples.simple_stats means)
                 (@mean32 Examples.simple_stats means)
                 (@amin32 Examples.simple_stats means); MsgTook]) /\
  (ready wm names /\ names <> [] /\ 0 < 3 /\
   (memmap_dir ∈ dirs wm) /\
   files wm !! memmap_path = Some (RawF32 xs) /\
   Z.of_nat (List.length names) * 3 <= Z.of_nat (List.length xs) /\
   (forall x, files wm !! test_location Flat x = None) /\
   exists w' evs,
     @test_memmap _ _ Examples.simple_stats 3 wm = (Ok tt, w') /\
     log w' = log wm ++ evs /\
     let order := fst (shuffle (range (List.length names))
                         (@rk_seed Examples.table_random_state 515)) in
     let means :=
       List.map (fun i => @mean32 Examples.simple_stats (block_row xs 3 i))
                order in
     order ≡ₚ range (List.length names) /\
     fetched_rows evs = order /\
     List.length means = List.length names /\
     printed evs =
       [MsgStats (@amax32 Examples.simple_stats means)
                 (@mean32 Examples.simple_stats means)
                 (@amin32 Examples.simple_stats means); MsgTook]).
Proof.
  cbv zeta.
  pose proof (listed_world_ready Examples.table_random_state
                [Examples.id_a; Examples.id_b] example_identifiers) as Hr.
  assert (Hne : [Examples.id_a; Examples.id_b] <> []) by discriminate.
  assert (Hsize : 0 < 3) by lia.
  destruct (layout_created Flat 3 _ _ Hr ltac:(lia))
    as (Hreadyf & Hfiles & Hnoblock).
  destruct (memmap_created 3 _ _ Hr Hne Hsize)
    as (Hreadym & Hdir & Hblk & Hfits & Hother).
  split.
  - split; [exact Hreadyf|]. split; [exact Hne|]. split; [exact Hfiles|].
    split.
    { rewrite Hnoblock; [apply lookup_singleton_ne; discriminate|].
      intros x _ Heq. discriminate Heq. }
    exact (proj1 (read_pass_statistics (NS := Examples.simple_stats) Flat 3
                    _ _ Hreadyf Hne) Hfiles).
  - split; [exact Hreadym|]. split; [exact Hne|]. split; [exact Hsize|].
    split; [exact Hdir|]. split; [exact Hblk|]. split; [exact Hfits|].
    split.
    { intros x. rewrite Hother by discriminate.
      apply lookup_singleton_ne. discriminate. }
    exact (proj2 (read_pass_statistics (NS := Examples.simple_stats) Flat 3
                    _ _ Hreadym Hne) _ Hsize Hdir Hblk Hfits).
Defined.

Section MemmapShape.
Context `{RS : RandomState} `{US : UuidSource} `{NS : NumpyStats}.

Implicit Types (w : world) (names : list string).

(** The read pass on a block that holds fewer values than the declared
    shape needs: the whole run. *)
Lemma test_memmap_small_run size w names xs :
  ready w names -> names <> [] -> 0 < size -> memmap_dir ∈ dirs w ->
  files w !! memmap_path = Some (RawF32 xs) ->
  Z.of_nat (List.length xs) < Z.of_nat (List.length names) * size ->
  test_memmap size w =
    (Raise ValueError,
     log_events [EvLoad filelist_path;
                 EvMemmapOpen memmap_path ModeRead
                   (Z.of_nat (List.length names)) size] w).
Proof.
  intros Hready Hne Hsize Hdir Hfile Hsmall.
  set (n := List.length names) in *.
  assert (Hn : (0 < n)%nat) by (destruct names; [contradiction | cbn; lia]).
  set (w1 := log_event (EvLoad filelist_path) w).
  set (w2 := log_event (EvMemmapOpen memmap_path ModeRead (Z.of_nat n) size)
               w1).
  destruct (memmap_location w names Hready Hdir) as [Hres Hnd].
  unfold test_memmap.
  rewrite (bind_ok _ _ w names w1) by (apply load_filelist_ok, Hready).
  fold n. rewrite (bind_raise _ _ w1 ValueError w2).
  { unfold w2, w1, log_event, log_events. cbn [dirs files np_random
      os_entropy log]. rewrite <- app_assoc. reflexivity. }
  unfold np_memmap. rewrite (bind_ok _ _ w1 tt w2) by reflexivity.
  rewrite (bind_ok _ _ w2 (RawF32 xs) w2).
  2:{ unfold open_for_read.
      rewrite (resolve_parent_ext w2 w) by reflexivity.
      change (is_dir w2 memmap_path) with (is_dir w memmap_path).
      change (files w2) with (files w). rewrite Hres, Hnd, Hfile.
      reflexivity. }
  replace ((Z.of_nat n <? 0) || (size <? 0) || (Z.of_nat n * size =? 0))
    with false by (symmetry; apply orb_false_intro;
                   [apply orb_false_intro|]; lia).
  replace (Z.of_nat (List.length xs) <? Z.of_nat n * size) with true by lia.
  reflexivity.
Qed.

(** C7. The memmap read pass reopens the block read-only at the declared
    shape (COUNT, size), COUNT being the length of the persisted identifier
    list.  The block is a headerless file: it carries no shape, and nothing
    in the pass compares shapes.  For a non-empty identifier list, a
    positive size and a block file that exists in [cache/memmap]: the pass
    fails, with numpy's [ValueError], exactly when the block holds fewer
    than COUNT * size values, leaving the files as they were; when the
    block holds at least COUNT * size values the pass runs to the end,
    whatever shape the block was created with. *)
Theorem test_memmap_size_check (size : Z) (w : world)
    (names : list string) (xs : list spec_float) :
  ready w names -> names <> [] -> 0 < size -> memmap_dir ∈ dirs w ->
  files w !! memmap_path = Some (RawF32 xs) ->
  let n := Z.of_nat (List.length names) in
  let opening :=
    [EvLoad filelist_path; EvMemmapOpen memmap_path ModeRead n size] in
  (Z.of_nat (List.length xs) < n * size ->
   exists w', test_memmap size w = (Raise ValueError, w') /\
              files w' = files w /\ log w' = log w ++ opening) /\
  (n * size <= Z.of_nat (List.length xs) ->
   exists w' evs, test_memmap size w = (Ok tt, w') /\
                  files w' = files w /\
                  log w' = log w ++ opening ++ evs /\
                  forallb (fun e => negb (is_setup e)) evs = true).
Proof.
  intros Hready Hne Hsize Hdir Hfile. cbv zeta. split.
  - intros Hsmall. eexists. split.
    + apply (test_memmap_small_run size w names xs); assumption.
    + split; reflexivity.
  - intros Hfits.
    destruct (test_memmap_spec size w names xs Hready Hne Hsize Hdir Hfile
                Hfits) as (w' & Hrun & Hfiles & _ & Hlog).
    eexists w', _. split; [exact Hrun|]. split; [exact Hfiles|].
    split; [exact Hlog|].
    rewrite forallb_app. apply andb_true_intro. split; [|reflexivity].
    apply forallb_forall. intros e He. apply in_map_iff in He.
    destruct He as (i & <- & _). reflexivity.
Qed.

(** A block created with [size_c] columns is accepted by a read pass
    that declares fewer columns. *)
Lemma memmap_narrower_read size_c size_t w names :
  ready w names -> names <> [] -> 0 < size_t <= size_c ->
  let w1 := snd (create_files_memmap size_c w) in
  fst (create_files_memmap size_c w) = Ok tt /\
  In (EvMemmapOpen memmap_path ModeWritePlus
        (Z.of_nat (List.length names)) size_c) (log w1) /\
  Z.of_nat (List.length (block w1 memmap_path))
  = Z.of_nat (List.length names) * size_c /\
  fst (test_memmap size_t w1) = Ok tt.
Proof.
  intros Hready Hne Hsize. cbv zeta.
  destruct (create_files_memmap_spec size_c w names Hready Hne ltac:(lia))
    as (w1 & Hrun & Hfiles & Hdirs & _ & Hlog).
  rewrite Hrun. cbn [fst snd].
  assert (Hblk : files w1 !! memmap_path =
            Some (RawF32 (concat (generated_rows size_c
                                    (List.length names))))).
  { rewrite Hfiles. apply lookup_insert_eq. }
  assert (Hother : forall p, p <> memmap_path ->
                             files w1 !! p = files w !! p).
  { intros p Hp. rewrite Hfiles. apply lookup_insert_ne. congruence. }
  pose proof (ready_after_memmap w w1 names _ Hready Hdirs Hblk Hother)
    as Hready1.
  destruct (memmap_rows_spec size_c (List.length names) (rk_seed 515))
    as [Hlen Huniform].
  fold (generated_rows size_c (List.length names)) in Hlen, Huniform.
  assert (Hcount : Z.of_nat (List.length (block w1 memmap_path))
                   = Z.of_nat (List.length names) * size_c).
  { unfold block. rewrite Hblk.
    rewrite (concat_length_uniform _ _ Huniform), Hlen. nia. }
  split; [reflexivity|]. split; [|split; [exact Hcount|]].
  - rewrite Hlog. apply in_or_app. right. right. right. left. reflexivity.
  - assert (Hdir : memmap_dir ∈ dirs w1).
    { rewrite Hdirs. apply elem_of_union_l, elem_of_singleton. reflexivity. }
    unfold block in Hcount. rewrite Hblk in Hcount.
    destruct (test_memmap_spec size_t w1 names _ Hready1 Hne ltac:(lia)
                Hdir Hblk ltac:(nia)) as (w2 & Hrun2 & _).
    rewrite Hrun2. reflexivity.
Qed.

End MemmapShape.

(** A block created at shape (2, 8) and read at the declared shape (2, 4):
    the shapes differ and the read pass succeeds. *)
Lemma test_memmap_accepts_other_shape :
  let names := [Examples.id_a; Examples.id_b] in
  let w := Examples.listed_world Examples.table_random_state names in
  let w1 := snd (create_files_memmap 8 w) in
  fst (create_files_memmap 8 w) = Ok tt /\
  In (EvMemmapOpen memmap_path ModeWritePlus 2 8) (log w1) /\
  Z.of_nat (List.length (block w1 memmap_path)) = 2 * 8 /\
  (2, 4) <> (2, 8) /\
  fst (@test_memmap _ _ Examples.simple_stats 4 w1) = Ok tt.
Proof.
  cbv zeta.
  pose proof (listed_world_ready Examples.table_random_state
                [Examples.id_a; Examples.id_b] example_identifiers) as Hr.
  assert (Hne : [Examples.id_a; Examples.id_b] <> []) by discriminate.
  destruct (memmap_narrower_read (NS := Examples.simple_stats) 8 4 _ _ Hr Hne
              ltac:(lia)) as (Hrun & Hopen & Hcount & Htest).
  split; [exact Hrun|]. split; [exact Hopen|]. split; [exact Hcount|].
  split; [discriminate | exact Htest].
Qed.

(** [test_memmap_size_check] on the block the memmap create pass leaves for
    two identifiers with 3 columns: a read at 3 columns runs, a read at 4
    columns raises. *)
Lemma test_memmap_size_check_witness :
  let names := [Examples.id_a; Examples.id_b] in
  let w := snd (create_files_memmap 3
                  (snd (create_files Flat 3
                          (Examples.listed_world Examples.table_random_state
                             names)))) in
  let xs := block w memmap_path in
  ready w names /\ names <> [] /\ 0 < 4 /\ (memmap_dir ∈ dirs w) /\
  files w !! memmap_path = Some (RawF32 xs) /\
  let n := Z.of_nat (List.length names) in
  let opening :=
    [EvLoad filelist_path; EvMemmapOpen memmap_path ModeRead n 4] in
  (Z.of_nat (List.length xs) < n * 4 ->
   exists w', @test_memmap _ _ Examples.simple_stats 4 w
              = (Raise ValueError, w') /\
              files w' = files w /\ log w' = log w ++ opening) /\
  (n * 4 <= Z.of_nat (List.length xs) ->
   exists w' evs, @test_memmap _ _ Examples.simple_stats 4 w = (Ok tt, w') /\
                  files w' = files w /\
                  log w' = log w ++ opening ++ evs /\
                  forallb (fun e => negb (is_setup e)) evs = true).
Proof.
  cbv zeta.
  pose proof (listed_world_ready Examples.table_random_state
                [Examples.id_a; Examples.id_b] example_identifiers) as Hr.
  assert (Hne : [Examples.id_a; Examples.id_b] <> []) by discriminate.
  destruct (both_created 3 _ _ Hr Hne ltac:(lia))
    as (Hready & _ & Hdir & Hblk & _).
  assert (Hsize : 0 < 4) by lia.
  split; [exact Hready|]. split; [exact Hne|]. split; [exact Hsize|].
  split; [exact Hdir|]. split; [exact Hblk|].
  exact (test_memmap_size_check (NS := Examples.simple_stats) 4 _ _ _
           Hready Hne Hsize Hdir Hblk).
Defined.

Section Dispatch.
Context `{RS : RandomState} `{US : UuidSource} `{NS : NumpyStats}
  `{PE : PyEval}.

Implicit Types (w : world) (a : arguments).

Lemma script_init a c w :
  arg_init a = true -> arg_COUNT a = Some c ->
  is_file w ["cache"%string] = false ->
  script a w =
    bind (eval c)
         (fun v => bind (lift (py_int v)) (fun n => create_filelist n))
         (before_eval a w).
Proof.
  intros Hinit Hcount Hfile. unfold script.
  rewrite (bind_ok _ _ w tt
             (add_dir ["cache"%string]
                (log_event (EvMkdir ["cache"%string]) w))).
  2:{ apply path_mkdir_ok; [discriminate | reflexivity | exact Hfile]. }
  unfold main.
  rewrite (bind_ok _ _ _ tt (before_eval a w)) by reflexivity.
  rewrite Hinit, Hcount. reflexivity.
Qed.

Lemma script_init_eval_raises a c w e w1 :
  arg_init a = true -> arg_COUNT a = Some c ->
  is_file w ["cache"%string] = false ->
  eval c (before_eval a w) = (Raise e, w1) -> script a w = (Raise e, w1).
Proof.
  intros Hinit Hcount Hfile He.
  rewrite (script_init a c w Hinit Hcount Hfile).
  apply bind_raise. exact He.
Qed.

Lemma to_int_truncates s m e :
  Float.to_int (S754_finite s m e) =
    Ok (if 0 <=? e then cond_Zopp s (Z.pos m) * 2 ^ e
        else Z.quot (cond_Zopp s (Z.pos m)) (2 ^ (- e))).
Proof.
  cbn [Float.to_int]. f_equal. destruct (0 <=? e) eqn:He.
  - destruct s; cbn [cond_Zopp]; lia.
  - assert (Hpow : 0 < 2 ^ (- e)) by (apply Z.pow_pos_nonneg; lia).
    destruct s; cbn [cond_Zopp].
    + rewrite Z.quot_opp_l by lia.
      rewrite Z.quot_div_nonneg by lia. reflexivity.
    + rewrite Z.quot_div_nonneg by lia. reflexivity.
Qed.

(** C8. An [init] run first creates the cache directory (the module-level
    [mkdir], which tolerates an existing directory) and prints the parsed
    arguments; only then is COUNT given to [eval], which runs on the state
    [w0] reached by then and may change it, and the value to [int].  When
    [eval] raises, the run ends with that very exception in the state
    [eval] left; when [int] rejects the value, with the exception of [int],
    again in the state [eval] left.  When [eval] returns a value that
    [int] accepts, the identifier list is made for that integer from the
    state [eval] left: an integer value is taken as it is, a finite float
    is truncated toward zero. *)
Theorem init_count_evaluated (a : arguments) (c : string) (w : world) :
  arg_init a = true -> arg_COUNT a = Some c ->
  is_file w ["cache"%string] = false ->
  let w0 := before_eval a w in
  (files w0 = files w /\ dirs w0 = {[ ["cache"%string] ]} ∪ dirs w /\
   log w0 = log w ++ [EvMkdir ["cache"%string]; EvPrint (MsgArguments a)]) /\
  (forall e w1, eval c w0 = (Raise e, w1) -> script a w = (Raise e, w1)) /\
  (forall v e w1, eval c w0 = (Ok v, w1) -> py_int v = Raise e ->
                  script a w = (Raise e, w1)) /\
  (forall v n w1, eval c w0 = (Ok v, w1) -> py_int v = Ok n ->
                  script a w = create_filelist n w1) /\
  (forall z, py_int (PyInt z) = Ok z) /\
  (forall s m e,
     py_int (PyFloat (S754_finite s m e)) =
       Ok (if 0 <=? e then cond_Zopp s (Z.pos m) * 2 ^ e
           else Z.quot (cond_Zopp s (Z.pos m)) (2 ^ (- e)))).
Proof.
  intros Hinit Hcount Hfile. cbv zeta.
  split; [|split; [|split; [|split; [|split]]]].
  - split; [reflexivity|]. split; [reflexivity|].
    unfold before_eval, log_event, add_dir. cbn [log].
    rewrite <- app_assoc. reflexivity.
  - intros e w1 He. apply (script_init_eval_raises a c w e w1); assumption.
  - intros v e w1 Hv He. rewrite (script_init a c w Hinit Hcount Hfile).
    rewrite (bind_ok _ _ _ v w1) by exact Hv.
    apply bind_raise. unfold lift. rewrite He. reflexivity.
  - intros v n w1 Hv Hn. rewrite (script_init a c w Hinit Hcount Hfile).
    rewrite (bind_ok _ _ _ v w1) by exact Hv.
    rewrite (bind_ok _ _ _ n w1)
      by (unfold lift; rewrite Hn; reflexivity).
    reflexivity.
  - reflexivity.
  - intros s m e. apply to_int_truncates.
Qed.

End Dispatch.

(** [init abc] from an empty store: the run aborts at [eval], and by then
    the cache directory has been created and the arguments printed. *)
Lemma init_makes_cache_before_abort :
  let a := Examples.init_arguments "abc" in
  let w := Examples.fresh_world Examples.table_random_state in
  let run := @script _ _ Examples.simple_stats Examples.literal_builtins
               a w in
  fst run = Raise (EvalError "abc") /\
  (["cache"%string] ∉ dirs w) /\
  (["cache"%string] ∈ dirs (snd run)) /\
  log w = [] /\
  log (snd run) = [EvMkdir ["cache"%string]; EvPrint (MsgArguments a)].
Proof.
  cbv zeta.
  rewrite (script_init_eval_raises (NS := Examples.simple_stats)
             (PE := Examples.literal_builtins)
             (Examples.init_arguments "abc") "abc"
             (Examples.fresh_world Examples.table_random_state)
             (EvalError "abc") (before_eval _ _)) by reflexivity.
  cbn [fst snd]. split; [reflexivity|]. split; [apply not_elem_of_empty|].
  split; [|split; reflexivity].
  unfold before_eval, add_dir, log_event. cbn [dirs].
  apply elem_of_union_l, elem_of_singleton. reflexivity.
Qed.

(** [init "create_filelist(3) or 1/0"] from an empty store: the run
    aborts inside [eval], after the evaluated expression has written a
    list of three identifiers. *)
Lemma init_expression_writes_before_abort :
  let a := Examples.init_arguments "create_filelist(3) or 1/0" in
  let w := Examples.fresh_world Examples.table_random_state in
  let run := @script _ _ Examples.simple_stats Examples.namespace_builtins
               a w in
  fst run = Raise (EvalError "division by zero") /\
  files w = ∅ /\
  exists names,
    files (snd run) !! filelist_path = Some (NpyStr names) /\
    List.length names = 3%nat.
Proof.
  cbv zeta. split; [vm_compute; reflexivity|]. split; [reflexivity|].
  eexists. split; [vm_compute; reflexivity | reflexivity].
Qed.

(** [init 3e5] from an empty store: COUNT evaluates to the float 300000.0
    and the identifier list is made for 300000. *)
Lemma init_count_evaluated_witness :
  let a := Examples.init_arguments "3e5" in
  let w := Examples.fresh_world Examples.table_random_state in
  arg_init a = true /\ arg_COUNT a = Some "3e5"%string /\
  is_file w ["cache"%string] = false /\
  @eval Examples.literal_builtins _ _ "3e5" (before_eval a w)
  = (Ok (PyFloat (Float.lit 300000)), before_eval a w) /\
  @py_int Examples.literal_builtins (PyFloat (Float.lit 300000))
  = Ok 300000 /\
  @script _ _ Examples.simple_stats Examples.literal_builtins a w
  = create_filelist 300000 (before_eval a w).
Proof.
  cbv zeta.
  set (a := Examples.init_arguments "3e5").
  set (w := Examples.fresh_world Examples.table_random_state).
  assert (Hinit : arg_init a = true) by reflexivity.
  assert (Hcount : arg_COUNT a = Some "3e5"%string) by reflexivity.
  assert (Hfile : is_file w ["cache"%string] = false) by reflexivity.
  assert (Hv : @eval Examples.literal_builtins _ _ "3e5" (before_eval a w)
               = (Ok (PyFloat (Float.lit 300000)), before_eval a w)).
  { cbn [eval Examples.literal_builtins]. f_equal; vm_compute; reflexivity. }
  assert (Hn : @py_int Examples.literal_builtins (PyFloat (Float.lit 300000))
               = Ok 300000) by (vm_compute; reflexivity).
  split; [exact Hinit|]. split; [exact Hcount|]. split; [exact Hfile|].
  split; [exact Hv|]. split; [exact Hn|].
  exact (proj1 (proj2 (proj2 (proj2
           (init_count_evaluated (NS := Examples.simple_stats)
              (PE := Examples.literal_builtins) a "3e5" w
              Hinit Hcount Hfile)))) _ _ _ Hv Hn).
Defined.

Section Traces.
Context `{RS : RandomState} `{US : UuidSource} `{NS : NumpyStats}.

Implicit Types (w : world) (Q : event -> bool).

Lemma adds_silent {A} Q (m : M A) :
  (forall w, log (snd (m w)) = log w) -> adds Q m.
Proof.
  intros H w. exists []. rewrite app_nil_r. split; [apply H | reflexivity].
Qed.

Lemma adds_ret {A} Q (a : A) : adds Q (ret a).
Proof. apply adds_silent. reflexivity. Qed.

Lemma adds_raise {A} Q e : adds Q (raise (A := A) e).
Proof. apply adds_silent. reflexivity. Qed.

Lemma adds_lift {A} Q (r : result A) : adds Q (lift r).
Proof. apply adds_silent. reflexivity. Qed.

Lemma adds_emit Q e : Q e = true -> adds Q (emit e).
Proof.
  intros H w. exists [e]. split; [reflexivity|]. cbn. rewrite H. reflexivity.
Qed.

Lemma adds_bind {A B} Q (m : M A) (k : A -> M B) :
  adds Q m -> (forall a, adds Q (k a)) -> adds Q (bind m k).
Proof.
  intros Hm Hk w. unfold bind. destruct (Hm w) as (evs & Hlog & HQ).
  destruct (m w) as [[a | e] w1]; cbn [snd] in Hlog.
  - destruct (Hk a w1) as (evs' & Hlog' & HQ').
    exists (evs ++ evs'). split.
    + rewrite Hlog', Hlog, app_assoc. reflexivity.
    + rewrite forallb_app, HQ, HQ'. reflexivity.
  - exists evs. split; [exact Hlog | exact HQ].
Qed.

Lemma adds_for_collect {A B} Q (xs : list A) (f : A -> M B) :
  (forall x, adds Q (f x)) -> adds Q (for_collect xs f).
Proof.
  intros H. induction xs as [|x xs IH]; cbn [for_collect].
  - apply adds_ret.
  - apply adds_bind; [apply H | intros y].
    apply adds_bind; [exact IH | intros ys; apply adds_ret].
Qed.

Lemma adds_open_for_read Q p : adds Q (open_for_read p).
Proof.
  apply adds_silent. intros w. unfold open_for_read.
  destruct (resolve_parent w p); [reflexivity|].
  destruct (is_dir w p); [reflexivity|].
  destruct (files w !! p); reflexivity.
Qed.

Lemma adds_open_for_write Q p : adds Q (open_for_write p).
Proof.
  apply adds_silent. intros w. unfold open_for_write.
  destruct (resolve_parent w p); [reflexivity|].
  destruct (is_dir w p); reflexivity.
Qed.

Lemma adds_load_filelist Q :
  Q (EvLoad filelist_path) = true -> adds Q load_filelist.
Proof.
  intros H. unfold load_filelist, np_load.
  apply adds_bind.
  - apply adds_bind; [apply adds_emit, H | intros _; apply adds_open_for_read].
  - intros [names | xs | xs]; [apply adds_ret | apply adds_raise ..].
Qed.

Lemma adds_np_memmap Q p mode rows cols :
  Q (EvMemmapOpen p mode rows cols) = true ->
  adds Q (np_memmap p mode rows cols).
Proof.
  intros H. unfold np_memmap. apply adds_bind; [apply adds_emit, H|].
  intros _. destruct mode.
  - apply adds_bind; [apply adds_open_for_write | intros _].
    apply adds_bind; [apply adds_silent; reflexivity | intros _].
    destruct ((rows <? 0) || (cols <? 0) || (rows * cols =? 0));
      [|apply adds_silent; reflexivity].
    unfold map_unusual_write.
    destruct (rows * cols <? 0); [apply adds_raise|].
    destruct (rows * cols =? 0); [apply adds_raise|].
    apply adds_bind; [apply adds_silent; reflexivity | intros _].
    apply adds_raise.
  - apply adds_bind; [apply adds_open_for_read | intros f].
    destruct ((rows <? 0) || (cols <? 0) || (rows * cols =? 0)).
    { unfold map_unusual_read.
      destruct (rows * cols <? 0); [apply adds_raise|].
      destruct ((rows <? 0) || (cols <? 0)); [apply adds_raise|].
      destruct f as [names | xs | [|x xs]];
        first [apply adds_raise | apply adds_ret]. }
    destruct f as [names | xs | xs]; try apply adds_raise.
    destruct (Z.of_nat (List.length xs) <? rows * cols);
      [apply adds_raise | apply adds_ret].
Qed.

Lemma adds_np_random_shuffle {A} Q (l : list A) :
  adds Q (np_random_shuffle l).
Proof.
  apply adds_silent. intros w. unfold np_random_shuffle.
  destruct (shuffle l (np_random w)); reflexivity.
Qed.

Lemma adds_memmap_fetch Q mm i :
  Q (EvMemmapFetch (mm_path mm) i) = true -> adds Q (memmap_fetch mm i).
Proof.
  intros H. unfold memmap_fetch. apply adds_bind; [apply adds_emit, H|].
  intros _. apply adds_bind; [apply adds_lift | intros i'].
  apply adds_silent. intros w.
  destruct (files w !! mm_path mm) as [[names | xs | xs]|]; reflexivity.
Qed.

Lemma adds_report Q means :
  (forall m, Q (EvPrint m) = true) -> adds Q (report means).
Proof.
  intros H. unfold report, np_max, np_min.
  apply adds_bind; [destruct means; [apply adds_raise | apply adds_ret]|].
  intros mx.
  apply adds_bind; [destruct means; [apply adds_raise | apply adds_ret]|].
  intros mn. apply adds_bind; [apply adds_emit, H | intros _].
  apply adds_emit, H.
Qed.

(** Whatever the state and the size, and however the run ends, the memmap
    read pass neither stores into the mapping nor flushes it. *)
Lemma test_memmap_adds size :
  adds (fun e => negb (is_store e) && negb (is_flush e))
       (test_memmap size).
Proof.
  unfold test_memmap.
  apply adds_bind; [apply adds_load_filelist; reflexivity | intros names].
  apply adds_bind; [apply adds_np_memmap; reflexivity | intros mm].
  apply adds_bind; [apply adds_silent; reflexivity | intros _].
  apply adds_bind; [apply adds_np_random_shuffle | intros idx].
  apply adds_bind.
  - apply adds_for_collect. intros i.
    apply adds_bind; [apply adds_memmap_fetch; reflexivity | intros row].
    apply adds_ret.
  - intros means. apply adds_report. reflexivity.
Qed.

End Traces.

(** * Further properties of the passes *)

(** ** Relations kept by every step *)

Section KeepsAny.
Context `{RS : RandomState} `{US : UuidSource} `{NS : NumpyStats}.
Variable R : world -> world -> Prop.
Hypothesis R_refl : forall w, R w w.
Hypothesis R_trans : forall w1 w2 w3, R w1 w2 -> R w2 w3 -> R w1 w3.
Hypothesis R_log : forall e w, R w (log_event e w).
Hypothesis R_rng : forall s w, R w (set_rng s w).

Lemma keeps_ret {A} (a : A) : keeps R (ret a).
Proof. intros w. apply R_refl. Qed.

Lemma keeps_raise {A} e : keeps R (raise (A := A) e).
Proof. intros w. apply R_refl. Qed.

Lemma keeps_lift {A} (r : result A) : keeps R (lift r).
Proof. intros w. apply R_refl. Qed.

Lemma keeps_emit e : keeps R (emit e).
Proof. intros w. apply R_log. Qed.

Lemma keeps_bind {A B} (m : M A) (k : A -> M B) :
  keeps R m -> (forall a, keeps R (k a)) -> keeps R (bind m k).
Proof.
  intros Hm Hk w. unfold bind. specialize (Hm w).
  destruct (m w) as [[a | e] w1]; cbn [snd] in *.
  - apply R_trans with w1; [exact Hm | apply Hk].
  - exact Hm.
Qed.

Lemma keeps_for_each {A} (xs : list A) (body : A -> M unit) :
  (forall x, keeps R (body x)) -> keeps R (for_each xs body).
Proof.
  intros H. induction xs as [|x xs IH]; cbn [for_each].
  - apply keeps_ret.
  - apply keeps_bind; [apply H | intros _; exact IH].
Qed.

Lemma keeps_for_collect {A B} (xs : list A) (f : A -> M B) :
  (forall x, keeps R (f x)) -> keeps R (for_collect xs f).
Proof.
  intros H. induction xs as [|x xs IH]; cbn [for_collect].
  - apply keeps_ret.
  - apply keeps_bind; [apply H | intros y].
    apply keeps_bind; [exact IH | intros ys; apply keeps_ret].
Qed.

Lemma keeps_open_for_read p : keeps R (open_for_read p).
Proof.
  intros w. unfold open_for_read.
  destruct (resolve_parent w p); [apply R_refl|].
  destruct (is_dir w p); [apply R_refl|].
  destruct (files w !! p); apply R_refl.
Qed.

Lemma keeps_open_for_write p : keeps R (open_for_write p).
Proof.
  intros w. unfold open_for_write.
  destruct (resolve_parent w p); [apply R_refl|].
  destruct (is_dir w p); apply R_refl.
Qed.

Lemma keeps_np_load p : keeps R (np_load p).
Proof.
  unfold np_load. apply keeps_bind; [apply keeps_emit | intros _].
  apply keeps_open_for_read.
Qed.

Lemma keeps_load_filelist : keeps R load_filelist.
Proof.
  unfold load_filelist. apply keeps_bind; [apply keeps_np_load|].
  intros [names | xs | xs]; [apply keeps_ret | apply keeps_raise ..].
Qed.

Lemma keeps_np_random_seed z : keeps R (np_random_seed z).
Proof. intros w. apply R_rng. Qed.

Lemma keeps_np_random_random : keeps R np_random_random.
Proof.
  intros w. unfold np_random_random.
  destruct (rk_double (np_random w)). apply R_rng.
Qed.

Lemma keeps_np_random_random_n n : keeps R (np_random_random_n n).
Proof.
  unfold np_random_random_n. destruct (n <? 0); [apply keeps_raise|].
  intros w. destruct (draws (Z.to_nat n) (np_random w)). apply R_rng.
Qed.

Lemma keeps_np_random_shuffle {A} (l : list A) :
  keeps R (np_random_shuffle l).
Proof.
  intros w. unfold np_random_shuffle.
  destruct (shuffle l (np_random w)). apply R_rng.
Qed.

Lemma keeps_random_record size : keeps R (random_record size).
Proof.
  unfold random_record.
  apply keeps_bind; [apply keeps_np_random_random | intros u].
  apply keeps_bind; [apply keeps_lift | intros n].
  apply keeps_bind; [apply keeps_np_random_random_n | intros xs].
  apply keeps_ret.
Qed.

Lemma keeps_mean_of_file p : keeps R (mean_of_file p).
Proof.
  unfold mean_of_file. apply keeps_bind; [apply keeps_np_load|].
  intros [names | xs | xs]; [apply keeps_raise | apply keeps_ret |
                             apply keeps_raise].
Qed.

Lemma keeps_report means : keeps R (report means).
Proof.
  unfold report, np_max, np_min.
  apply keeps_bind; [destruct means; [apply keeps_raise | apply keeps_ret]|].
  intros mx.
  apply keeps_bind; [destruct means; [apply keeps_raise | apply keeps_ret]|].
  intros mn. apply keeps_bind; [apply keeps_emit | intros _].
  apply keeps_emit.
Qed.

Lemma keeps_memmap_fetch mm i : keeps R (memmap_fetch mm i).
Proof.
  unfold memmap_fetch. apply keeps_bind; [apply keeps_emit | intros _].
  apply keeps_bind; [apply keeps_lift | intros i'].
  intros w. destruct (files w !! mm_path mm) as [[names | xs | xs]|];
    apply R_refl.
Qed.

Lemma keeps_np_memmap_read p rows cols :
  keeps R (np_memmap p ModeRead rows cols).
Proof.
  unfold np_memmap. apply keeps_bind; [apply keeps_emit | intros _].
  apply keeps_bind; [apply keeps_open_for_read | intros f].
  destruct ((rows <? 0) || (cols <? 0) || (rows * cols =? 0)).
  { unfold map_unusual_read.
    destruct (rows * cols <? 0); [apply keeps_raise|].
    destruct ((rows <? 0) || (cols <? 0)); [apply keeps_raise|].
    destruct f as [names | xs | [|x xs]];
      first [apply keeps_raise | apply keeps_ret]. }
  destruct f as [names | xs | xs]; try apply keeps_raise.
  destruct (Z.of_nat (List.length xs) <? rows * cols);
    [apply keeps_raise | apply keeps_ret].
Qed.

Lemma keeps_test_files l size : keeps R (test_files l size).
Proof.
  destruct l; cbn [test_files];
    unfold test_flat, test_two_level, test_four_level;
    (apply keeps_bind; [apply keeps_emit | intros _]);
    (apply keeps_bind; [apply keeps_load_filelist | intros names]);
    (apply keeps_bind; [apply keeps_np_random_seed | intros _]);
    (apply keeps_bind; [apply keeps_np_random_shuffle | intros order]);
    (apply keeps_bind; [|intros means; apply keeps_report]);
    apply keeps_for_collect; intros name; try apply keeps_mean_of_file.
  apply keeps_bind; [apply keeps_lift | intros p; apply keeps_mean_of_file].
Qed.

Lemma keeps_test_memmap size : keeps R (test_memmap size).
Proof.
  unfold test_memmap.
  apply keeps_bind; [apply keeps_load_filelist | intros names].
  apply keeps_bind; [apply keeps_np_memmap_read | intros mm].
  apply keeps_bind; [apply keeps_np_random_seed | intros _].
  apply keeps_bind; [apply keeps_np_random_shuffle | intros idx].
  apply keeps_bind; [|intros means; apply keeps_report].
  apply keeps_for_collect. intros i.
  apply keeps_bind; [apply keeps_memmap_fetch | intros row; apply keeps_ret].
Qed.

(** *** Steps that write *)

Hypothesis R_entropy : forall s w, R w (set_entropy s w).

Lemma keeps_np_save p d :
  (forall w, R w (write_file p d w)) -> keeps R (np_save p d).
Proof.
  intros H. unfold np_save. apply keeps_bind; [apply keeps_emit | intros _].
  apply keeps_bind; [apply keeps_open_for_write | intros _].
  intros w. apply H.
Qed.

Lemma keeps_os_mkdir p :
  (forall w, R w (add_dir p w)) -> keeps R (os_mkdir p).
Proof.
  intros H w. unfold os_mkdir.
  destruct (resolve_parent w p); [apply R_refl|].
  destruct (is_dir w p || is_file w p); [apply R_refl | apply H].
Qed.

Lemma keeps_mkdir_no_parents p :
  (forall w, R w (add_dir p w)) -> keeps R (mkdir_no_parents p).
Proof.
  intros H w. unfold mkdir_no_parents.
  pose proof (keeps_os_mkdir p H w) as Hw.
  destruct (os_mkdir p w) as [[[] | e] w1]; cbn [snd] in Hw; [exact Hw|].
  destruct e; try (destruct (is_dir w1 p); exact Hw); exact Hw.
Qed.

Lemma keeps_mkdir_rec fuel : forall p,
  (forall q w, q `prefix_of` p -> q <> [] -> R w (add_dir q w)) ->
  keeps R (mkdir_rec fuel p).
Proof.
  induction fuel as [|fuel IH]; intros p H; cbn [mkdir_rec].
  - apply keeps_bind; [apply keeps_emit | intros _]. intros w.
    pose proof (keeps_os_mkdir p) as Hos.
    destruct p as [|c p'].
    + unfold os_mkdir. cbn. apply R_refl.
    + specialize (Hos (fun w => H _ w (reflexivity _) ltac:(discriminate)) w).
      destruct (os_mkdir (c :: p') w) as [[[] | e] w1]; cbn [snd] in Hos;
        [exact Hos|].
      destruct e; try (destruct (is_dir w1 (c :: p')); exact Hos); exact Hos.
  - apply keeps_bind; [apply keeps_emit | intros _]. intros w.
    destruct p as [|c p'].
    + unfold os_mkdir. cbn. apply R_refl.
    + assert (Hp : forall w, R w (add_dir (c :: p') w))
        by (intros w0; apply H; [reflexivity | discriminate]).
      pose proof (keeps_os_mkdir (c :: p') Hp w) as Hos.
      destruct (os_mkdir (c :: p') w) as [[[] | e] w1]; cbn [snd] in Hos;
        [exact Hos|].
      destruct e;
        try (destruct (is_dir w1 (c :: p')); exact Hos).
      apply R_trans with w1; [exact Hos|].
      apply keeps_bind.
      * apply IH. intros q w0 Hq Hne. apply H; [|exact Hne].
        etransitivity; [exact Hq|]. unfold parent.
        exists [List.last (c :: p') EmptyString].
        apply app_removelast_last. discriminate.
      * intros _. apply keeps_bind; [apply keeps_emit | intros _].
        apply keeps_mkdir_no_parents, Hp.
Qed.

Lemma keeps_path_mkdir_flat p :
  (forall w, R w (add_dir p w)) -> keeps R (path_mkdir p false).
Proof.
  intros H. unfold path_mkdir.
  apply keeps_bind; [apply keeps_emit | intros _].
  apply keeps_mkdir_no_parents, H.
Qed.

Lemma keeps_path_mkdir_parents p :
  (forall q w, q `prefix_of` p -> q <> [] -> R w (add_dir q w)) ->
  keeps R (path_mkdir p true).
Proof. intros H. unfold path_mkdir. apply keeps_mkdir_rec, H. Qed.

Lemma keeps_np_memmap p mode rows cols :
  (forall f w, R w (write_file p f w)) ->
  keeps R (np_memmap p mode rows cols).
Proof.
  intros H. destruct mode; [|apply keeps_np_memmap_read].
  unfold np_memmap. apply keeps_bind; [apply keeps_emit | intros _].
  apply keeps_bind; [apply keeps_open_for_write | intros _].
  apply keeps_bind; [intros w; apply H | intros _].
  destruct ((rows <? 0) || (cols <? 0) || (rows * cols =? 0));
    [|intros w; apply H].
  unfold map_unusual_write.
  destruct (rows * cols <? 0); [apply keeps_raise|].
  destruct (rows * cols =? 0); [apply keeps_raise|].
  apply keeps_bind; [intros w; apply H | intros _; apply keeps_raise].
Qed.

Lemma keeps_memmap_store mm i row :
  (forall f w, R w (write_file (mm_path mm) f w)) ->
  keeps R (memmap_store mm i row).
Proof.
  intros H. unfold memmap_store.
  apply keeps_bind; [apply keeps_emit | intros _].
  apply keeps_bind; [apply keeps_lift | intros i'].
  apply keeps_bind.
  - destruct (Z.of_nat (List.length row) =? mm_cols mm); [apply keeps_ret|].
    destruct row as [|x [|y row]];
      [apply keeps_raise | apply keeps_ret | apply keeps_raise].
  - intros row' w.
    destruct (files w !! mm_path mm) as [[names | xs | xs]|];
      try apply R_refl. apply H.
Qed.

Lemma keeps_create_filelist n :
  (forall f w, R w (write_file filelist_path f w)) ->
  keeps R (create_filelist n).
Proof.
  intros H. unfold create_filelist.
  apply keeps_bind.
  { intros w. unfold fresh_identifiers.
    destruct (uuid_hexes (Z.to_nat n) (os_entropy w)). apply R_entropy. }
  intros names. apply keeps_bind; [apply keeps_np_save; intros w; apply H|].
  intros _. apply keeps_bind; [apply keeps_np_load | intros f].
  unfold py_assert. destruct (shape0 f =? n);
    [apply keeps_ret | apply keeps_raise].
Qed.

(** The part of a per-file create pass after the preparation: reseeding
    and the save loop. *)
Lemma keeps_save_loop (Pr : string -> result (list string)) size names :
  (forall p d w, R w (write_file p d w)) ->
  keeps R (bind (np_random_seed 515) (fun _ =>
             for_each names (fun name =>
               bind (lift (Pr name)) (fun p =>
               bind (random_record size) (fun arr =>
               np_save p (NpyF32 arr)))))).
Proof.
  intros H. apply keeps_bind; [apply keeps_np_random_seed | intros _].
  apply keeps_for_each. intros name.
  apply keeps_bind; [apply keeps_lift | intros p].
  apply keeps_bind; [apply keeps_random_record | intros arr].
  apply keeps_np_save. intros w. apply H.
Qed.

Lemma keeps_bind_result {A B} (Q : A -> Prop) (m : M A) (k : A -> M B) :
  (forall w a w', m w = (Ok a, w') -> Q a) ->
  keeps R m -> (forall a, Q a -> keeps R (k a)) -> keeps R (bind m k).
Proof.
  intros HQ Hm Hk w. unfold bind. specialize (Hm w). specialize (HQ w).
  destruct (m w) as [[a | e] w1]; cbn [snd] in *.
  - apply R_trans with w1; [exact Hm | apply Hk, (HQ a w1); reflexivity].
  - exact Hm.
Qed.

Lemma np_memmap_result p mode rows cols w mm w' :
  np_memmap p mode rows cols w = (Ok mm, w') -> mm_path mm = p.
Proof.
  unfold np_memmap, bind, emit. destruct mode.
  - destruct (open_for_write p (log_event _ w)) as [[[] | e] w1];
      [|discriminate].
    destruct ((rows <? 0) || (cols <? 0) || (rows * cols =? 0)).
    { unfold map_unusual_write, bind, raise.
      destruct (rows * cols <? 0); [discriminate|].
      destruct (rows * cols =? 0); discriminate. }
    intros H. injection H as <- _. reflexivity.
  - destruct (open_for_read p (log_event _ w)) as [[f | e] w1];
      [|discriminate].
    destruct ((rows <? 0) || (cols <? 0) || (rows * cols =? 0)).
    { unfold map_unusual_read, raise, ret.
      destruct (rows * cols <? 0); [discriminate|].
      destruct ((rows <? 0) || (cols <? 0)); [discriminate|].
      destruct f as [names | xs | [|x xs]]; try discriminate.
      intros H. injection H as <- _. reflexivity. }
    destruct f as [names | xs | xs]; try discriminate.
    destruct (Z.of_nat (List.length xs) <? rows * cols); [discriminate|].
    intros H. injection H as <- _. reflexivity.
Qed.

Lemma keeps_create_files_memmap size :
  (forall f w, R w (write_file memmap_path f w)) ->
  (forall w, R w (add_dir memmap_dir w)) ->
  keeps R (create_files_memmap size).
Proof.
  intros Hw Hd. unfold create_files_memmap.
  apply keeps_bind; [|intros _].
  { apply keeps_path_mkdir_flat, Hd. }
  apply keeps_bind; [apply keeps_load_filelist | intros names].
  apply (keeps_bind_result (fun mm => mm_path mm = memmap_path)).
  { intros w mm w'. apply np_memmap_result. }
  { apply keeps_np_memmap, Hw. }
  intros mm Hmm.
  apply keeps_bind; [apply keeps_np_random_seed | intros _].
  apply keeps_bind; [|intros _; apply keeps_emit].
  apply keeps_for_each. intros i.
  apply keeps_bind; [apply keeps_np_random_random_n | intros xs].
  apply keeps_memmap_store. rewrite Hmm. exact Hw.
Qed.

Lemma keeps_for_each_in {A} (xs : list A) (body : A -> M unit) :
  (forall x, x ∈ xs -> keeps R (body x)) -> keeps R (for_each xs body).
Proof.
  induction xs as [|x xs IH]; intros H; cbn [for_each].
  - apply keeps_ret.
  - apply keeps_bind; [apply H; left | intros _].
    apply IH. intros y Hy. apply H. right. exact Hy.
Qed.

Lemma keeps_create_files l size :
  (forall p d w, R w (write_file p d w)) ->
  (forall q w, layout_dirs l q -> R w (add_dir q w)) ->
  keeps R (create_files l size).
Proof.
  intros Hw Hd. destruct l; cbn [create_files].
  - unfold create_files_flat.
    apply keeps_bind; [|intros _].
    { apply keeps_path_mkdir_flat. intros w. apply Hd. reflexivity. }
    apply keeps_bind; [apply keeps_load_filelist | intros names].
    apply (keeps_save_loop (fun name => Ok (create_flat_path name))), Hw.
  - unfold create_files_two_level.
    apply keeps_bind; [|intros _].
    { apply keeps_path_mkdir_flat. intros w. apply Hd. left. reflexivity. }
    apply keeps_bind; [apply keeps_load_filelist | intros names].
    apply keeps_bind; [|intros _].
    { apply keeps_for_each_in. intros i Hi. apply keeps_path_mkdir_flat.
      intros w. apply Hd. right. exists i. split; [|reflexivity].
      apply elem_of_range in Hi. exact Hi. }
    apply (keeps_save_loop (fun name => Ok (create_two_level_path name))), Hw.
  - unfold create_files_four_level.
    apply keeps_bind; [|intros _].
    { apply keeps_path_mkdir_flat. intros w. apply Hd.
      split; [discriminate|]. exists 0, 0, 0.
      repeat (split; [lia|]). exists [fmt_x 0; fmt_x 0; fmt_x 0].
      reflexivity. }
    apply keeps_bind; [apply keeps_load_filelist | intros names].
    apply keeps_bind; [|intros _].
    { apply keeps_for_each_in. intros i Hi.
      apply keeps_for_each_in. intros j Hj.
      apply keeps_for_each_in. intros k Hk.
      apply elem_of_range in Hi, Hj, Hk.
      apply keeps_path_mkdir_parents. intros q w Hq Hne. apply Hd.
      split; [exact Hne|]. exists i, j, k.
      repeat (split; [assumption|]). exact Hq. }
    apply (keeps_save_loop create_four_level_path), Hw.
Qed.

End KeepsAny.

Section ReadOnly.
Context `{RS : RandomState} `{US : UuidSource} `{NS : NumpyStats}.

Lemma same_store_refl (w : world) : same_store w w.
Proof. repeat split. Qed.

Lemma same_store_trans (w1 w2 w3 : world) :
  same_store w1 w2 -> same_store w2 w3 -> same_store w1 w3.
Proof.
  intros (Hf1 & Hd1 & Ho1) (Hf2 & Hd2 & Ho2).
  repeat split; congruence.
Qed.

(** X1. A read pass never writes: from every state, for every size, and
    whether it runs to the end or raises on the way, each of the four test
    functions leaves every file and every directory as it found them, and
    draws no operating-system entropy. *)
Theorem test_passes_read_only (size : Z) (w : world) :
  (forall l, same_store w (snd (test_files l size w))) /\
  same_store w (snd (test_memmap size w)).
Proof.
  split; [intros l; apply keeps_test_files | apply keeps_test_memmap];
    solve [ apply same_store_refl | apply same_store_trans
          | intros; repeat split ].
Qed.

End ReadOnly.

(** ** Where the create passes write *)

Section Confined.
Context `{RS : RandomState} `{US : UuidSource} `{NS : NumpyStats}.

Implicit Types (w : world) (F D : path -> Prop).

Lemma touched_refl F D w : touched F D w w.
Proof. split; [reflexivity|]. split; [reflexivity|]. intros p Hp. left. exact Hp. Qed.

Lemma touched_trans F D w1 w2 w3 :
  touched F D w1 w2 -> touched F D w2 w3 -> touched F D w1 w3.
Proof.
  intros (Hf1 & Hs1 & Hd1) (Hf2 & Hs2 & Hd2). split; [|split].
  - intros p Hp. rewrite (Hf2 p Hp). apply Hf1, Hp.
  - etransitivity; eassumption.
  - intros p Hp. destruct (Hd2 p Hp) as [H | H]; [apply Hd1, H | right; exact H].
Qed.

Lemma touched_write F D p f w : F p -> touched F D w (write_file p f w).
Proof.
  intros HF. split; [|split].
  - intros q Hq. cbn [files write_file]. apply lookup_insert_ne.
    intros ->. apply Hq, HF.
  - reflexivity.
  - intros q Hq. left. exact Hq.
Qed.

Lemma touched_add_dir F D q w : D q -> touched F D w (add_dir q w).
Proof.
  intros HD. split; [reflexivity|]. split.
  - cbn [dirs add_dir]. apply union_subseteq_r.
  - intros p Hp. cbn [dirs add_dir] in Hp.
    apply elem_of_union in Hp as [Hp | Hp]; [|left; exact Hp].
    apply elem_of_singleton in Hp. subst p. right. exact HD.
Qed.

Lemma touched_steps F D :
  (forall w, touched F D w w) /\
  (forall w1 w2 w3, touched F D w1 w2 -> touched F D w2 w3 ->
                    touched F D w1 w3) /\
  (forall e w, touched F D w (log_event e w)) /\
  (forall s w, touched F D w (set_rng s w)) /\
  (forall s w, touched F D w (set_entropy s w)).
Proof.
  split; [apply touched_refl|]. split; [apply touched_trans|].
  repeat split; intros; solve [reflexivity | left; assumption].
Qed.

(** X2. Where the create passes write, from every state and on every path
    through them.  [create_filelist] changes no file other than the
    identifier list and makes no directory; [create_files_memmap] changes
    no file other than the block and makes no directory other than
    [cache/memmap]; a per-file create pass makes no directory other than
    its layout directory and its buckets (for the four-level layout, the
    directories on the way to a leaf).  No pass removes a directory. *)
Theorem create_passes_confined (w : world) :
  (forall n, touched (fun p => p = filelist_path) (fun _ => False)
               w (snd (create_filelist n w))) /\
  (forall size, touched (fun p => p = memmap_path) (fun q => q = memmap_dir)
                  w (snd (create_files_memmap size w))) /\
  (forall l size, touched (fun _ => True) (layout_dirs l)
                    w (snd (create_files l size w))).
Proof.
  split; [|split].
  - intros n.
    destruct (touched_steps (fun p => p = filelist_path) (fun _ => False))
      as (H1 & H2 & H3 & H4 & H5).
    apply keeps_create_filelist; try assumption.
    intros f w0. apply touched_write. reflexivity.
  - intros size.
    destruct (touched_steps (fun p => p = memmap_path)
                (fun q => q = memmap_dir)) as (H1 & H2 & H3 & H4 & H5).
    apply keeps_create_files_memmap; try assumption.
    + intros f w0. apply touched_write. reflexivity.
    + intros w0. apply touched_add_dir. reflexivity.
  - intros l size.
    destruct (touched_steps (fun _ => True) (layout_dirs l))
      as (H1 & H2 & H3 & H4 & H5).
    apply keeps_create_files; try assumption.
    + intros p d w0. apply touched_write. exact I.
    + intros q w0 Hq. apply touched_add_dir. exact Hq.
Qed.

End Confined.

(** ** Locations never collide *)

Lemma append_inj_l (a b s : string) : (a ++ s = b ++ s)%string -> a = b.
Proof.
  intros H. apply (f_equal list_ascii_of_string) in H.
  rewrite !list_ascii_of_string_app in H. apply app_inv_tail in H.
  rewrite <- (string_of_list_ascii_of_string a).
  rewrite <- (string_of_list_ascii_of_string b). rewrite H. reflexivity.
Qed.

Lemma npy_inj (a b : string) : npy a = npy b -> a = b.
Proof. apply append_inj_l. Qed.

Lemma location_shape l name :
  is_identifier name = true ->
  exists mid, create_location l name = layout_dir l ++ mid ++ [npy name].
Proof.
  intros Hid. destruct l; cbn [create_location layout_dir].
  - exists []. reflexivity.
  - exists [last3 name]. reflexivity.
  - destruct (four_level_identifier name Hid)
      as (d1 & d2 & d3 & _ & _ & _ & _ & Hplace).
    rewrite Hplace. exists [fmt_x d1; fmt_x d2; fmt_x d3]. reflexivity.
Qed.

Lemma location_layout l l' a b :
  is_identifier a = true -> is_identifier b = true ->
  create_location l a = create_location l' b -> l = l' /\ a = b.
Proof.
  intros Ha Hb H.
  destruct (location_shape l a Ha) as (ma & Ea).
  destruct (location_shape l' b Hb) as (mb & Eb).
  rewrite Ea, Eb in H.
  assert (Hl : l = l').
  { destruct l, l'; try reflexivity; cbn [layout_dir app] in H;
      injection H; intros; discriminate. }
  split; [exact Hl|]. subst l'. apply app_inv_head in H.
  apply app_inj_tail in H as [_ H]. apply npy_inj, H.
Qed.

Lemma location_not_shared l name :
  is_identifier name = true ->
  create_location l name <> filelist_path /\
  create_location l name <> memmap_path.
Proof.
  intros Hid. destruct (location_shape l name Hid) as (mid & E).
  rewrite E. split; intros H; destruct l; cbn [layout_dir app] in H;
    injection H; intros; discriminate.
Qed.

(** X3. No two records share a file.  For identifiers as [init] writes
    them, the location of a record determines both the layout and the
    identifier: different identifiers are kept in different files within a
    layout, files of different layouts are different, and no record is
    kept where the identifier list or the memmap block is.  The test
    functions look in the same places. *)
Theorem locations_never_collide (l l' : layout) (a b : string) :
  is_identifier a = true -> is_identifier b = true ->
  (create_location l a = create_location l' b -> l = l' /\ a = b) /\
  create_location l a <> filelist_path /\
  create_location l a <> memmap_path /\
  test_location l a = create_location l a.
Proof.
  intros Ha Hb. split; [apply location_layout; assumption|].
  destruct (location_not_shared l a Ha) as [H1 H2].
  split; [exact H1|]. split; [exact H2|].
  symmetry. apply locations_agree.
Qed.

Lemma locations_never_collide_witness :
  is_identifier Examples.id_a = true /\ is_identifier Examples.id_b = true /\
  (create_location TwoLevel Examples.id_a
   = create_location FourLevel Examples.id_b ->
   TwoLevel = FourLevel /\ Examples.id_a = Examples.id_b) /\
  create_location TwoLevel Examples.id_a <> filelist_path /\
  create_location TwoLevel Examples.id_a <> memmap_path /\
  test_location TwoLevel Examples.id_a
  = create_location TwoLevel Examples.id_a.
Proof.
  assert (Ha : is_identifier Examples.id_a = true) by reflexivity.
  assert (Hb : is_identifier Examples.id_b = true) by reflexivity.
  split; [exact Ha|]. split; [exact Hb|].
  exact (locations_never_collide TwoLevel FourLevel _ _ Ha Hb).
Defined.

(** ** Layouts do not disturb one another *)

Section Independence.
Context `{RS : RandomState} `{US : UuidSource} `{NS : NumpyStats}.

Lemma memmap_touches size (w : world) :
  touched (fun p => p = memmap_path) (fun q => q = memmap_dir)
    w (snd (create_files_memmap size w)).
Proof.
  destruct (touched_steps (fun p => p = memmap_path)
              (fun q => q = memmap_dir)) as (H1 & H2 & H3 & H4 & H5).
  apply keeps_create_files_memmap; try assumption.
  - intros f w0. apply touched_write. reflexivity.
  - intros w0. apply touched_add_dir. reflexivity.
Qed.

(** X4. Creating one layout leaves the others alone.  A per-file create
    pass on a store with the identifier list changes files only at the
    locations of its own layout: the records of the other two layouts,
    the memmap block and the identifier list are afterwards what they
    were.  The memmap create pass, however it ends, leaves every per-file
    record and the identifier list as they were. *)
Theorem create_leaves_other_layouts (l : layout) (size : Z) (w : world)
    (names : list string) :
  ready w names -> 0 <= size < 2 ^ 50 ->
  (exists w',
     create_files l size w = (Ok tt, w') /\
     (forall p, p ∉ List.map (create_location l) names ->
                files w' !! p = files w !! p) /\
     (forall l' x, l' <> l -> is_identifier x = true ->
        files w' !! create_location l' x = files w !! create_location l' x) /\
     files w' !! memmap_path = files w !! memmap_path /\
     files w' !! filelist_path = files w !! filelist_path) /\
  (forall l' x, is_identifier x = true ->
     files (snd (create_files_memmap size w)) !! create_location l' x
     = files w !! create_location l' x) /\
  files (snd (create_files_memmap size w)) !! filelist_path
  = files w !! filelist_path.
Proof.
  intros Hready Hsize. split; [|split].
  - destruct (create_files_spec l size w names Hready Hsize)
      as (w' & Hrun & Hcreated).
    exists w'. split; [exact Hrun|].
    destruct Hcreated as (_ & Hfiles & _).
    assert (Hout : forall p, p ∉ List.map (create_location l) names ->
                             files w' !! p = files w !! p).
    { intros p Hp. rewrite Hfiles. apply write_all_lookup_notin.
      rewrite (writes_locations _ size names Hsize). exact Hp. }
    assert (Hids : forall p,
              (forall x, x ∈ names -> create_location l x <> p) ->
              p ∉ List.map (create_location l) names).
    { intros p Hp Hin. apply list_elem_of_fmap in Hin as (x & -> & Hx).
      exact (Hp x Hx eq_refl). }
    split; [exact Hout|]. split; [|split].
    + intros l' x Hl Hx. apply Hout, Hids. intros y Hy Heq.
      apply location_layout in Heq as [Heq _];
        [congruence | exact (ready_identifier _ _ _ Hready Hy) | exact Hx].
    + apply Hout, Hids. intros y Hy.
      apply location_not_shared, (ready_identifier _ _ _ Hready Hy).
    + apply Hout, Hids. intros y Hy.
      apply location_not_shared, (ready_identifier _ _ _ Hready Hy).
  - intros l' x Hx. destruct (memmap_touches size w) as (Hf & _).
    apply Hf. apply location_not_shared, Hx.
  - destruct (memmap_touches size w) as (Hf & _). apply Hf. discriminate.
Qed.

End Independence.

Lemma create_leaves_other_layouts_witness :
  let names := [Examples.id_a; Examples.id_b] in
  let w := Examples.listed_world Examples.table_random_state names in
  ready w names /\ 0 <= 3 < 2 ^ 50 /\
  (exists w',
     create_files TwoLevel 3 w = (Ok tt, w') /\
     (forall p, p ∉ List.map (create_location TwoLevel) names ->
                files w' !! p = files w !! p) /\
     (forall l' x, l' <> TwoLevel -> is_identifier x = true ->
        files w' !! create_location l' x = files w !! create_location l' x) /\
     files w' !! memmap_path = files w !! memmap_path /\
     files w' !! filelist_path = files w !! filelist_path) /\
  (forall l' x, is_identifier x = true ->
     files (snd (create_files_memmap 3 w)) !! create_location l' x
     = files w !! create_location l' x) /\
  files (snd (create_files_memmap 3 w)) !! filelist_path
  = files w !! filelist_path.
Proof.
  cbv zeta.
  pose proof (listed_world_ready Examples.table_random_state
                [Examples.id_a; Examples.id_b] example_identifiers) as Hr.
  assert (Hsize : 0 <= 3 < 2 ^ 50) by lia.
  split; [exact Hr|]. split; [exact Hsize|].
  exact (create_leaves_other_layouts TwoLevel 3 _ _ Hr Hsize).
Defined.

(** ** The bucket of an identifier *)

Lemma hex_fixed_low k : forall n v,
  skipn n (hex_fixed (n + k) v) = hex_fixed k v.
Proof.
  induction k as [|k IH]; intros n v.
  - rewrite Nat.add_0_r. apply skipn_all2. rewrite hex_fixed_length. lia.
  - rewrite Nat.add_succ_r. cbn [hex_fixed]. rewrite skipn_app.
    rewrite IH, hex_fixed_length.
    replace (n - (n + k))%nat with 0%nat by lia. reflexivity.
Qed.

Lemma hex_fixed_mod k : forall v,
  hex_fixed k (v mod 16 ^ Z.of_nat k) = hex_fixed k v.
Proof.
  induction k as [|k IH]; intros v; [reflexivity|].
  cbn [hex_fixed].
  assert (Hpow : 16 ^ Z.of_nat (S k) = 16 * 16 ^ Z.of_nat k).
  { rewrite Nat2Z.inj_succ, Z.pow_succ_r by lia. reflexivity. }
  assert (Hc : 0 < 16 ^ Z.of_nat k) by (apply Z.pow_pos_nonneg; lia).
  rewrite Hpow, Z.rem_mul_r by lia.
  pose proof (Z.mod_pos_bound v 16 ltac:(lia)) as Hlow.
  replace ((v mod 16 + 16 * ((v / 16) mod 16 ^ Z.of_nat k)) / 16)
    with ((v / 16) mod 16 ^ Z.of_nat k).
  2:{ symmetry. rewrite (Z.mul_comm 16), Z.div_add by lia.
      rewrite (Z.div_small (v mod 16)) by lia. lia. }
  replace ((v mod 16 + 16 * ((v / 16) mod 16 ^ Z.of_nat k)) mod 16)
    with (v mod 16).
  2:{ symmetry. rewrite (Z.mul_comm 16), Z.mod_add by lia.
      apply Z.mod_mod. lia. }
  rewrite IH. reflexivity.
Qed.

Lemma uuid_hex_chars v :
  list_ascii_of_string (uuid_hex v) =
  hex_fixed 29 (v / 16 / 16 / 16) ++
  [hex_digit (v / 16 / 16 mod 16); hex_digit (v / 16 mod 16);
   hex_digit (v mod 16)].
Proof.
  unfold uuid_hex. rewrite list_ascii_of_string_of_list_ascii.
  change (hex_fixed 32 v)
    with (((hex_fixed 29 (v / 16 / 16 / 16)
            ++ [hex_digit (v / 16 / 16 mod 16)])
           ++ [hex_digit (v / 16 mod 16)]) ++ [hex_digit (v mod 16)]).
  rewrite <- !app_assoc. reflexivity.
Qed.

(** X5. The bucket of an identifier is its number modulo 4096.  For the
    128-bit number [v] of a UUID, the two-level directory [name[-3:]] of
    its hex form is ["%03x" % (v mod 4096)], one of the directories the
    two-level bootstrap makes, and the four-level directories
    [name[-1]/name[-2]/name[-3]] are the three lowest hex digits of [v],
    lowest first, a leaf the four-level bootstrap makes. *)
Theorem uuid_bucket (v : Z) :
  0 <= v < 2 ^ 128 ->
  0 <= v mod 16 ^ 3 < 16 ^ 3 /\
  create_two_level_path (uuid_hex v) =
    ["cache"; "2level"; fmt_03x (v mod 16 ^ 3); npy (uuid_hex v)]%string /\
  create_four_level_path (uuid_hex v) =
    Ok (leaf (v mod 16) (v / 16 mod 16) (v / 256 mod 16)
          ++ [npy (uuid_hex v)]).
Proof.
  intros Hv. split; [apply Z.mod_pos_bound; lia|]. split.
  - unfold create_two_level_path. do 2 f_equal.
    unfold last3, fmt_03x, uuid_hex.
    rewrite list_ascii_of_string_of_list_ascii, hex_fixed_length.
    change (32 - 3)%nat with 29%nat. change 32%nat with (29 + 3)%nat.
    rewrite hex_fixed_low. change (16 ^ 3) with (16 ^ Z.of_nat 3).
    rewrite hex_fixed_mod. reflexivity.
  - destruct (four_level_path_long (uuid_hex v) _ _ _ _ (uuid_hex_chars v))
      as [Hpath _].
    rewrite Hpath. unfold leaf.
    rewrite !fmt_x_digit by (apply Z.mod_pos_bound; lia).
    replace (v / 256) with (v / 16 / 16)
      by (rewrite Z.div_div by lia; reflexivity).
    reflexivity.
Qed.

Lemma uuid_bucket_witness :
  0 <= 2748 < 2 ^ 128 /\
  0 <= 2748 mod 16 ^ 3 < 16 ^ 3 /\
  create_two_level_path (uuid_hex 2748) =
    ["cache"; "2level"; fmt_03x (2748 mod 16 ^ 3);
     npy (uuid_hex 2748)]%string /\
  create_four_level_path (uuid_hex 2748) =
    Ok (leaf (2748 mod 16) (2748 / 16 mod 16) (2748 / 256 mod 16)
          ++ [npy (uuid_hex 2748)]).
Proof.
  assert (Hv : 0 <= 2748 < 2 ^ 128) by lia.
  split; [exact Hv|]. exact (uuid_bucket 2748 Hv).
Defined.

(** ** The directories a create pass makes *)

Section Directories.
Context `{RS : RandomState} `{US : UuidSource} `{NS : NumpyStats}.

Implicit Types (w : world) (names : list string).

Lemma walk_prefixes w : forall rest seen,
  walk w seen rest = None ->
  forall k, (0 < k <= List.length rest)%nat ->
            seen ++ firstn k rest ∈ dirs w.
Proof.
  induction rest as [|c rest IH]; intros seen Hwalk k Hk; [cbn in Hk; lia|].
  cbn [walk] in Hwalk.
  destruct (is_dir w (seen ++ [c])) eqn:Hd.
  2:{ destruct (is_file w (seen ++ [c])); discriminate. }
  destruct k as [|k]; [lia|]. cbn [firstn].
  destruct k as [|k].
  - cbn [firstn]. apply is_dir_true in Hd as [Hd | Hd]; [|exact Hd].
    destruct seen; discriminate.
  - specialize (IH (seen ++ [c]) Hwalk (S k)).
    rewrite <- app_assoc in IH. apply IH. cbn [List.length] in Hk. lia.
Qed.

Lemma prefix_firstn (q p : path) :
  q `prefix_of` p -> q = firstn (List.length q) p.
Proof. intros [r ->]. rewrite firstn_app, Nat.sub_diag, firstn_all. cbn. rewrite app_nil_r. reflexivity. Qed.

(** The part of a per-file create pass after the preparation removes no
    directory. *)
Lemma save_tail_dirs (Pr : string -> result (list string)) size names w :
  dirs w ⊆
  dirs (snd (bind (np_random_seed 515) (fun _ =>
               for_each names (fun name =>
                 bind (lift (Pr name)) (fun p =>
                 bind (random_record size) (fun arr =>
                 np_save p (NpyF32 arr))))) w)).
Proof.
  destruct (touched_steps (fun _ => True) (fun _ => True))
    as (H1 & H2 & H3 & H4 & H5).
  apply (keeps_save_loop (touched (fun _ => True) (fun _ => True)));
    try assumption.
  intros p d w0. apply touched_write. exact I.
Qed.

Lemma created_dirs l size w names :
  ready w names ->
  forall q, layout_dirs l q -> q ∈ dirs (snd (create_files l size w)).
Proof.
  intros Hready q Hq. pose proof Hready as [Hc Ht Hf Hids].
  destruct (path_mkdir_grows (layout_dir l) w Ht)
    as (w1 & Hrun1 & Hg1 & Hdir);
    [destruct l; discriminate | destruct l; reflexivity | |].
  { destruct l; apply resolve_in_cache, Hc. }
  pose proof (grows_ready _ _ _ Hready Hg1) as Hready1.
  set (w2 := log_event (EvLoad filelist_path) w1).
  assert (Hg12 : grows w1 w2) by (apply grows_log_event; reflexivity).
  assert (Hg2 : grows w w2) by (eapply grows_trans; eassumption).
  assert (Hdir2 : layout_dir l ∈ dirs w2) by exact Hdir.
  destruct l; cbn [create_files layout_dirs layout_dir] in *.
  - unfold create_files_flat.
    rewrite (bind_ok _ _ w tt w1) by exact Hrun1.
    rewrite (bind_ok _ _ w1 names w2) by (apply load_filelist_ok, Hready1).
    apply (save_tail_dirs (fun name => Ok (create_flat_path name))).
    subst q. exact Hdir2.
  - destruct (for_each_grows (range (16 ^ 3))
                (fun i => path_mkdir ["cache"; "2level"; fmt_03x i]%string
                            false)
                (fun i w' => ["cache"; "2level"; fmt_03x i]%string ∈ dirs w')
                w2)
      as (w3 & Hrun3 & Hg3 & Hbuckets).
    { intros i w' _ Hg'.
      assert (Hgw : grows w w') by (eapply grows_trans; eassumption).
      pose proof (grows_ready _ _ _ Hready Hgw) as [Hc' Ht' _ _].
      apply path_mkdir_grows; [exact Ht' | discriminate | |].
      - apply (eq_trans (npy_path_last ["cache"; "2level"]%string
                           (fmt_03x i))).
        apply fmt_03x_short.
      - unfold resolve_parent, parent. cbn [removelast walk app].
        rewrite (is_dir_elem _ _ Hc').
        destruct Hg' as (_ & _ & _ & Hd' & _).
        rewrite (is_dir_elem w' ["cache"; "2level"]%string)
          by (apply Hd', Hdir2).
        reflexivity. }
    { intros i wa wb Hin (_ & _ & _ & Hd & _). apply Hd, Hin. }
    unfold create_files_two_level.
    rewrite (bind_ok _ _ w tt w1) by exact Hrun1.
    rewrite (bind_ok _ _ w1 names w2) by (apply load_filelist_ok, Hready1).
    rewrite (bind_ok _ _ w2 tt w3) by exact Hrun3.
    apply (save_tail_dirs (fun name => Ok (create_two_level_path name))).
    destruct Hq as [-> | (i & Hi & ->)].
    + destruct Hg3 as (_ & _ & _ & Hd3 & _). apply Hd3, Hdir2.
    + apply Hbuckets, elem_of_range. exact Hi.
  - destruct (four_level_bootstrap w2) as (w3 & Hrun3 & Hg3 & Hleaves).
    { eapply grows_typed; eassumption. }
    unfold create_files_four_level.
    rewrite (bind_ok _ _ w tt w1) by exact Hrun1.
    rewrite (bind_ok _ _ w1 names w2) by (apply load_filelist_ok, Hready1).
    rewrite (bind_ok _ _ w2 tt w3) by exact Hrun3.
    apply (save_tail_dirs create_four_level_path).
    destruct Hq as (Hne & i & j & k & Hi & Hj & Hk & Hpre).
    rewrite (prefix_firstn _ _ Hpre).
    apply (walk_prefixes w3 (leaf i j k) []).
    + apply Hleaves; apply elem_of_range; assumption.
    + split; [destruct q; [contradiction | cbn; lia]|].
      apply prefix_length, Hpre.
Qed.

Lemma create_dirs_exact l size w names :
  ready w names ->
  forall q, q ∈ dirs (snd (create_files l size w)) <->
            q ∈ dirs w \/ layout_dirs l q.
Proof.
  intros Hready q.
  destruct (touched_steps (fun _ => True) (layout_dirs l))
    as (H1 & H2 & H3 & H4 & H5).
  assert (Ht : touched (fun _ => True) (layout_dirs l) w
                 (snd (create_files l size w))).
  { apply keeps_create_files; try assumption.
    - intros p d w0. apply touched_write. exact I.
    - intros p w0 Hp. apply touched_add_dir. exact Hp. }
  destruct Ht as (_ & Hsub & Honly). split; [apply Honly|].
  intros [Hq | Hq]; [apply Hsub, Hq | apply created_dirs with names; assumption].
Qed.

(** X6. The directories of a per-file layout.  On a store with the
    identifier list a create pass completes, and the directories that
    exist afterwards are exactly those that existed before and those of
    the layout: [cache/flat]; [cache/2level] with all 4096 buckets
    ["%03x" % i]; [cache/4level] with all 16 + 256 + 4096 directories on
    the way to a leaf [i/j/k].  Every bucket is made, however few
    identifiers there are, and nothing else is. *)
Theorem create_makes_layout_dirs (l : layout) (size : Z) (w : world)
    (names : list string) :
  ready w names -> 0 <= size < 2 ^ 50 ->
  exists w', create_files l size w = (Ok tt, w') /\
             forall q, q ∈ dirs w' <-> q ∈ dirs w \/ layout_dirs l q.
Proof.
  intros Hready Hsize.
  destruct (create_files_spec l size w names Hready Hsize)
    as (w' & Hrun & _).
  exists w'. split; [exact Hrun|].
  pose proof (create_dirs_exact l size w names Hready) as H.
  rewrite Hrun in H. exact H.
Qed.

End Directories.

Lemma create_makes_layout_dirs_witness :
  let names := [Examples.id_a] in
  let w := Examples.listed_world Examples.table_random_state names in
  ready w names /\ 0 <= 2 < 2 ^ 50 /\
  exists w', create_files FourLevel 2 w = (Ok tt, w') /\
             forall q, q ∈ dirs w' <-> q ∈ dirs w \/ layout_dirs FourLevel q.
Proof.
  cbv zeta.
  pose proof (listed_world_ready Examples.table_random_state
                [Examples.id_a] example_identifier) as Hr.
  assert (Hsize : 0 <= 2 < 2 ^ 50) by lia.
  split; [exact Hr|]. split; [exact Hsize|].
  exact (create_makes_layout_dirs FourLevel 2 _ _ Hr Hsize).
Defined.

(** ** Running a create pass again *)

Section Again.
Context `{RS : RandomState} `{US : UuidSource} `{NS : NumpyStats}.

Lemma write_all_twice (ws : list (list string * file))
    (m : gmap (list string) file) :
  write_all (write_all m ws) ws = write_all m ws.
Proof.
  apply map_eq. intros p.
  destruct (decide (p ∈ List.map fst ws)) as [Hin | Hout].
  - apply write_all_lookup_indep, Hin.
  - rewrite !write_all_lookup_notin by exact Hout. reflexivity.
Qed.

(** X7. A per-file create pass can be repeated: run a second time on the
    store the first run left, it completes again and leaves the same files
    with the same contents and the same directories ([mkdir] tolerates the
    directories that exist, and the reseeded generator writes the same
    arrays over the old ones). *)
Theorem create_twice (l : layout) (size : Z) (w : world)
    (names : list string) :
  ready w names -> 0 <= size < 2 ^ 50 ->
  exists w1 w2,
    create_files l size w = (Ok tt, w1) /\
    create_files l size w1 = (Ok tt, w2) /\
    files w2 = files w1 /\ dirs w2 = dirs w1.
Proof.
  intros Hready Hsize.
  destruct (create_files_spec l size w names Hready Hsize)
    as (w1 & Hrun1 & Hcreated1).
  pose proof Hcreated1 as (_ & Hfiles1 & _ & Hready1 & _).
  destruct (create_files_spec l size w1 names Hready1 Hsize)
    as (w2 & Hrun2 & Hcreated2).
  pose proof Hcreated2 as (_ & Hfiles2 & _).
  exists w1, w2. split; [exact Hrun1|]. split; [exact Hrun2|]. split.
  - rewrite Hfiles2, Hfiles1. apply write_all_twice.
  - pose proof (create_dirs_exact l size w names Hready) as Hd1.
    pose proof (create_dirs_exact l size w1 names Hready1) as Hd2.
    rewrite Hrun1 in Hd1. rewrite Hrun2 in Hd2. cbn [snd] in Hd1, Hd2.
    apply set_eq. intros q. rewrite Hd2. split.
    + intros [Hq | Hq]; [exact Hq|]. apply Hd1. right. exact Hq.
    + intros Hq. left. exact Hq.
Qed.

End Again.

Lemma create_twice_witness :
  let names := [Examples.id_a; Examples.id_b] in
  let w := Examples.listed_world Examples.table_random_state names in
  ready w names /\ 0 <= 3 < 2 ^ 50 /\
  exists w1 w2,
    create_files TwoLevel 3 w = (Ok tt, w1) /\
    create_files TwoLevel 3 w1 = (Ok tt, w2) /\
    files w2 = files w1 /\ dirs w2 = dirs w1.
Proof.
  cbv zeta.
  pose proof (listed_world_ready Examples.table_random_state
                [Examples.id_a; Examples.id_b] example_identifiers) as Hr.
  assert (Hsize : 0 <= 3 < 2 ^ 50) by lia.
  split; [exact Hr|]. split; [exact Hsize|].
  exact (create_twice TwoLevel 3 _ _ Hr Hsize).
Defined.

(** ** Passes on a store that is not prepared *)

Section Missing.
Context `{RS : RandomState} `{US : UuidSource} `{NS : NumpyStats}.

Implicit Types (w : world) (names : list string).

Lemma np_load_missing w p :
  fs_typed w -> npy_path p = true ->
  (forall k, npy_path (firstn (S k) (parent p)) = false) ->
  files w !! p = None ->
  np_load p w = (Raise FileNotFoundError, log_event (EvLoad p) w).
Proof.
  intros Ht Hnpy Hpre Hnone. unfold np_load.
  rewrite (bind_ok _ _ w tt (log_event (EvLoad p) w)) by reflexivity.
  unfold open_for_read.
  rewrite (resolve_parent_ext (log_event (EvLoad p) w) w p) by reflexivity.
  change (is_dir (log_event (EvLoad p) w) p) with (is_dir w p).
  change (files (log_event (EvLoad p) w)) with (files w).
  destruct (resolve_parent w p) as [e|] eqn:Hres.
  - destruct (walk_cases _ _ _ _ Hres) as [-> | ->]; [|reflexivity].
    exfalso. revert Hres. apply walk_typed; [exact Ht | exact Hpre].
  - rewrite (typed_not_dir w p Ht Hnpy), Hnone. reflexivity.
Qed.

Lemma filelist_prefixes k :
  npy_path (firstn (S k) (parent filelist_path)) = false.
Proof. destruct k as [|k]; reflexivity. Qed.

Lemma load_filelist_missing w :
  fs_typed w -> files w !! filelist_path = None ->
  load_filelist w
  = (Raise FileNotFoundError, log_event (EvLoad filelist_path) w).
Proof.
  intros Ht Hnone. unfold load_filelist. apply bind_raise.
  apply np_load_missing;
    [exact Ht | reflexivity | apply filelist_prefixes | exact Hnone].
Qed.

(** X8. Passes before [init].  On a store with the cache directory and
    no identifier list, every create function stops with
    [FileNotFoundError] at the load of the list, after it has made its own
    directory and nothing else: no file is written, and for the memmap
    layout the block is not opened.  Every test function stops with the
    same error at the same load; the per-file ones have printed their
    banner by then. *)
Theorem passes_without_list (w : world) (size : Z) :
  ["cache"%string] ∈ dirs w -> fs_typed w ->
  files w !! filelist_path = None ->
  (forall l,
     create_files l size w =
       (Raise FileNotFoundError,
        log_event (EvLoad filelist_path)
          (add_dir (layout_dir l) (log_event (EvMkdir (layout_dir l)) w)))) /\
  create_files_memmap size w =
    (Raise FileNotFoundError,
     log_event (EvLoad filelist_path)
       (add_dir memmap_dir (log_event (EvMkdir memmap_dir) w))) /\
  (forall l,
     test_files l size w =
       (Raise FileNotFoundError,
        log_event (EvLoad filelist_path) (log_event (banner l) w))) /\
  test_memmap size w =
    (Raise FileNotFoundError, log_event (EvLoad filelist_path) w).
Proof.
  intros Hc Ht Hnone.
  assert (Hmk : forall p : path,
            (exists c, p = ["cache"%string; c]) -> npy_path p = false ->
            path_mkdir p false w
            = (Ok tt, add_dir p (log_event (EvMkdir p) w))).
  { intros p (c & ->) Hp. apply path_mkdir_ok; [discriminate | |].
    - apply resolve_in_cache, Hc.
    - apply typed_not_file; assumption. }
  assert (Hload : forall p : path,
            npy_path p = false ->
            load_filelist (add_dir p (log_event (EvMkdir p) w))
            = (Raise FileNotFoundError,
               log_event (EvLoad filelist_path)
                 (add_dir p (log_event (EvMkdir p) w)))).
  { intros p Hp. apply load_filelist_missing; [|exact Hnone].
    destruct Ht as [Hd Hf]. split; [|exact Hf].
    intros q Hq. cbn [dirs add_dir log_event] in Hq.
    apply elem_of_union in Hq as [Hq | Hq]; [|apply Hd, Hq].
    apply elem_of_singleton in Hq. subst q. exact Hp. }
  split; [|split; [|split]].
  - intros l.
    assert (Hp : npy_path (layout_dir l) = false) by (destruct l; reflexivity).
    assert (Hrun : path_mkdir (layout_dir l) false w
                   = (Ok tt, add_dir (layout_dir l)
                               (log_event (EvMkdir (layout_dir l)) w))).
    { apply Hmk; [|exact Hp]. destruct l; eexists; reflexivity. }
    destruct l; cbn [create_files];
      unfold create_files_flat, create_files_two_level,
        create_files_four_level;
      rewrite (bind_ok _ _ w tt _ Hrun); apply bind_raise, Hload, Hp.
  - unfold create_files_memmap.
    rewrite (bind_ok _ _ w tt
               (add_dir memmap_dir (log_event (EvMkdir memmap_dir) w))).
    2:{ apply Hmk; [eexists; reflexivity | reflexivity]. }
    apply bind_raise, Hload. reflexivity.
  - intros l.
    assert (Hb : load_filelist (log_event (banner l) w)
                 = (Raise FileNotFoundError,
                    log_event (EvLoad filelist_path)
                      (log_event (banner l) w))).
    { apply load_filelist_missing; [|exact Hnone].
      destruct Ht as [Hd Hf]. split; assumption. }
    destruct l; cbn [test_files]; cbv [banner banner_message] in Hb |- *;
      unfold test_flat, test_two_level, test_four_level;
      (rewrite (bind_ok _ _ w tt (log_event (EvPrint (MsgText _)) w))
         by reflexivity);
      apply bind_raise; exact Hb.
  - unfold test_memmap. apply bind_raise.
    apply load_filelist_missing; assumption.
Qed.

End Missing.

Lemma passes_without_list_witness :
  let w := add_dir ["cache"%string]
             (Examples.fresh_world Examples.table_random_state) in
  (["cache"%string] ∈ dirs w) /\ fs_typed w /\
  files w !! filelist_path = None /\
  (forall l,
     create_files l 256 w =
       (Raise FileNotFoundError,
        log_event (EvLoad filelist_path)
          (add_dir (layout_dir l) (log_event (EvMkdir (layout_dir l)) w)))) /\
  create_files_memmap 256 w =
    (Raise FileNotFoundError,
     log_event (EvLoad filelist_path)
       (add_dir memmap_dir (log_event (EvMkdir memmap_dir) w))) /\
  (forall l,
     @test_files _ _ Examples.simple_stats l 256 w =
       (Raise FileNotFoundError,
        log_event (EvLoad filelist_path) (log_event (banner l) w))) /\
  @test_memmap _ _ Examples.simple_stats 256 w =
    (Raise FileNotFoundError, log_event (EvLoad filelist_path) w).
Proof.
  cbv zeta.
  set (w := add_dir ["cache"%string]
              (Examples.fresh_world Examples.table_random_state)).
  assert (Hc : ["cache"%string] ∈ dirs w).
  { apply elem_of_union_l, elem_of_singleton. reflexivity. }
  assert (Ht : fs_typed w).
  { split.
    - intros p Hp. cbn in Hp. apply elem_of_union in Hp as [Hp | Hp].
      + apply elem_of_singleton in Hp. subst p. reflexivity.
      + apply elem_of_empty in Hp. contradiction.
    - intros p f Hp. cbn in Hp. rewrite lookup_empty in Hp. discriminate. }
  assert (Hnone : files w !! filelist_path = None) by apply lookup_empty.
  split; [exact Hc|]. split; [exact Ht|]. split; [exact Hnone|].
  exact (passes_without_list (NS := Examples.simple_stats) w 256 Hc Ht Hnone).
Defined.

Section Unprepared.
Context `{RS : RandomState} `{US : UuidSource} `{NS : NumpyStats}.

Implicit Types (w : world) (names : list string).

(** X9. Passes on an empty identifier list (after [init 0]).  A per-file
    create pass completes and writes no file.  A per-file test pass loads
    the list, has no record to visit, and stops with [ValueError] at the
    maximum of the empty list of means: it prints its banner and no
    statistics, and changes no file. *)
Theorem passes_on_empty_list (l : layout) (size : Z) (w : world) :
  ready w [] -> 0 <= size < 2 ^ 50 ->
  (exists w', create_files l size w = (Ok tt, w') /\ files w' = files w) /\
  (exists w', test_files l size w = (Raise ValueError, w') /\
              files w' = files w /\
              log w' = log w ++ [banner l; EvLoad filelist_path]).
Proof.
  intros Hready Hsize. split.
  - destruct (create_files_spec l size w [] Hready Hsize)
      as (w' & Hrun & _ & Hfiles & _).
    exists w'. split; [exact Hrun | exact Hfiles].
  - pose proof (load_filelist_ok _ _ (ready_log_event (banner l) w [] Hready))
      as Hload.
    destruct l; cbn [test_files]; cbv [banner banner_message] in Hload |- *;
      unfold test_flat, test_two_level, test_four_level;
      (rewrite (bind_ok _ _ w tt (log_event (EvPrint (MsgText _)) w))
         by reflexivity);
      rewrite (bind_ok _ _ _ _ _ Hload);
      (eexists; split; [reflexivity|]; split; [reflexivity|]);
      cbn [log log_event set_rng]; rewrite <- app_assoc; reflexivity.
Qed.





End Unprepared.

Lemma passes_on_empty_list_witness :
  let w := Examples.listed_world Examples.table_random_state [] in
  ready w [] /\ 0 <= 256 < 2 ^ 50 /\
  (exists w', create_files TwoLevel 256 w = (Ok tt, w') /\
              files w' = files w) /\
  (exists w', @test_files _ _ Examples.simple_stats TwoLevel 256 w
              = (Raise ValueError, w') /\
              files w' = files w /\
              log w' = log w ++ [banner TwoLevel; EvLoad filelist_path]).
Proof.
  cbv zeta.
  pose proof (listed_world_ready Examples.table_random_state []
                (List.Forall_nil _)) as Hr.
  assert (Hsize : 0 <= 256 < 2 ^ 50) by lia.
  split; [exact Hr|]. split; [exact Hsize|].
  exact (passes_on_empty_list (NS := Examples.simple_stats) TwoLevel 256 _
           Hr Hsize).
Defined.


(** ** The command dispatch *)

Section Commands.
Context `{RS : RandomState} `{US : UuidSource} `{NS : NumpyStats}
  `{PE : PyEval}.

Implicit Types (w : world) (a : arguments).

Lemma script_start a w :
  is_file w ["cache"%string] = false ->
  script a w = main a (add_dir ["cache"%string]
                         (log_event (EvMkdir ["cache"%string]) w)).
Proof.
  intros Hfile. unfold script.
  rewrite (bind_ok _ _ w tt
             (add_dir ["cache"%string]
                (log_event (EvMkdir ["cache"%string]) w)));
    [reflexivity|].
  apply path_mkdir_ok; [discriminate | reflexivity | exact Hfile].
Qed.

Lemma script_pass create t s size w :
  is_file w ["cache"%string] = false -> int_of_str s = Ok size ->
  script (command_arguments create t (Some s)) w
  = pass create t size
      (before_eval (command_arguments create t (Some s)) w).
Proof.
  intros Hfile Hs. rewrite (script_start _ w Hfile). unfold main.
  rewrite (bind_ok _ _ _ tt
             (before_eval (command_arguments create t (Some s)) w))
    by reflexivity.
  assert (Hsize : size_argument (command_arguments create t (Some s))
                    (before_eval (command_arguments create t (Some s)) w)
                  = (Ok size,
                     before_eval (command_arguments create t (Some s)) w)).
  { unfold size_argument, lift. cbn [arg_size command_arguments].
    rewrite Hs. reflexivity. }
  destruct create, t as [[]|];
    cbn [arg_init arg_create arg_test arg_flat arg_two_level arg_four_level
         command_arguments negb pass create_files test_files];
    apply bind_ok; exact Hsize.
Qed.

(** X11. The size is read before the pass starts.  For a [create] or
    [test] command whose [--size] entry is absent ([int(None)] is a
    [TypeError]) or is text [int] rejects, the script stops with that
    exception as soon as it has made the cache directory and printed the
    arguments: the function of the layout has not been entered, so no
    layout directory is made, no file is read or written and nothing else
    is printed. *)
Theorem size_read_before_pass (a : arguments) (w : world) (e : exn) :
  arg_init a = false -> arg_create a || arg_test a = true ->
  is_file w ["cache"%string] = false ->
  (arg_size a = None /\ e = TypeError) \/
  (exists s, arg_size a = Some s /\ int_of_str s = Raise e) ->
  script a w = (Raise e, before_eval a w).
Proof.
  intros Hinit Hcmd Hfile Hsize. rewrite (script_start a w Hfile).
  unfold main.
  rewrite (bind_ok _ _ _ tt (before_eval a w)) by reflexivity.
  assert (Hraise : size_argument a (before_eval a w)
                   = (Raise e, before_eval a w)).
  { unfold size_argument. destruct Hsize as [[-> ->] | (s & -> & Hs)].
    - reflexivity.
    - unfold lift. rewrite Hs. reflexivity. }
  rewrite Hinit.
  destruct (arg_create a); [|destruct (arg_test a); [|discriminate]];
    destruct (arg_flat a), (arg_two_level a), (arg_four_level a);
    apply bind_raise; exact Hraise.
Qed.

End Commands.

Lemma size_read_before_pass_witness :
  let a := command_arguments true (Some TwoLevel) None in
  let w := Examples.fresh_world Examples.table_random_state in
  arg_init a = false /\ arg_create a || arg_test a = true /\
  is_file w ["cache"%string] = false /\
  ((arg_size a = None /\ TypeError = TypeError) \/
   (exists s, arg_size a = Some s /\
              @int_of_str Examples.literal_builtins s = Raise TypeError)) /\
  @script _ _ Examples.simple_stats Examples.literal_builtins a w
  = (Raise TypeError, before_eval a w).
Proof.
  cbv zeta.
  set (a := command_arguments true (Some TwoLevel) None).
  set (w := Examples.fresh_world Examples.table_random_state).
  assert (Hinit : arg_init a = false) by reflexivity.
  assert (Hcmd : arg_create a || arg_test a = true) by reflexivity.
  assert (Hfile : is_file w ["cache"%string] = false) by reflexivity.
  assert (Hsize : (arg_size a = None /\ TypeError = TypeError) \/
            (exists s, arg_size a = Some s /\
               @int_of_str Examples.literal_builtins s = Raise TypeError))
    by (left; split; reflexivity).
  split; [exact Hinit|]. split; [exact Hcmd|]. split; [exact Hfile|].
  split; [exact Hsize|].
  exact (size_read_before_pass (NS := Examples.simple_stats)
           (PE := Examples.literal_builtins) a w TypeError
           Hinit Hcmd Hfile Hsize).
Defined.

(** ** From an empty directory to the statistics *)

Section EndToEnd.
Context `{RS : RandomState} `{US : UuidSource} `{NS : NumpyStats}
  `{PE : PyEval}.

Implicit Types (w : world) (a : arguments) (names : list string).

Lemma before_eval_known a w :
  ["cache"%string] ∈ dirs w ->
  before_eval a w =
    log_event (EvPrint (MsgArguments a))
      (log_event (EvMkdir ["cache"%string]) w).
Proof.
  intros Hc. unfold before_eval. rewrite add_dir_known; [reflexivity|].
  exact Hc.
Qed.

Lemma before_eval_ready a w names :
  ready w names -> ready (before_eval a w) names.
Proof.
  intros Hready. rewrite before_eval_known by apply Hready.
  apply ready_log_event, ready_log_event, Hready.
Qed.

Lemma before_eval_readable a w names p xs :
  ready w names -> readable w p xs -> readable (before_eval a w) p xs.
Proof.
  intros Hready Hr. rewrite before_eval_known by apply Hready.
  apply readable_log_event, readable_log_event, Hr.
Qed.

Lemma ready_cache_not_file w names :
  ready w names -> is_file w ["cache"%string] = false.
Proof. intros [_ Ht _ _]. apply typed_not_file; [exact Ht | reflexivity]. Qed.

(** [create_filelist] on a store with the cache directory. *)
Lemma create_filelist_ready w n :
  ["cache"%string] ∈ dirs w -> fs_typed w -> 0 <= n ->
  exists names w',
    create_filelist n w = (Ok tt, w') /\ ready w' names /\
    List.length names = Z.to_nat n.
Proof.
  intros Hcache Ht Hn.
  pose proof (uuid_hexes_spec (Z.to_nat n) (os_entropy w)) as [Hlen Hids].
  destruct (uuid_hexes (Z.to_nat n) (os_entropy w)) as [names s] eqn:Hgen.
  cbn [fst] in Hlen, Hids.
  set (w1 := set_entropy s w).
  set (w2 := write_file filelist_path (NpyStr names)
               (log_event (EvSave filelist_path (NpyStr names)) w1)).
  set (w3 := log_event (EvLoad filelist_path) w2).
  assert (Hnd : is_dir w filelist_path = false)
    by (apply typed_not_dir; [exact Ht | reflexivity]).
  exists names, w3. split; [|split; [|exact Hlen]].
  - unfold create_filelist.
    rewrite (bind_ok _ _ w names w1)
      by (unfold fresh_identifiers; rewrite Hgen; reflexivity).
    rewrite (bind_ok _ _ w1 tt w2).
    2:{ apply np_save_ok; [apply resolve_in_cache, Hcache | exact Hnd]. }
    rewrite (bind_ok _ _ w2 (NpyStr names) w3).
    2:{ apply np_load_ok.
        - apply resolve_in_cache, Hcache.
        - exact Hnd.
        - apply lookup_insert_eq. }
    unfold py_assert. cbn [shape0].
    rewrite (proj2 (Z.eqb_eq _ _)) by lia. reflexivity.
  - destruct Ht as [Hd Hf]. split.
    + exact Hcache.
    + split; [exact Hd|]. intros p f Hp. cbn [files w3 w2 log_event
        write_file w1 set_entropy] in Hp.
      destruct (decide (p = filelist_path)) as [-> | Hne]; [reflexivity|].
      rewrite lookup_insert_ne in Hp by congruence. apply (Hf p f Hp).
    + apply lookup_insert_eq.
    + exact Hids.
Qed.

(** A create pass and the test pass of the same layout, each entered
    from the command dispatch. *)
Lemma pass_create_test t size w names a2 a3 :
  ready w names -> names <> [] -> 0 < size < 2 ^ 50 ->
  exists w2 w3,
    pass true t size (before_eval a2 w) = (Ok tt, w2) /\
    ready w2 names /\
    pass false t size (before_eval a3 w2) = (Ok tt, w3) /\
    files w3 = files w2 /\
    let means := record_means t size names w2 in
    List.length means = List.length names /\
    exists evs,
      log w3 = log w2 ++ evs /\
      printed evs =
        MsgArguments a3 ::
        match t with Some l => [banner_message l] | None => [] end ++
        [MsgStats (amax32 means) (mean32 means) (amin32 means); MsgTook].
Proof.
  intros Hready Hne Hsize. cbv zeta.
  pose proof (before_eval_ready a2 w names Hready) as Hready'.
  destruct t as [l|]; cbn [pass record_means].
  - destruct (create_files_spec l size _ names Hready' ltac:(lia))
      as (w2 & Hrun2 & Hcreated).
    pose proof Hcreated as (_ & _ & _ & Hready2 & _).
    pose proof (before_eval_ready a3 w2 names Hready2) as Hready2'.
    destruct (test_files_spec l size _ names Hready2' Hne)
      as (w3 & Hrun3 & Htested).
    { intros x Hx.
      destruct (created_readable _ size names _ w2 x ltac:(lia) Hcreated Hx)
        as (arr & Hr & _).
      exists arr. rewrite <- locations_agree.
      apply before_eval_readable with names; assumption. }
    exists w2, w3. split; [exact Hrun2|]. split; [exact Hready2|].
    split; [exact Hrun3|].
    pose proof Htested as (Hfiles & _ & _). split; [exact Hfiles|].
    destruct (tested_loaded _ _ _ _ _ Htested) as (evs & Hlog & _ & Hprinted).
    split.
    + rewrite length_map.
      apply Permutation_length, access_order_Permutation.
    + exists ([EvMkdir ["cache"%string]; EvPrint (MsgArguments a3)] ++ evs).
      split.
      * rewrite Hlog. unfold before_eval. cbn [log add_dir log_event].
        rewrite <- !app_assoc. reflexivity.
      * rewrite printed_app, Hprinted. reflexivity.
  - destruct (memmap_create_rows size _ names Hready' Hne ltac:(lia))
      as (w2 & evs2 & Hrun2 & _ & _ & Hblk & Hdirs & Hother).
    pose proof (ready_after_memmap _ w2 names _ Hready' Hdirs Hblk Hother)
      as Hready2.
    pose proof (before_eval_ready a3 w2 names Hready2) as Hready2'.
    destruct (memmap_rows_spec size (List.length names) (rk_seed 515))
      as [Hlen Huniform].
    fold (generated_rows size (List.length names)) in Hlen, Huniform.
    assert (Hdir : memmap_dir ∈ dirs (before_eval a3 w2)).
    { unfold before_eval. cbn [dirs add_dir log_event]. rewrite Hdirs.
      apply elem_of_union_r, elem_of_union_l, elem_of_singleton.
      reflexivity. }
    destruct (test_memmap_spec size (before_eval a3 w2) names _ Hready2' Hne
                ltac:(lia) Hdir Hblk) as (w3 & Hrun3 & Htested).
    { rewrite (concat_length_uniform _ _ Huniform), Hlen. nia. }
    exists w2, w3. split; [exact Hrun2|]. split; [exact Hready2|].
    split; [exact Hrun3|].
    pose proof Htested as (Hfiles & _ & _). split; [exact Hfiles|].
    destruct (tested_memmap_fetched _ _ _ _ Htested)
      as (evs & Hlog & _ & Hprinted).
    split.
    + rewrite length_map.
      rewrite (Permutation_length
                 (access_order_Permutation (range (List.length names)))).
      unfold range. rewrite length_map, length_seq. reflexivity.
    + exists ([EvMkdir ["cache"%string]; EvPrint (MsgArguments a3)] ++ evs).
      split.
      * rewrite Hlog. unfold before_eval. cbn [log add_dir log_event].
        rewrite <- !app_assoc. reflexivity.
      * rewrite printed_app, Hprinted. reflexivity.
Qed.

(** X12. The three commands in a row.  From an empty working directory,
    [init COUNT] with a COUNT whose evaluation changes nothing on disk and
    gives a number truncating to [n > 0], then [create LAYOUT --size=s]
    and [test LAYOUT --size=s] with the same layout and a size
    [0 < int(s) < 2^50] all run to the end: the first leaves a list of [n]
    identifiers, the third changes no file and prints the arguments, the
    banner of a per-file layout, and then the maximum, mean and minimum of
    the [n] means of the records that [create] left, taken in the order of
    the seeded shuffle, followed by the time line. *)
Theorem init_create_test (t : option layout) (c s : string) (v : pyval)
    (n size : Z) (w0 we : world) :
  dirs w0 = ∅ -> files w0 = ∅ ->
  eval c (before_eval (Examples.init_arguments c) w0) = (Ok v, we) ->
  files we = ∅ -> dirs we = {[ ["cache"%string] ]} ->
  py_int v = Ok n -> 0 < n ->
  int_of_str s = Ok size -> 0 < size < 2 ^ 50 ->
  exists names w1 w2 w3,
    script (Examples.init_arguments c) w0 = (Ok tt, w1) /\
    files w1 !! filelist_path = Some (NpyStr names) /\
    Z.of_nat (List.length names) = n /\
    script (command_arguments true t (Some s)) w1 = (Ok tt, w2) /\
    script (command_arguments false t (Some s)) w2 = (Ok tt, w3) /\
    files w3 = files w2 /\
    let means := record_means t size names w2 in
    Z.of_nat (List.length means) = n /\
    exists evs,
      log w3 = log w2 ++ evs /\
      printed evs =
        MsgArguments (command_arguments false t (Some s)) ::
        match t with Some l => [banner_message l] | None => [] end ++
        [MsgStats (amax32 means) (mean32 means) (amin32 means); MsgTook].
Proof.
  intros Hdirs Hfiles Hv Hfe Hde Hn Hpos Hs Hsize.
  set (a1 := Examples.init_arguments c) in *.
  assert (Hfile0 : is_file w0 ["cache"%string] = false).
  { apply is_file_false. rewrite Hfiles. apply lookup_empty. }
  assert (Hc0 : ["cache"%string] ∈ dirs we).
  { rewrite Hde. apply elem_of_singleton. reflexivity. }
  assert (Ht0 : fs_typed we).
  { split.
    - intros p Hp. rewrite Hde in Hp.
      apply elem_of_singleton in Hp. subst p. reflexivity.
    - intros p f Hp. rewrite Hfe, lookup_empty in Hp. discriminate. }
  destruct (create_filelist_ready we n Hc0 Ht0 ltac:(lia))
    as (names & w1 & Hrun1 & Hready1 & Hlen).
  assert (Hne : names <> []).
  { intros ->. cbn in Hlen. lia. }
  destruct (pass_create_test t size w1 names
              (command_arguments true t (Some s))
              (command_arguments false t (Some s)) Hready1 Hne Hsize)
    as (w2 & w3 & Hrun2 & Hready2 & Hrun3 & Hfiles3 & Hmeans & evs & Hlog
        & Hprinted).
  exists names, w1, w2, w3. split; [|split; [|split; [|split; [|split;
    [|split]]]]].
  - rewrite (script_init a1 c w0) by (reflexivity || exact Hfile0).
    rewrite (bind_ok _ _ _ v we) by exact Hv.
    rewrite (bind_ok _ _ _ n we)
      by (unfold lift; rewrite Hn; reflexivity).
    exact Hrun1.
  - apply Hready1.
  - rewrite Hlen. lia.
  - rewrite (script_pass true t s size w1
               (ready_cache_not_file _ _ Hready1) Hs).
    exact Hrun2.
  - rewrite (script_pass false t s size w2
               (ready_cache_not_file _ _ Hready2) Hs).
    exact Hrun3.
  - exact Hfiles3.
  - cbv zeta. split.
    + rewrite Hmeans, Hlen. lia.
    + exists evs. split; [exact Hlog | exact Hprinted].
Qed.

End EndToEnd.

(** [init 3e5], [create two_level --size=256] and [test two_level
    --size=256] from an empty directory. *)
Lemma init_create_test_witness :
  let w0 := Examples.fresh_world Examples.table_random_state in
  let we := before_eval (Examples.init_arguments "3e5") w0 in
  let t := Some TwoLevel in
  dirs w0 = ∅ /\ files w0 = ∅ /\
  @eval Examples.literal_builtins _ _ "3e5" we
  = (Ok (PyFloat (Float.lit 300000)), we) /\
  files we = ∅ /\ dirs we = {[ ["cache"%string] ]} /\
  @py_int Examples.literal_builtins (PyFloat (Float.lit 300000))
  = Ok 300000 /\
  0 < 300000 /\
  @int_of_str Examples.literal_builtins "256" = Ok 256 /\
  0 < 256 < 2 ^ 50 /\
  exists names w1 w2 w3,
    @script _ _ Examples.simple_stats Examples.literal_builtins
      (Examples.init_arguments "3e5") w0 = (Ok tt, w1) /\
    files w1 !! filelist_path = Some (NpyStr names) /\
    Z.of_nat (List.length names) = 300000 /\
    @script _ _ Examples.simple_stats Examples.literal_builtins
      (command_arguments true t (Some "256"%string)) w1 = (Ok tt, w2) /\
    @script _ _ Examples.simple_stats Examples.literal_builtins
      (command_arguments false t (Some "256"%string)) w2 = (Ok tt, w3) /\
    files w3 = files w2 /\
    let means := @record_means _ _ Examples.simple_stats t 256 names w2 in
    Z.of_nat (List.length means) = 300000 /\
    exists evs,
      log w3 = log w2 ++ evs /\
      printed evs =
        MsgArguments (command_arguments false t (Some "256"%string)) ::
        [banner_message TwoLevel] ++
        [MsgStats (@amax32 Examples.simple_stats means)
                  (@mean32 Examples.simple_stats means)
                  (@amin32 Examples.simple_stats means); MsgTook].
Proof.
  cbv zeta.
  set (w0 := Examples.fresh_world Examples.table_random_state).
  set (we := before_eval (Examples.init_arguments "3e5") w0).
  assert (Hd : dirs w0 = ∅) by reflexivity.
  assert (Hf : files w0 = ∅) by reflexivity.
  assert (Hv : @eval Examples.literal_builtins _ _ "3e5" we
               = (Ok (PyFloat (Float.lit 300000)), we)).
  { cbn [eval Examples.literal_builtins]. f_equal; vm_compute; reflexivity. }
  assert (Hfe : files we = ∅) by reflexivity.
  assert (Hde : dirs we = {[ ["cache"%string] ]}).
  { unfold we, before_eval, w0. cbn [dirs add_dir log_event
      Examples.fresh_world]. apply union_empty_r_L. }
  assert (Hn : @py_int Examples.literal_builtins (PyFloat (Float.lit 300000))
               = Ok 300000) by (vm_compute; reflexivity).
  assert (Hpos : 0 < 300000) by lia.
  assert (Hs : @int_of_str Examples.literal_builtins "256" = Ok 256)
    by (vm_compute; reflexivity).
  assert (Hsize : 0 < 256 < 2 ^ 50) by lia.
  split; [exact Hd|]. split; [exact Hf|]. split; [exact Hv|].
  split; [exact Hfe|]. split; [exact Hde|].
  split; [exact Hn|]. split; [exact Hpos|]. split; [exact Hs|].
  split; [exact Hsize|].
  exact (init_create_test (NS := Examples.simple_stats)
           (PE := Examples.literal_builtins) (Some TwoLevel) "3e5" "256"
           _ 300000 256 w0 we Hd Hf Hv Hfe Hde Hn Hpos Hs Hsize).
Defined.

(** ** The memmap block between create and test *)

Section MemmapSizes.
Context `{RS : RandomState} `{US : UuidSource} `{NS : NumpyStats}.

(** X13. The size given to [test memmap] against the size given to
    [create memmap].  On a store with a non-empty identifier list,
    [create_files_memmap size_c] completes and leaves a block of exactly
    COUNT * size_c values, whatever block was there before (mode ["w+"]
    starts the file afresh).  A following [test_memmap size_t] completes
    when [size_t <= size_c] and raises [ValueError] when [size_t > size_c];
    in both cases it leaves the block as it is. *)
Theorem memmap_sizes (size_c size_t : Z) (w : world) (names : list string) :
  ready w names -> names <> [] -> 0 < size_c -> 0 < size_t ->
  exists w1 w2 r,
    create_files_memmap size_c w = (Ok tt, w1) /\
    Z.of_nat (List.length (block w1 memmap_path))
    = Z.of_nat (List.length names) * size_c /\
    test_memmap size_t w1 = (r, w2) /\
    r = (if size_t <=? size_c then Ok tt else Raise ValueError) /\
    files w2 = files w1.
Proof.
  intros Hready Hne Hc Ht.
  destruct (memmap_create_rows size_c w names Hready Hne Hc)
    as (w1 & evs & Hrun1 & _ & _ & Hblk & Hdirs & Hother).
  pose proof (ready_after_memmap w w1 names _ Hready Hdirs Hblk Hother)
    as Hready1.
  destruct (memmap_rows_spec size_c (List.length names) (rk_seed 515))
    as [Hlen Huniform].
  fold (generated_rows size_c (List.length names)) in Hlen, Huniform.
  assert (Hcount : Z.of_nat (List.length
                     (concat (generated_rows size_c (List.length names))))
                   = Z.of_nat (List.length names) * size_c).
  { rewrite (concat_length_uniform _ _ Huniform), Hlen. nia. }
  assert (Hdir : memmap_dir ∈ dirs w1).
  { rewrite Hdirs. apply elem_of_union_l, elem_of_singleton. reflexivity. }
  assert (Hn : 0 < Z.of_nat (List.length names))
    by (destruct names; [contradiction | cbn; lia]).
  exists w1.
  destruct (size_t <=? size_c) eqn:Hcmp.
  - apply Z.leb_le in Hcmp.
    destruct (test_memmap_spec size_t w1 names _ Hready1 Hne Ht Hdir Hblk)
      as (w2 & Hrun2 & Hfiles & _); [rewrite Hcount; nia|].
    exists w2, (Ok tt). split; [exact Hrun1|]. split.
    { unfold block. rewrite Hblk. exact Hcount. }
    split; [exact Hrun2|]. split; [reflexivity | exact Hfiles].
  - apply Z.leb_gt in Hcmp.
    eexists _, (Raise ValueError). split; [exact Hrun1|]. split.
    { unfold block. rewrite Hblk. exact Hcount. }
    split; [|split; [reflexivity|]].
    + apply (test_memmap_small_run size_t w1 names _ Hready1 Hne Ht Hdir
               Hblk). rewrite Hcount. nia.
    + reflexivity.
Qed.

End MemmapSizes.

Lemma memmap_sizes_witness :
  let names := [Examples.id_a; Examples.id_b] in
  let w := Examples.listed_world Examples.table_random_state names in
  ready w names /\ names <> [] /\ 0 < 4 /\ 0 < 8 /\
  exists w1 w2 r,
    create_files_memmap 4 w = (Ok tt, w1) /\
    Z.of_nat (List.length (block w1 memmap_path))
    = Z.of_nat (List.length names) * 4 /\
    @test_memmap _ _ Examples.simple_stats 8 w1 = (r, w2) /\
    r = (if 8 <=? 4 then Ok tt else Raise ValueError) /\
    files w2 = files w1.
Proof.
  cbv zeta.
  pose proof (listed_world_ready Examples.table_random_state
                [Examples.id_a; Examples.id_b] example_identifiers) as Hr.
  assert (Hne : [Examples.id_a; Examples.id_b] <> []) by discriminate.
  assert (Hc : 0 < 4) by lia. assert (Ht : 0 < 8) by lia.
  split; [exact Hr|]. split; [exact Hne|]. split; [exact Hc|].
  split; [exact Ht|].
  exact (memmap_sizes (NS := Examples.simple_stats) 4 8 _ _ Hr Hne Hc Ht).
Defined.

(** ** A regular file where the cache directory should be *)

Section CacheInTheWay.
Context `{RS : RandomState} `{US : UuidSource} `{NS : NumpyStats}
  `{PE : PyEval}.

(** X14. The module-level [Path("cache").mkdir(exist_ok=True)] runs
    before every command.  When [cache] exists as a regular file (and so
    is not a directory), every command stops there with
    [FileExistsError]: the arguments are not printed, the command is not
    looked at, and nothing on disk changes. *)
Theorem cache_made_first (a : arguments) (w : world) :
  (["cache"%string] ∉ dirs w) -> is_file w ["cache"%string] = true ->
  script a w
  = (Raise FileExistsError, log_event (EvMkdir ["cache"%string]) w).
Proof.
  intros Hnd Hf. set (w1 := log_event (EvMkdir ["cache"%string]) w).
  assert (Hd : is_dir w1 ["cache"%string] = false).
  { unfold is_dir. apply bool_decide_eq_false.
    intros [H | H]; [discriminate | contradiction]. }
  assert (Hos : os_mkdir ["cache"%string] w1 = (Raise FileExistsError, w1)).
  { unfold os_mkdir.
    change (resolve_parent w1 ["cache"%string]) with (@None exn).
    change (is_file w1 ["cache"%string]) with (is_file w ["cache"%string]).
    rewrite Hd, Hf. reflexivity. }
  unfold script. apply bind_raise. unfold path_mkdir.
  rewrite (bind_ok _ _ w tt w1) by reflexivity.
  unfold mkdir_no_parents. rewrite Hos, Hd. reflexivity.
Qed.

End CacheInTheWay.

Lemma cache_made_first_witness :
  let w := write_file ["cache"%string] (NpyStr [])
             (Examples.fresh_world Examples.table_random_state) in
  let a := command_arguments false (Some Flat) (Some "256"%string) in
  (["cache"%string] ∉ dirs w) /\ is_file w ["cache"%string] = true /\
  @script _ _ Examples.simple_stats Examples.literal_builtins a w
  = (Raise FileExistsError, log_event (EvMkdir ["cache"%string]) w).
Proof.
  cbv zeta.
  set (w := write_file ["cache"%string] (NpyStr [])
              (Examples.fresh_world Examples.table_random_state)).
  assert (Hnd : ["cache"%string] ∉ dirs w) by apply not_elem_of_empty.
  assert (Hf : is_file w ["cache"%string] = true).
  { unfold is_file. apply bool_decide_eq_true. eexists.
    apply lookup_insert_eq. }
  split; [exact Hnd|]. split; [exact Hf|].
  exact (cache_made_first (NS := Examples.simple_stats)
           (PE := Examples.literal_builtins) _ w Hnd Hf).
Defined.

(** ** What the arrays hold *)

(** Rounding to binary32 ([astype(np.float32)]): the same computation as
    for binary64 with 24 bits of mantissa and the exponent range of
    float32; it never crosses an integer below [2^24]. *)

Lemma renorm_f32 m1 e1 :
  0 < m1 <= 2 ^ 24 -> -149 <= e1 ->
  exists m2 e2,
    shr_fexp 24 128 m1 e1 loc_Exact =
      ({| shr_m := m2; shr_r := false; shr_s := false |}, e2) /\
    0 < m2 /\ (e2 = e1 /\ m2 = m1 \/ e2 = e1 + 1 /\ m1 = 2 * m2).
Proof.
  intros [Hpos Hle] He. destruct m1 as [|p|p]; try lia.
  unfold shr_fexp, shr_record_of_loc, Zdigits2, fexp, emin.
  pose proof (digits2_pos_bounds p) as [Hd _].
  destruct (Z.eq_dec (Z.pos p) (2 ^ 24)) as [E|NE].
  - assert (Hp : p = 16777216%positive)
      by (apply Pos2Z.inj; rewrite E; reflexivity).
    subst p. clear E Hd Hle Hpos. exists (2 ^ 23), (e1 + 1).
    replace (Z.max (Z.pos (digits2_pos 16777216) + e1 - 24) (3 - 128 - 24) - e1)
      with 1 by (cbn [digits2_pos Pos.succ]; lia).
    cbn. split; [reflexivity|]. split; [lia|]. right; lia.
  - assert (Z.pos (digits2_pos p) - 1 < 24).
    { apply (Z.pow_lt_mono_r_iff 2); lia. }
    exists (Z.pos p), e1.
    destruct (Z.max (Z.pos (digits2_pos p) + e1 - 24) (3 - 128 - 24) - e1) eqn:En;
      try lia; cbn [shr]; (split; [reflexivity|]); (split; [lia|]); left; lia.
Qed.

Lemma digits_exponent_le_f32 m e hi :
  hi < 2 ^ 24 -> Dyadic.le (Z.pos m) e hi ->
  Z.pos (digits2_pos m) + e <= 24.
Proof.
  intros Hhi Hle.
  pose proof (digits2_pos_bounds m) as [Hd _].
  set (d := Z.pos (digits2_pos m)) in *.
  destruct (Z.le_gt_cases (d + e) 24) as [|Hgt]; [assumption|exfalso].
  apply (dyadic_le_iff _ _ _ (Z.max (- e) 0)) in Hle; try lia.
  remember (Z.max (- e) 0) as k eqn:Hk.
  pose proof (pow2_pos k ltac:(lia)).
  assert (2 ^ (d - 1) * 2 ^ (e + k) <= Z.pos m * 2 ^ (e + k))
    by (apply Z.mul_le_mono_nonneg_r; [apply Z.lt_le_incl, pow2_pos|]; lia).
  rewrite <- pow2_split in * by lia.
  assert (hi * 2 ^ k < 2 ^ 24 * 2 ^ k) by (apply Z.mul_lt_mono_pos_r; lia).
  rewrite <- pow2_split in * by lia.
  assert (2 ^ (24 + k) <= 2 ^ (d - 1 + (e + k)))
    by (apply Z.pow_le_mono_r; lia).
  lia.
Qed.

Lemma stage1_f32 m e mrs e1 :
  shr_fexp 24 128 (Z.pos m) e loc_Exact = (mrs, e1) ->
  let m1 := round_nearest_even (shr_m mrs) (loc_of_shr_record mrs) in
  let t := Z.max (Z.pos (digits2_pos m) + e - 24) (-149) in
  (t <= e /\ e1 = e /\ m1 = Z.pos m) \/
  (e < t /\ e1 = t /\
   let q := Z.pos m / 2 ^ (t - e) in
   q <= m1 <= q + 1 /\
   (Z.testbit (Z.pos m) (t - e - 1) = false -> m1 = q)).
Proof.
  unfold shr_fexp, shr_record_of_loc, Zdigits2, fexp, emin.
  change (3 - 128 - 24) with (-149).
  intros Hs. cbv zeta.
  remember (Z.max (Z.pos (digits2_pos m) + e - 24) (-149)) as t eqn:Ht.
  destruct (t - e) as [|p|p] eqn:En.
  - left. cbn [shr] in Hs. injection Hs as <- <-. cbn. lia.
  - right. destruct (shr_spec (Z.pos m) e p ltac:(lia)) as [s' Hsp].
    rewrite Hsp in Hs. injection Hs as <- <-. cbn [shr_m].
    split; [lia|]. split; [lia|].
    apply round_choice.
  - left. cbn [shr] in Hs. injection Hs as <- <-. cbn. lia.
Qed.

Lemma round_aux_between_f32 m e lo hi :
  0 <= lo -> hi < 2 ^ 24 ->
  Dyadic.ge (Z.pos m) e lo -> Dyadic.le (Z.pos m) e hi ->
  Dyadic.between (binary_round_aux 24 128 false (Z.pos m) e loc_Exact) lo hi.
Proof.
  intros Hlo Hhi Hge Hle.
  pose proof (digits_exponent_le_f32 m e hi Hhi Hle) as Hde.
  pose proof (digits2_pos_bounds m) as [Hd1 Hd2].
  unfold binary_round_aux.
  destruct (shr_fexp 24 128 (Z.pos m) e loc_Exact) as [mrs e1] eqn:E1.
  apply stage1_f32 in E1. cbv zeta in E1.
  set (m1 := round_nearest_even (shr_m mrs) (loc_of_shr_record mrs)) in *.
  set (d := Z.pos (digits2_pos m)) in *.
  remember (Z.max (d + e - 24) (-149)) as t eqn:Ht.
  change (128 - 24) with 104.
  destruct E1 as [(Hte & -> & Hm1)|(Hte & -> & Hq & Hr)].
  - (* the mantissa fits: no rounding *)
    assert (Hm24 : 0 < m1 <= 2 ^ 24).
    { rewrite Hm1. split; [lia|]. apply Z.lt_le_incl.
      apply Z.lt_le_trans with (2 ^ d); [lia|]. apply Z.pow_le_mono_r; lia. }
    destruct (renorm_f32 m1 e Hm24 ltac:(lia)) as (m2 & e2 & -> & Hm2 & Hcase).
    cbn [shr_m]. destruct m2 as [|m2|m2]; try lia.
    destruct Hcase as [[-> E]|[-> E]].
    + replace (e <=? 104) with true by lia.
      cbn [Dyadic.between]. rewrite E, Hm1. split; assumption.
    + replace (e + 1 <=? 104) with true by lia.
      rewrite Hm1 in E. rewrite E in Hge, Hle. cbn [Dyadic.between]. split.
      * apply (dyadic_ge_iff _ _ _ (Z.max (- e) 0 + 1)); try lia.
        apply (dyadic_ge_iff _ _ _ (Z.max (- e) 0 + 1)) in Hge; try lia.
        replace (e + 1 + (Z.max (- e) 0 + 1))
          with (Z.succ (e + (Z.max (- e) 0 + 1))) by lia.
        rewrite Z.pow_succ_r by lia. lia.
      * apply (dyadic_le_iff _ _ _ (Z.max (- e) 0 + 1)); try lia.
        apply (dyadic_le_iff _ _ _ (Z.max (- e) 0 + 1)) in Hle; try lia.
        replace (e + 1 + (Z.max (- e) 0 + 1))
          with (Z.succ (e + (Z.max (- e) 0 + 1))) by lia.
        rewrite Z.pow_succ_r by lia. lia.
  - (* the mantissa is shifted right by [t - e] bits and rounded *)
    set (q := Z.pos m / 2 ^ (t - e)) in *.
    pose proof (pow2_pos (t - e) ltac:(lia)) as Hpp.
    assert (Hqdef : 2 ^ (t - e) * q <= Z.pos m < 2 ^ (t - e) * (q + 1)).
    { unfold q. pose proof (Z.mul_div_le (Z.pos m) (2 ^ (t - e)) Hpp).
      pose proof (Z.mul_succ_div_gt (Z.pos m) (2 ^ (t - e)) Hpp). lia. }
    assert (Htle : t <= 0) by lia.
    assert (Htge : -149 <= t) by lia.
    apply (dyadic_ge_iff _ _ _ (- e)) in Hge; try lia.
    apply (dyadic_le_iff _ _ _ (- e)) in Hle; try lia.
    replace (e + - e) with 0 in Hge, Hle by lia.
    replace (- e) with (- t + (t - e)) in Hge, Hle by lia.
    rewrite pow2_split in Hge, Hle by lia.
    rewrite Z.pow_0_r, Z.mul_1_r in Hge, Hle.
    pose proof (pow2_pos (- t) ltac:(lia)) as Hpe.
    assert (Hlo1 : lo * 2 ^ (- t) <= m1).
    { assert (lo * 2 ^ (- t) < q + 1); [|lia].
      apply (Z.mul_lt_mono_pos_l (2 ^ (t - e))); lia. }
    assert (Hhi1 : m1 <= hi * 2 ^ (- t)).
    { assert (Hqk : q <= hi * 2 ^ (- t)).
      { apply (Z.mul_le_mono_pos_l _ _ (2 ^ (t - e))); lia. }
      destruct (Z.eq_dec q (hi * 2 ^ (- t))) as [Eq|]; [|lia].
      assert (Hexact : Z.pos m = 2 ^ (t - e) * q) by (rewrite Eq in *; lia).
      rewrite Hr; [lia|].
      rewrite Hexact, Z.mul_comm, Z.mul_pow2_bits_low by lia.
      reflexivity. }
    assert (Hm1le : m1 <= 2 ^ 24).
    { assert (q < 2 ^ 24); [|lia].
      apply (Z.mul_lt_mono_pos_l (2 ^ (t - e))); [lia|].
      apply Z.le_lt_trans with (Z.pos m); [lia|].
      apply Z.lt_le_trans with (2 ^ d); [lia|].
      rewrite <- pow2_split by lia. apply Z.pow_le_mono_r; lia. }
    assert (Hq0 : 0 <= q) by (apply Z.div_pos; lia).
    destruct (Z.eq_dec m1 0) as [Hz|Hnz].
    + rewrite Hz. unfold shr_fexp, shr_record_of_loc, Zdigits2, fexp, emin.
      destruct (Z.max (0 + t - 24) (3 - 128 - 24) - t) eqn:En2; try lia;
        cbn [shr shr_m]; cbn [Dyadic.between]; nia.
    + destruct (renorm_f32 m1 t ltac:(lia) ltac:(lia))
        as (m2 & e2 & -> & Hm2 & Hcase).
      cbn [shr_m]. destruct m2 as [|m2|m2]; try lia.
      destruct Hcase as [[-> E]|[-> E]].
      * replace (t <=? 104) with true by lia. cbn [Dyadic.between]. split.
        -- apply (dyadic_ge_iff _ _ _ (- t)); try lia.
           replace (t + - t) with 0 by lia. lia.
        -- apply (dyadic_le_iff _ _ _ (- t)); try lia.
           replace (t + - t) with 0 by lia. lia.
      * replace (t + 1 <=? 104) with true by lia. cbn [Dyadic.between]. split.
        -- apply (dyadic_ge_iff _ _ _ (- t + 1)); try lia.
           replace (t + 1 + (- t + 1)) with 2 by lia.
           rewrite pow2_split by lia. lia.
        -- apply (dyadic_le_iff _ _ _ (- t + 1)); try lia.
           replace (t + 1 + (- t + 1)) with 2 by lia.
           rewrite pow2_split by lia. lia.
Qed.

Lemma binary_round_between_f32 m e lo hi :
  0 <= lo -> hi < 2 ^ 24 ->
  Dyadic.ge (Z.pos m) e lo -> Dyadic.le (Z.pos m) e hi ->
  Dyadic.between (binary_round 24 128 false m e) lo hi.
Proof.
  intros Hlo Hhi Hge Hle. unfold binary_round.
  destruct (shl_align_spec m e (fexp 24 128 (Z.pos (digits2_pos m) + e)))
    as (sh & Hsh & Hm & He).
  destruct (shl_align m e _) as [mz ez]. cbn [fst snd] in Hm, He.
  apply round_aux_between_f32; try assumption; rewrite Hm, He.
  - apply dyadic_ge_shl; assumption.
  - apply dyadic_le_shl; assumption.
Qed.

Lemma to_float32_unit u :
  Float.in_unit u = true -> Dyadic.between (Float.to_float32 u) 0 1.
Proof.
  intros Hu. pose proof (in_unit_between u Hu) as Hb.
  destruct u as [[|]|[|]| |[|] m e]; cbn [Float.in_unit] in Hu;
    try discriminate; cbn [Float.to_float32].
  - exact Hb.
  - destruct Hb as [Hge Hle].
    apply binary_round_between_f32; [lia | lia | exact Hge | exact Hle].
Qed.

Section Contents.
Context `{RS : RandomState} `{US : UuidSource} `{NS : NumpyStats}.

Lemma draws_unit n : forall s,
  Forall (fun x => Float.in_unit x = true) (fst (draws n s)).
Proof.
  induction n as [|n IH]; intros s; cbn [draws]; [constructor|].
  pose proof (rk_double_unit s) as Hu.
  destruct (rk_double s) as [x s1]. specialize (IH s1).
  destruct (draws n s1) as [xs s2]. cbn [fst] in *.
  constructor; assumption.
Qed.

Lemma float32_draws n s :
  Forall (fun x => Dyadic.between x 0 1)
         (List.map Float.to_float32 (fst (draws n s))).
Proof.
  apply Forall_map. eapply Forall_impl; [apply draws_unit|].
  intros x Hx. apply to_float32_unit, Hx.
Qed.

Lemma records_unit size n : forall s,
  Forall (fun r => Forall (fun x => Dyadic.between x 0 1) (snd r))
         (fst (records size n s)).
Proof.
  induction n as [|n IH]; intros s; cbn [records]; [constructor|].
  destruct (next_record size s) as [[r | e] s1] eqn:Hnext; [|constructor].
  specialize (IH s1). destruct (records size n s1) as [rs s2].
  cbn [fst] in *. constructor; [|exact IH].
  unfold next_record in Hnext. destruct (rk_double s) as [u s0].
  destruct (record_length u size) as [k | e]; [|discriminate].
  destruct (k <? 0); [discriminate|].
  pose proof (float32_draws (Z.to_nat k) s0) as Hd.
  destruct (draws (Z.to_nat k) s0) as [xs s3]. cbn [fst] in Hd.
  injection Hnext as <- _. exact Hd.
Qed.

Lemma memmap_rows_unit size n : forall s,
  Forall (Forall (fun x => Dyadic.between x 0 1))
         (fst (memmap_rows size n s)).
Proof.
  induction n as [|n IH]; intros s; cbn [memmap_rows]; [constructor|].
  pose proof (float32_draws (Z.to_nat size) s) as Hd.
  destruct (draws (Z.to_nat size) s) as [xs s1]. specialize (IH s1).
  destruct (memmap_rows size n s1) as [rows s2]. cbn [fst] in *.
  constructor; assumption.
Qed.

(** X15. What the arrays hold.  Every value a create pass writes is a
    float32 in the closed interval from 0 to 1: each is a double of
    [np.random.random] (in [[0, 1)]) rounded to float32 by [astype], and
    the rounding keeps it between 0 and 1.  This holds for every record of
    the three per-file layouts and for the whole memmap block.  The upper
    end is attained: the largest double below 1, [1 - 2^-53], becomes
    exactly [1.0] in float32. *)
Theorem arrays_in_unit_interval (l : layout) (size : Z) (w : world)
    (names : list string) :
  ready w names -> names <> [] -> 0 < size < 2 ^ 50 ->
  (exists w',
     create_files l size w = (Ok tt, w') /\
     forall name, name ∈ names ->
       exists arr,
         files w' !! create_location l name = Some (NpyF32 arr) /\
         Forall (fun x => Dyadic.between x 0 1) arr) /\
  (exists w' blk,
     create_files_memmap size w = (Ok tt, w') /\
     files w' !! memmap_path = Some (RawF32 blk) /\
     Forall (fun x => Dyadic.between x 0 1) blk) /\
  Float.to_float32 (S754_finite false 9007199254740991 (-53))
  = S754_finite false 8388608 (-23).
Proof.
  intros Hready Hne Hsize. split; [|split].
  - destruct (create_files_spec l size w names Hready ltac:(lia))
      as (w' & Hrun & Hcreated).
    exists w'. split; [exact Hrun|]. intros name Hin.
    destruct (created_readable _ size names w w' name ltac:(lia) Hcreated
                Hin) as (arr & (_ & _ & Hlook) & Hw & _).
    exists arr. split; [exact Hlook|].
    unfold writes in Hw. rewrite list_elem_of_In in Hw.
    apply in_combine_r in Hw. apply in_map_iff in Hw as (r & Hr & Hrin).
    injection Hr as <-.
    pose proof (records_unit size (List.length names) (rk_seed 515)) as Hu.
    rewrite List.Forall_forall in Hu. apply Hu, Hrin.
  - destruct (memmap_create_rows size w names Hready Hne ltac:(lia))
      as (w' & evs & Hrun & _ & _ & Hblk & _).
    exists w', (concat (generated_rows size (List.length names))).
    split; [exact Hrun|]. split; [exact Hblk|].
    apply Forall_concat, memmap_rows_unit.
  - vm_compute. reflexivity.
Qed.

End Contents.

Lemma arrays_in_unit_interval_witness :
  let names := [Examples.id_a; Examples.id_b] in
  let w := Examples.listed_world Examples.largest_random_state names in
  ready w names /\ names <> [] /\ 0 < 2 < 2 ^ 50 /\
  (exists w',
     create_files Flat 2 w = (Ok tt, w') /\
     forall name, name ∈ names ->
       exists arr,
         files w' !! create_location Flat name = Some (NpyF32 arr) /\
         Forall (fun x => Dyadic.between x 0 1) arr) /\
  (exists w' blk,
     create_files_memmap 2 w = (Ok tt, w') /\
     files w' !! memmap_path = Some (RawF32 blk) /\
     Forall (fun x => Dyadic.between x 0 1) blk) /\
  Float.to_float32 (S754_finite false 9007199254740991 (-53))
  = S754_finite false 8388608 (-23).
Proof.
  cbv zeta.
  pose proof (listed_world_ready Examples.largest_random_state
                [Examples.id_a; Examples.id_b] example_identifiers) as Hr.
  assert (Hne : [Examples.id_a; Examples.id_b] <> []) by discriminate.
  assert (Hsize : 0 < 2 < 2 ^ 50) by lia.
  split; [exact Hr|]. split; [exact Hne|]. split; [exact Hsize|].
  exact (arrays_in_unit_interval Flat 2 _ _ Hr Hne Hsize).
Defined.

(** ** One access pattern for all layouts *)

Section AccessPattern.
Context `{RS : RandomState} `{US : UuidSource} `{NS : NumpyStats}.

Lemma swap_map {A B} (f : A -> B) (l : list A) i j :
  swap (List.map f l) i j = List.map f (swap l i j).
Proof.
  unfold swap. change (List.map f l) with (f <$> l).
  rewrite !list_lookup_fmap.
  destruct (l !! i) as [a|]; cbn [fmap option_fmap option_map];
    [|reflexivity].
  destruct (l !! j) as [b|]; cbn [fmap option_fmap option_map];
    [|reflexivity].
  change (List.map f (<[i:=b]> (<[j:=a]> l)))
    with (f <$> <[i:=b]> (<[j:=a]> l)).
  rewrite !list_fmap_insert. reflexivity.
Qed.

Lemma shuffle_from_map {A B} (f : A -> B) i : forall (l : list A) s,
  shuffle_from i (List.map f l) s
  = (List.map f (fst (shuffle_from i l s)), snd (shuffle_from i l s)).
Proof.
  induction i as [|i IH]; intros l s; cbn [shuffle_from]; [reflexivity|].
  destruct (rk_interval (Z.of_nat (S i)) s) as [j s'].
  rewrite swap_map. apply IH.
Qed.

Lemma access_order_map {A B} (f : A -> B) (l : list A) :
  access_order (List.map f l) = List.map f (access_order l).
Proof.
  unfold access_order, shuffle. rewrite length_map, shuffle_from_map.
  reflexivity.
Qed.

Lemma list_by_index (names : list string) :
  names = List.map (fun i => nth (Z.to_nat i) names EmptyString)
                   (range (List.length names)).
Proof.
  unfold range. rewrite List.map_map.
  apply (nth_ext _ _ EmptyString EmptyString).
  - rewrite length_map, length_seq. reflexivity.
  - intros k Hk.
    set (g := fun x => nth (Z.to_nat (Z.of_nat x)) names EmptyString).
    rewrite (nth_indep (List.map g (seq 0 (List.length names)))
               EmptyString (g 0%nat))
      by (rewrite length_map, length_seq; exact Hk).
    rewrite (map_nth g), seq_nth by exact Hk.
    unfold g. rewrite Nat.add_0_l, Nat2Z.id. reflexivity.
Qed.

Lemma access_order_by_index (names : list string) :
  access_order names
  = List.map (fun i => nth (Z.to_nat i) names EmptyString)
             (access_order (range (List.length names))).
Proof.
  rewrite <- access_order_map, <- list_by_index. reflexivity.
Qed.

(** X16. All four layouts are read in the same order.  On a store that
    holds the records of a per-file layout and the memmap block, the test
    function of the layout and [test_memmap] both complete, and record
    for record the identifier whose file the first loads is the one whose
    row the second fetches: the shuffle of the identifier array and the
    shuffle of the index array, each from the generator reseeded with 515,
    are the same permutation. *)
Theorem same_access_pattern (l : layout) (size : Z) (w : world)
    (names : list string) (xs : list spec_float) :
  ready w names -> names <> [] -> 0 < size ->
  (forall x, x ∈ names -> exists arr, readable w (test_location l x) arr) ->
  memmap_dir ∈ dirs w ->
  files w !! memmap_path = Some (RawF32 xs) ->
  Z.of_nat (List.length names) * size <= Z.of_nat (List.length xs) ->
  exists w1 w2 evs1 evs2,
    test_files l size w = (Ok tt, w1) /\
    test_memmap size w = (Ok tt, w2) /\
    log w1 = log w ++ evs1 /\ log w2 = log w ++ evs2 /\
    loaded evs1 =
      filelist_path ::
      List.map (fun i => test_location l (nth (Z.to_nat i) names EmptyString))
               (fetched_rows evs2).
Proof.
  intros Hready Hne Hsize Hfiles Hdir Hblk Hfits.
  destruct (test_files_spec l size w names Hready Hne Hfiles)
    as (w1 & Hrun1 & Htested1).
  destruct (tested_loaded _ _ _ _ _ Htested1) as (evs1 & Hlog1 & Hloaded & _).
  destruct (test_memmap_spec size w names xs Hready Hne Hsize Hdir Hblk
              Hfits) as (w2 & Hrun2 & Htested2).
  destruct (tested_memmap_fetched _ _ _ _ Htested2)
    as (evs2 & Hlog2 & Hfetched & _).
  exists w1, w2, evs1, evs2. split; [exact Hrun1|]. split; [exact Hrun2|].
  split; [exact Hlog1|]. split; [exact Hlog2|].
  rewrite Hloaded, Hfetched. f_equal.
  rewrite (access_order_by_index names) at 1.
  rewrite List.map_map. reflexivity.
Qed.

End AccessPattern.

Lemma same_access_pattern_witness :
  let names := [Examples.id_a; Examples.id_b] in
  let w := snd (create_files_memmap 3
                  (snd (create_files Flat 3
                          (Examples.listed_world Examples.table_random_state
                             names)))) in
  let xs := block w memmap_path in
  ready w names /\ names <> [] /\ 0 < 3 /\
  (forall x, x ∈ names ->
     exists arr, readable w (test_location Flat x) arr) /\
  (memmap_dir ∈ dirs w) /\
  files w !! memmap_path = Some (RawF32 xs) /\
  Z.of_nat (List.length names) * 3 <= Z.of_nat (List.length xs) /\
  exists w1 w2 evs1 evs2,
    @test_files _ _ Examples.simple_stats Flat 3 w = (Ok tt, w1) /\
    @test_memmap _ _ Examples.simple_stats 3 w = (Ok tt, w2) /\
    log w1 = log w ++ evs1 /\ log w2 = log w ++ evs2 /\
    loaded evs1 =
      filelist_path ::
      List.map (fun i => test_location Flat
                           (nth (Z.to_nat i) names EmptyString))
               (fetched_rows evs2).
Proof.
  cbv zeta.
  pose proof (listed_world_ready Examples.table_random_state
                [Examples.id_a; Examples.id_b] example_identifiers) as Hr.
  assert (Hne : [Examples.id_a; Examples.id_b] <> []) by discriminate.
  destruct (both_created 3 _ _ Hr Hne ltac:(lia))
    as (Hready & Hfiles & Hdir & Hblk & Hfits).
  assert (Hsize : 0 < 3) by lia.
  split; [exact Hready|]. split; [exact Hne|]. split; [exact Hsize|].
  split; [exact Hfiles|]. split; [exact Hdir|]. split; [exact Hblk|].
  split; [exact Hfits|].
  exact (same_access_pattern (NS := Examples.simple_stats) Flat 3 _ _ _
           Hready Hne Hsize Hfiles Hdir Hblk Hfits).
Defined.

(** ** The memmap create pass: every row, then the flush *)

Section MemmapRows.
Context `{RS : RandomState} `{US : UuidSource} `{NS : NumpyStats}.

(** X17. On a store with a non-empty identifier list and a positive size
    the memmap create pass completes: after making its directory, loading
    the list and opening the block it stores row [i] for every
    [i = 0 .. COUNT-1], in this order, each row with [size] values, and its
    last action is the explicit flush; the block then holds exactly these
    rows.  The read pass, from every state, for every size and however it
    ends, neither stores into the mapping nor flushes it. *)
Theorem memmap_rows_then_flush (size : Z) (w : world)
    (names : list string) :
  ready w names -> names <> [] -> 0 < size ->
  (let n := List.length names in
   let rows := generated_rows size n in
   List.length rows = n /\
   Forall (fun row => List.length row = Z.to_nat size) rows /\
   exists w',
     create_files_memmap size w = (Ok tt, w') /\
     log w' = log w ++
       [EvMkdir memmap_dir; EvLoad filelist_path;
        EvMemmapOpen memmap_path ModeWritePlus (Z.of_nat n) size] ++
       List.map store_event (combine (range n) rows) ++
       [EvMemmapFlush memmap_path] /\
     files w' !! memmap_path = Some (RawF32 (concat rows))) /\
  (forall size0 w0, exists evs,
     log (snd (test_memmap size0 w0)) = log w0 ++ evs /\
     forallb (fun e => negb (is_store e) && negb (is_flush e)) evs = true).
Proof.
  intros Hready Hne Hsize.
  split; [|intros size0 w0; apply test_memmap_adds]. cbv zeta.
  destruct (memmap_rows_spec size (List.length names) (rk_seed 515))
    as [Hlen Huniform].
  fold (generated_rows size (List.length names)) in Hlen, Huniform.
  split; [exact Hlen|]. split; [exact Huniform|].
  destruct (create_files_memmap_spec size w names Hready Hne Hsize)
    as (w' & Hrun & Hfiles & _ & _ & Hlog).
  exists w'. split; [exact Hrun|]. split; [exact Hlog|].
  rewrite Hfiles. apply lookup_insert_eq.
Qed.

End MemmapRows.

(** [memmap_rows_then_flush] for two identifiers and size 3. *)
Lemma memmap_rows_then_flush_witness :
  let names := [Examples.id_a; Examples.id_b] in
  let w := Examples.listed_world Examples.table_random_state names in
  ready w names /\ names <> [] /\ 0 < 3 /\
  (let rows := @generated_rows Examples.table_random_state 3 2 in
   List.length rows = 2%nat /\
   Forall (fun row => List.length row = 3%nat) rows /\
   exists w',
     create_files_memmap 3 w = (Ok tt, w') /\
     log w' =
       [EvMkdir memmap_dir; EvLoad filelist_path;
        EvMemmapOpen memmap_path ModeWritePlus 2 3] ++
       List.map store_event (combine (range 2) rows) ++
       [EvMemmapFlush memmap_path] /\
     files w' !! memmap_path = Some (RawF32 (concat rows))) /\
  (forall size0
          (w0 : @world Examples.table_random_state
                       Examples.counter_uuid_source),
   exists evs,
     log (snd (@test_memmap _ _ Examples.simple_stats size0 w0))
     = log w0 ++ evs /\
     forallb (fun e => negb (is_store e) && negb (is_flush e)) evs = true).
Proof.
  cbv zeta.
  pose proof (listed_world_ready Examples.table_random_state
                [Examples.id_a; Examples.id_b] example_identifiers) as Hr.
  assert (Hne : [Examples.id_a; Examples.id_b] <> []) by discriminate.
  assert (Hsize : 0 < 3) by lia.
  split; [exact Hr|]. split; [exact Hne|]. split; [exact Hsize|].
  exact (memmap_rows_then_flush (NS := Examples.simple_stats) 3 _ _
           Hr Hne Hsize).
Defined.
